(** * SideKick MathGrader: the grading pipeline

    A shallow embedding of [app/mathgrader]: the submission parser's answer
    extraction, the answer-key parser's grading-rule extraction, the
    [MathComparator] and the [GradingEngine], with the properties the
    specification states about them.

    Conventions of the embedding.
    - A Python [str] is a [string]; the character-level operations
      ([lower], [strip], [len], the classes [\s], [\d], [[a-z]]) are given
      on ASCII text, where Python's Unicode-aware versions coincide with
      them.  Characters outside ASCII inside message literals are kept as
      their UTF-8 bytes.
    - A Python [float] is a binary64 number, kept as its exact rational
      value in [Q].  Where the sources compute with floats and the digits
      matter (the confidence score of the submission parser, the total and
      the percentage of the engine, [float] of a run of digits) the
      operations are those of binary64: the exact result rounded to the
      nearest float, ties to even ([Py.round64]); so [1.0 - 0.3 - 0.2] is
      [0.49999999999999994] here as in Python.  The tolerance test of the
      comparator and the counting helpers of the result models are kept
      exact.  Infinities and NaN are outside the model.  Pydantic coerces
      the [int] literals the engine passes ([0], [1], [-1]) to [float], so
      one number type is enough.
    - [None] is [None]; an exception is an explicit error value.
    - SymPy and the PDF reader are external: SymPy is an interface
      ([Sympy]) the comparator is written against, and the parsers start
      from the extracted text. *)

From Stdlib Require Import String Ascii List Bool ZArith QArith Qabs Qminmax
  Sorted Lia.
From stdpp Require Import gmap strings.

Local Open Scope string_scope.

(** ** Python built-ins used by the sources *)

Module Py.

(** [str.isspace] on ASCII: TAB, LF, VT, FF, CR, FS, GS, RS, US, space. *)
Definition is_space (c : ascii) : bool :=
  let n := nat_of_ascii c in
  (((9 <=? n) && (n <=? 13)) || ((28 <=? n) && (n <=? 32)))%nat.

Definition is_digit (c : ascii) : bool :=
  let n := nat_of_ascii c in ((48 <=? n) && (n <=? 57))%nat.

Definition is_upper (c : ascii) : bool :=
  let n := nat_of_ascii c in ((65 <=? n) && (n <=? 90))%nat.

Definition is_lower (c : ascii) : bool :=
  let n := nat_of_ascii c in ((97 <=? n) && (n <=? 122))%nat.

Definition lower_char (c : ascii) : ascii :=
  if is_upper c then ascii_of_nat (nat_of_ascii c + 32) else c.

(** [s.lower()] *)
Fixpoint lower (s : string) : string :=
  match s with
  | EmptyString => EmptyString
  | String c s' => String (lower_char c) (lower s')
  end.

(** [len(s)] *)
Definition len (s : string) : nat := String.length s.

(** Truthiness of a string: [if s:] holds for the non-empty ones. *)
Definition truthy (s : string) : bool :=
  match s with EmptyString => false | String _ _ => true end.

(** [s.lstrip(chars)], with the stripped set given as a predicate. *)
Fixpoint lstrip_of (p : ascii -> bool) (s : string) : string :=
  match s with
  | EmptyString => EmptyString
  | String c s' => if p c then lstrip_of p s' else s
  end.

(** [s.rstrip(chars)] *)
Fixpoint rstrip_of (p : ascii -> bool) (s : string) : string :=
  match s with
  | EmptyString => EmptyString
  | String c s' =>
      match rstrip_of p s' with
      | EmptyString => if p c then EmptyString else String c EmptyString
      | r => String c r
      end
  end.

(** [s.strip()] *)
Definition strip (s : string) : string :=
  rstrip_of is_space (lstrip_of is_space s).

(** Membership of a character in a literal set such as ['.,;:']. *)
Definition one_of (chars : string) (c : ascii) : bool :=
  existsb (Ascii.eqb c) (list_ascii_of_string chars).

(** [s.rstrip('%')], [s.rstrip('.,;:')] *)
Definition rstrip_chars (chars : string) (s : string) : string :=
  rstrip_of (one_of chars) s.

(** [s.startswith(prefix)] *)
Definition startswith (pre s : string) : bool := String.prefix pre s.

(** [s[n:]] *)
Fixpoint drop (n : nat) (s : string) : string :=
  match n, s with
  | O, _ => s
  | S n', String _ s' => drop n' s'
  | S _, EmptyString => EmptyString
  end.

(** [sub in s] *)
Fixpoint contains (sub s : string) : bool :=
  if String.prefix sub s then true
  else match s with
       | EmptyString => false
       | String _ s' => contains sub s'
       end.

(** [s.count(c)] for a one-character [c] *)
Fixpoint count_char (c : ascii) (s : string) : nat :=
  match s with
  | EmptyString => 0
  | String d s' => (if Ascii.eqb d c then 1 else 0) + count_char c s'
  end.

(** [s.split(c)] for a one-character separator: never empty. *)
Fixpoint split_char (c : ascii) (s : string) : list string :=
  match s with
  | EmptyString => [EmptyString]
  | String d s' =>
      if Ascii.eqb d c then EmptyString :: split_char c s'
      else match split_char c s' with
           | [] => [String d EmptyString]
           | h :: t => String d h :: t
           end
  end.

(** [s.split(c)[0]] *)
Definition split_first (c : ascii) (s : string) : string :=
  match split_char c s with
  | [] => EmptyString
  | h :: _ => h
  end.

(** [s.replace(old, new)] for a non-empty [old]: leftmost occurrences,
    not overlapping.  The fuel is the number of characters left. *)
Fixpoint replace_fuel (fuel : nat) (old new s : string) : string :=
  match fuel with
  | O => s
  | S fuel' =>
      match s with
      | EmptyString => EmptyString
      | String c s' =>
          if String.prefix old s
          then new ++ replace_fuel (fuel' - (String.length old - 1)) old new
                        (drop (String.length old) s)
          else String c (replace_fuel fuel' old new s')
      end
  end.

Definition replace (old new s : string) : string :=
  match old with
  | EmptyString => s
  | _ => replace_fuel (String.length s) old new s
  end.

(** [re.sub(r'\s+', ' ', s)]: every maximal run of white space becomes one
    space. *)
Fixpoint collapse_ws (s : string) : string :=
  match s with
  | EmptyString => EmptyString
  | String c s' =>
      if is_space c
      then match s' with
           | String d _ => if is_space d then collapse_ws s'
                           else String " " (collapse_ws s')
           | EmptyString => String " " EmptyString
           end
      else String c (collapse_ws s')
  end.

(** The two-argument [max] and [min]: the first argument is kept unless the
    second is strictly larger (smaller). *)
Definition Qltb (x y : Q) : bool := negb (Qle_bool y x).

Definition max (a b : Q) : Q := if Qltb a b then b else a.
Definition min (a b : Q) : Q := if Qltb b a then b else a.

(** [abs] *)
Definition abs (x : Q) : Q := Qabs x.

(** *** Floating point

    [round64 x] is the binary64 number nearest to [x], the one with the
    even mantissa of two equally near: 53 bits of mantissa, exponents down
    to the subnormal numbers.  Numbers beyond the largest finite float,
    which Python turns into an infinity, are rounded like the others. *)

(** [n / (d * 2^e)] as a fraction of two integers, for [d] positive. *)
Definition scaled (n d e : Z) : Z * Z :=
  if (0 <=? e)%Z then (n, (d * 2 ^ e)%Z) else ((n * 2 ^ (- e))%Z, d).

(** The integer nearest to [num / den], the even one of two equally
    near. *)
Definition nearest_even (num den : Z) : Z :=
  let q := (num / den)%Z in
  let r := (num mod den)%Z in
  if (2 * r <? den)%Z then q
  else if (den <? 2 * r)%Z then (q + 1)%Z
  else if Z.even q then q else (q + 1)%Z.

Definition pow2 (e : Z) : Q :=
  if (0 <=? e)%Z then inject_Z (2 ^ e) else Qinv (inject_Z (2 ^ (- e))).

Definition round64 (x : Q) : Q :=
  if (Qnum x =? 0)%Z then 0%Q
  else
    let n := Z.abs (Qnum x) in
    let d := Z.pos (Qden x) in
    let l := (Z.log2 n - Z.log2 d)%Z in
    let lg := let (a, b) := scaled n d l in
              if (a <? b)%Z then (l - 1)%Z else l in
    let e := Z.max (lg - 52) (-1074) in
    let m := let (a, b) := scaled n d e in nearest_even a b in
    Qred (Qmult (inject_Z (Z.sgn (Qnum x) * m)) (pow2 e)).

(** A decimal literal such as [0.3], and the four operations on floats. *)
Definition float_lit (x : Q) : Q := round64 x.

Definition fadd (a b : Q) : Q := round64 (Qplus a b).
Definition fsub (a b : Q) : Q := round64 (Qminus a b).
Definition fmul (a b : Q) : Q := round64 (Qmult a b).
Definition fdiv (a b : Q) : Q := round64 (Qdiv a b).

(** [float(s)] on a run of decimal digits, the only strings the parsers
    hand to it: the float nearest to the number the digits denote (an
    infinity in Python when that number is beyond the largest finite
    float, from 309 digits on; here the rounded number).  [None] stands
    for [ValueError]. *)
Fixpoint digits_value (acc : Z) (s : string) : option Z :=
  match s with
  | EmptyString => Some acc
  | String c s' =>
      if is_digit c
      then digits_value (10 * acc + Z.of_nat (nat_of_ascii c - 48)) s'
      else None
  end.

Definition float_of_digits (s : string) : option Q :=
  match s with
  | EmptyString => None
  | _ => option_map (fun z => round64 (inject_Z z)) (digits_value 0 s)
  end.

End Py.

(** ** The fragment of Python's [re] the parsers use

    A backtracking matcher in continuation-passing style, with the priorities
    of [re]: alternatives left to right, greedy repetition longest first,
    lazy repetition shortest first.  Every repetition in the patterns of the
    sources is over a single character class, so [Many] takes a class. *)

Module Re.

Inductive regex : Type :=
| Eps                                        (* the empty pattern *)
| Chars (p : ascii -> bool)                  (* one character of a class *)
| Cat (r1 r2 : regex)                        (* r1 r2 *)
| Or (r1 r2 : regex)                         (* r1|r2 *)
| Many (greedy : bool) (p : ascii -> bool)   (* c* and c*? *)
| Grp (n : nat) (r : regex)                  (* capturing group number n *)
| Ahead (r : regex)                          (* (?=r) *)
| Bos                                        (* ^ without MULTILINE *)
| Eos.                                       (* $ without MULTILINE *)

(** Captured groups, most recent first. *)
Definition captures : Type := list (nat * string).

Fixpoint many_greedy {R : Type} (p : ascii -> bool) (pos : nat) (s : string)
    (k : nat -> string -> option R) : option R :=
  match s with
  | String c s' =>
      if p c
      then match many_greedy p (S pos) s' k with
           | Some r => Some r
           | None => k pos s
           end
      else k pos s
  | EmptyString => k pos s
  end.

Fixpoint many_lazy {R : Type} (p : ascii -> bool) (pos : nat) (s : string)
    (k : nat -> string -> option R) : option R :=
  match k pos s with
  | Some r => Some r
  | None =>
      match s with
      | String c s' => if p c then many_lazy p (S pos) s' k else None
      | EmptyString => None
      end
  end.

(** [run r pos s cs k]: match [r] against [s], the text from offset [pos]
    on, then hand the new offset, the rest and the captures to [k]; when
    [k] fails, backtrack. *)
Fixpoint run (r : regex) {R : Type} (pos : nat) (s : string) (cs : captures)
    (k : nat -> string -> captures -> option R) : option R :=
  match r with
  | Eps => k pos s cs
  | Chars p =>
      match s with
      | String c s' => if p c then k (S pos) s' cs else None
      | EmptyString => None
      end
  | Cat r1 r2 =>
      run r1 pos s cs (fun pos1 s1 cs1 => run r2 pos1 s1 cs1 k)
  | Or r1 r2 =>
      match run r1 pos s cs k with
      | Some x => Some x
      | None => run r2 pos s cs k
      end
  | Many true p => many_greedy p pos s (fun pos1 s1 => k pos1 s1 cs)
  | Many false p => many_lazy p pos s (fun pos1 s1 => k pos1 s1 cs)
  | Grp n r1 =>
      run r1 pos s cs
        (fun pos1 s1 cs1 => k pos1 s1 ((n, substring 0 (pos1 - pos) s) :: cs1))
  | Ahead r1 =>
      match run r1 pos s cs (fun _ _ _ => Some tt) with
      | Some _ => k pos s cs
      | None => None
      end
  | Bos => if (pos =? 0)%nat then k pos s cs else None
  | Eos =>
      match s with
      | EmptyString => k pos s cs
      | String c EmptyString => if Ascii.eqb c "010" then k pos s cs else None
      | _ => None
      end
  end.

(** A match object: where it starts and ends, the text after it, and the
    groups. *)
Record rmatch : Type := mkMatch {
  m_start : nat;
  m_end : nat;
  m_rest : string;
  m_caps : captures
}.

(** [before a b]: the match [a] ends where [b] starts, or earlier. *)
Definition before (a b : rmatch) : Prop := (m_end a <= m_start b)%nat.

(** [m.group(n)]: [None] when the group took no part in the match. *)
Fixpoint lookup_group (n : nat) (cs : captures) : option string :=
  match cs with
  | [] => None
  | (i, v) :: cs' => if (i =? n)%nat then Some v else lookup_group n cs'
  end.

Definition group (m : rmatch) (n : nat) : option string :=
  lookup_group n (m_caps m).

(** [m.group(n) or ""]; also used for the groups a pattern always sets. *)
Definition group_text (m : rmatch) (n : nat) : string :=
  match group m n with
  | Some v => v
  | None => ""
  end.

Definition match_here (r : regex) (pos : nat) (s : string) : option rmatch :=
  run r pos s [] (fun pos1 s1 cs1 => Some (mkMatch pos pos1 s1 cs1)).

(** [re.search]: the match at the leftmost offset that has one. *)
Fixpoint search_from (r : regex) (pos : nat) (s : string) : option rmatch :=
  match match_here r pos s with
  | Some m => Some m
  | None =>
      match s with
      | String _ s' => search_from r (S pos) s'
      | EmptyString => None
      end
  end.

Definition search (r : regex) (s : string) : option rmatch :=
  search_from r 0 s.

(** [re.finditer]: the matches from left to right, each search starting
    where the previous match ended (one character further after an empty
    match; the patterns iterated here consume at least a digit, so the
    finer rule of [re] for empty matches plays no part).  Each match takes
    one step of fuel, and a text of [n] characters has at most [n + 1]
    matches. *)
Fixpoint finditer_from (fuel : nat) (r : regex) (pos : nat) (s : string)
    : list rmatch :=
  match fuel with
  | O => []
  | S fuel' =>
      match search_from r pos s with
      | None => []
      | Some m =>
          m :: (if (m_end m =? m_start m)%nat
                then match m_rest m with
                     | String _ s' => finditer_from fuel' r (S (m_end m)) s'
                     | EmptyString => []
                     end
                else finditer_from fuel' r (m_end m) (m_rest m))
      end
  end.

Definition finditer (r : regex) (s : string) : list rmatch :=
  finditer_from (S (String.length s)) r 0 s.

(** *** Writing patterns *)

Definition chr (c : ascii) : regex := Chars (Ascii.eqb c).

(** A literal character under [re.IGNORECASE]. *)
Definition ichr (c : ascii) : regex :=
  Chars (fun x => Ascii.eqb (Py.lower_char x) (Py.lower_char c)).

Fixpoint lit (s : string) : regex :=
  match s with
  | EmptyString => Eps
  | String c EmptyString => chr c
  | String c s' => Cat (chr c) (lit s')
  end.

Fixpoint ilit (s : string) : regex :=
  match s with
  | EmptyString => Eps
  | String c EmptyString => ichr c
  | String c s' => Cat (ichr c) (ilit s')
  end.

(** [r?] (greedy) *)
Definition opt (r : regex) : regex := Or r Eps.

(** [c+] and [c+?] *)
Definition plus (greedy : bool) (p : ascii -> bool) : regex :=
  Cat (Chars p) (Many greedy p).

(** [r1 r2 ... rn] *)
Definition cat (rs : list regex) : regex := fold_right Cat Eps rs.

(** [.] under [re.DOTALL], and without it *)
Definition any : ascii -> bool := fun _ => true.
Definition not_newline : ascii -> bool := fun c => negb (Ascii.eqb c "010").

(** [[a-z]] under [re.IGNORECASE] *)
Definition letter_i : ascii -> bool := fun c => Py.is_lower (Py.lower_char c).

End Re.

Local Open Scope Q_scope.

(** ** Exceptions

    The exception classes the handlers of the sources tell apart. *)

Inductive exn : Type :=
| TypeError
| ValueError
| ValidationError      (* pydantic refusing a field value *)
| OtherException.      (* any other subclass of [Exception] *)

Inductive result (A : Type) : Type :=
| Ok (a : A)
| Raise (e : exn).

Arguments Ok {A} a.
Arguments Raise {A} e.

Definition rbind {A B : Type} (x : result A) (f : A -> result B) : result B :=
  match x with
  | Ok a => f a
  | Raise e => Raise e
  end.

(** ** models/rubric.py *)

Inductive QuestionType : Type :=
| TRUE_FALSE | NUMERIC | PROBABILITY | BIG_O | PROOF
| MULTIPLE_CHOICE | SHORT_ANSWER | GRAPHING.

Inductive GradingRuleType : Type :=
| EXACT_MATCH | EQUIVALENT | PER_ITEM_PENALTY | NO_PARTIAL | PARTIAL_CREDIT.

Record GradingRule : Type := mkGradingRule {
  rule_type : GradingRuleType;
  points_correct : Q;
  points_incorrect : Q;
  minimum_score : Q;
  notes : option string
}.

Record Solution : Type := mkSolution {
  value : string;
  equivalent_forms : list string;
  explanation : option string
}.

(** [SubQuestion]; the fields [id], [text] and [points] carry the prefix
    [sq_]. *)
Record SubQuestion : Type := mkSubQuestion {
  sq_id : string;
  sq_text : string;
  sq_points : Q;
  grading_rule : GradingRule;
  solution : Solution;
  question_type : QuestionType
}.

(** [Question]; prefix [q_]. *)
Record Question : Type := mkQuestion {
  q_number : Z;
  q_text : string;
  sub_questions : list SubQuestion;
  q_total_points : Q;
  q_context : option string
}.

Record Rubric : Type := mkRubric {
  rubric_assignment_id : string;
  course : string;
  total_points : Q;
  base_points : Q;
  questions : list Question;
  general_notes : option string
}.

(** ** models/submission.py

    The time stamps ([submission_time], [graded_at]) read the wall clock and
    are left out of the records. *)

Record StudentAnswer : Type := mkStudentAnswer {
  question_id : string;
  raw_text : string;
  parsed_value : option string;      (* Optional[str], default None *)
  confidence : Q;
  parsing_notes : option string
}.

Record Submission : Type := mkSubmission {
  student_id : string;
  student_name : option string;
  assignment_id : string;
  file_path : string;
  answers : list StudentAnswer
}.

(** [Submission.get_answer]: the first answer recorded for the id. *)
Fixpoint find_answer (l : list StudentAnswer) (qid : string)
    : option StudentAnswer :=
  match l with
  | [] => None
  | a :: l' => if String.eqb (question_id a) qid then Some a
               else find_answer l' qid
  end.

Definition get_answer (self : Submission) (qid : string)
    : option StudentAnswer :=
  find_answer (answers self) qid.

(** ** models/grade_result.py *)

(** [QuestionGrade]; prefix [qg_]. *)
Record QuestionGrade : Type := mkQuestionGrade {
  qg_question_id : string;
  points_earned : Q;
  points_possible : Q;
  qg_student_answer : string;
  correct_answer : string;
  is_correct : bool;
  feedback : string;
  grading_notes : option string
}.

(** The constructor call [QuestionGrade(...)]: the field [student_answer] is
    declared [str], so pydantic refuses [None]; every other argument the
    engine passes has the declared type. *)
Definition new_QuestionGrade (qid : string) (earned possible : Q)
    (correct : bool) (student : option string) (right : string)
    (fb : string) (gnotes : option string) : result QuestionGrade :=
  match student with
  | None => Raise ValidationError
  | Some s => Ok (mkQuestionGrade qid earned possible s right correct fb gnotes)
  end.

(** [GradeResult]; the ids carry the prefix [gr_]. *)
Record GradeResult : Type := mkGradeResult {
  submission_id : string;
  gr_student_id : string;
  gr_assignment_id : string;
  total_score : Q;
  total_possible : Q;
  percentage : Q;
  question_grades : list QuestionGrade;
  overall_feedback : string;
  graded_by : string;
  needs_review : bool;
  review_reasons : list string
}.

(** The constructor call [GradeResult(...)] as the engine makes it:
    [graded_by], [needs_review] and [review_reasons] are not passed and take
    their declared defaults. *)
Definition new_GradeResult (sid aid subid : string)
    (qgs : list QuestionGrade) (score possible pct : Q) (fb : string)
    : GradeResult :=
  {| submission_id := subid;
     gr_student_id := sid;
     gr_assignment_id := aid;
     total_score := score;
     total_possible := possible;
     percentage := pct;
     question_grades := qgs;
     overall_feedback := fb;
     graded_by := "MathGrader AI";
     needs_review := false;
     review_reasons := [] |}.

(** [GradeResult.letter_grade] *)
Definition letter_grade (self : GradeResult) : string :=
  if Qle_bool 90 (percentage self) then "A"
  else if Qle_bool 80 (percentage self) then "B"
  else if Qle_bool 70 (percentage self) then "C"
  else if Qle_bool 60 (percentage self) then "D"
  else "F".

(** ** SymPy, as the comparator sees it

    Each operation is the SymPy call of the source with its exception, if
    any, made explicit.  [simplify_diff_is_zero a b] is
    [simplify(a - b) == 0]; [N_float e] is [float(N(e))]; [float_of_expr e]
    is [float(e)]; [parse_expr] is called with [TRANSFORMATIONS] by
    [_parse_math] and with [local_dict={'n': n}] by [_compare_big_o]. *)

Class Sympy : Type := {
  expr : Type;
  parse_expr : string -> result expr;
  parse_expr_n : string -> result expr;
  Rational : string -> string -> result expr;
  Float : string -> result expr;
  simplify_diff_is_zero : expr -> expr -> result bool;
  N_float : expr -> result Q;
  float_of_expr : expr -> result Q
}.

(** ** grading/math_comparator.py *)

Module MathComparator.

(** [FLOAT_TOLERANCE = 1e-6] *)
Definition FLOAT_TOLERANCE : Q := 0.000001.

(** [_normalize]; the argument may be [None]. *)
Definition _normalize (text : option string) : string :=
  match text with
  | None => ""
  | Some t =>
      if Py.truthy t then Py.collapse_ws (Py.lower (Py.strip t)) else ""
  end.

Definition in_list (s : string) (l : list string) : bool :=
  existsb (String.eqb s) l.

Definition true_values : list string := ["true"; "t"; "1"; "yes"; "y"].
Definition false_values : list string := ["false"; "f"; "0"; "no"; "n"].

Definition to_bool (s : string) : option bool :=
  if in_list s true_values then Some true
  else if in_list s false_values then Some false
  else None.

Definition _compare_boolean (student correct : string) : bool * Q :=
  match to_bool student, to_bool correct with
  | Some student_bool, Some correct_bool =>
      (Bool.eqb student_bool correct_bool, 1)
  | _, _ => (false, 0.5)
  end.

(** [s[0] if s else ""] *)
Definition first_letter (s : string) : string :=
  match s with
  | EmptyString => ""
  | String c _ => String c ""
  end.

Definition _compare_multiple_choice (student correct : string) : bool * Q :=
  (String.eqb (first_letter student) (first_letter correct), 1).

(** The pattern of [_extract_big_o]: [[oO]\s*\(\s*(.+?)\s*\)] *)
Definition BIG_O_WRAPPER : Re.regex :=
  Re.cat [ Re.Chars (Py.one_of "oO"); Re.Many true Py.is_space; Re.chr "(";
           Re.Many true Py.is_space; Re.Grp 1 (Re.plus false Re.not_newline);
           Re.Many true Py.is_space; Re.chr ")" ].

Definition _extract_big_o (e : string) : string :=
  match Re.search BIG_O_WRAPPER e with
  | Some m => Re.group_text m 1
  | None => Py.strip e
  end.

Definition _normalize_big_o (e : string) : string :=
  let e := Py.lower e in
  let e := Py.replace " " "" e in
  let e := Py.replace "^" "**" e in
  let e := Py.replace "log(n)" "logn" e in
  let e := Py.replace "log n" "logn" e in
  e.

Section WithSympy.

Context `{Sympy}.

(** [_parse_math]: every exception inside is swallowed, the answer is an
    expression or [None]. *)
Definition _parse_math (e : string) : option expr :=
  if negb (Py.truthy e) then None
  else
    let e := Py.replace "^" "**" e in
    let e := Py.replace "×" "*" e in
    let e := Py.replace "÷" "/" e in
    match parse_expr e with
    | Ok x => Some x
    | Raise _ =>
        let as_float :=
          match Float e with
          | Ok x => Some x
          | Raise _ => None
          end in
        if Py.contains "/" e
        then match Py.split_char "/" e with
             | [num; den] =>
                 match Rational (Py.strip num) (Py.strip den) with
                 | Ok x => Some x
                 | Raise _ => as_float
                 end
             | _ => as_float
             end
        else as_float
    end.

(** The inner [try] of [_compare_numeric]: evaluate both sides and compare
    them within the tolerance. *)
Definition numeric_close (student_expr correct_expr : expr) : result bool :=
  rbind (N_float student_expr) (fun student_val =>
  rbind (N_float correct_expr) (fun correct_val =>
  Ok (Py.Qltb (Py.abs (student_val - correct_val)) FLOAT_TOLERANCE))).

Definition _compare_numeric (student correct : string) : bool * Q :=
  match _parse_math student, _parse_math correct with
  | Some student_expr, Some correct_expr =>
      match simplify_diff_is_zero student_expr correct_expr with
      | Raise _ => (false, 0.5)                 (* except Exception *)
      | Ok true => (true, 1)
      | Ok false =>
          match numeric_close student_expr correct_expr with
          | Ok true => (true, 0.95)
          | Ok false => (false, 0.9)
          | Raise TypeError | Raise ValueError => (false, 0.9)   (* pass *)
          | Raise _ => (false, 0.5)             (* except Exception *)
          end
      end
  | _, _ => (false, 0.5)
  end.

(** [float(self._parse_math(s))]; [float(None)] is a [TypeError]. *)
Definition float_of_parsed (s : string) : result Q :=
  match _parse_math s with
  | None => Raise TypeError
  | Some e => float_of_expr e
  end.

Definition _compare_probability (student correct : string) : bool * Q :=
  let student := Py.rstrip_chars "%" student in
  let correct := Py.rstrip_chars "%" correct in
  let percent_match :=
    if Py.contains "%" correct
    then match rbind (float_of_parsed student) (fun x =>
               rbind (float_of_parsed (Py.rstrip_chars "%" correct)) (fun correct_val =>
               let student_val := x * 100 in
               Ok (Py.Qltb (Py.abs (student_val - correct_val)) FLOAT_TOLERANCE)))
         with
         | Ok b => b
         | Raise _ => false                        (* bare except: pass *)
         end
    else false in
  if percent_match then (true, 0.95)
  else _compare_numeric student correct.

Definition _compare_big_o (student correct : string) : bool * Q :=
  let student_inner := _extract_big_o student in
  let correct_inner := _extract_big_o correct in
  if negb (Py.truthy student_inner) || negb (Py.truthy correct_inner)
  then (false, 0.5)
  else
    let student_inner := _normalize_big_o student_inner in
    let correct_inner := _normalize_big_o correct_inner in
    if String.eqb student_inner correct_inner then (true, 1)
    else
      match rbind (parse_expr_n student_inner) (fun student_expr =>
            rbind (parse_expr_n correct_inner) (fun correct_expr =>
            simplify_diff_is_zero student_expr correct_expr))
      with
      | Ok true => (true, 0.95)
      | _ => (false, 0.8)
      end.

(** [compare] *)
Definition compare (student_answer : option string) (correct_answer : string)
    (qt : QuestionType) (forms : list string) : bool * Q :=
  let student := _normalize student_answer in
  let correct := _normalize (Some correct_answer) in
  if negb (Py.truthy student) then (false, 1)
  else if String.eqb student correct then (true, 1)
  else if match forms with [] => false | _ => true end
          && in_list student (map (fun f => _normalize (Some f)) forms)
  then (true, 1)
  else
    match qt with
    | TRUE_FALSE => _compare_boolean student correct
    | NUMERIC => _compare_numeric student correct
    | PROBABILITY => _compare_probability student correct
    | BIG_O => _compare_big_o student correct
    | MULTIPLE_CHOICE => _compare_multiple_choice student correct
    | _ => (false, 0.3)
    end.

End WithSympy.

End MathComparator.

(** ** parsers/submission_parser.py *)

Module SubmissionParser.

Definition newline : ascii := "010".

(** [(?:\)|\.|\:)] *)
Definition closer : Re.regex :=
  Re.Or (Re.chr ")") (Re.Or (Re.chr ".") (Re.chr ":")).

(** The pattern of [_find_answer_blocks], compiled with
    [re.IGNORECASE | re.DOTALL]:
    [(?:^|\n)\s*(?:\()?(\d+)\s*[.\-]?\s*([a-z])?(?:\)|\.|\:)?\s*(.+?)]
    followed by the look-ahead
    [(?=(?:\n\s*(?:\()?\d+\s*[.\-]?\s*[a-z]?(?:\)|\.|\:)?)|$)]. *)
Definition ANSWER_BLOCK : Re.regex :=
  Re.cat
    [ Re.Or Re.Bos (Re.chr newline);
      Re.Many true Py.is_space;
      Re.opt (Re.chr "(");
      Re.Grp 1 (Re.plus true Py.is_digit);
      Re.Many true Py.is_space;
      Re.opt (Re.Chars (Py.one_of ".-"));
      Re.Many true Py.is_space;
      Re.opt (Re.Grp 2 (Re.Chars Re.letter_i));
      Re.opt closer;
      Re.Many true Py.is_space;
      Re.Grp 3 (Re.plus false Re.any);
      Re.Ahead
        (Re.Or
           (Re.cat
              [ Re.chr newline;
                Re.Many true Py.is_space;
                Re.opt (Re.chr "(");
                Re.plus true Py.is_digit;
                Re.Many true Py.is_space;
                Re.opt (Re.Chars (Py.one_of ".-"));
                Re.Many true Py.is_space;
                Re.opt (Re.Chars Re.letter_i);
                Re.opt closer ])
           Re.Eos) ].

Definition _get_expected_questions (rubric : Rubric) : list string :=
  flat_map (fun question => map sq_id (sub_questions question))
           (questions rubric).

Definition _calculate_confidence (answer_text : string) : Q :=
  if negb (Py.truthy answer_text) then 0
  else
    let confidence := 1 in
    let confidence :=
      if (200 <? Py.len answer_text)%nat
      then Py.fsub confidence (Py.float_lit 0.2)
      else confidence in
    let confidence :=
      if Py.contains "?" answer_text
      then Py.fsub confidence (Py.float_lit 0.3)
      else confidence in
    let confidence :=
      if (2 <? Py.count_char newline answer_text)%nat
      then Py.fsub confidence (Py.float_lit 0.2)
      else confidence in
    let confidence :=
      if (Py.len answer_text <? 2)%nat
      then Py.fsub confidence (Py.float_lit 0.3)
      else confidence in
    Py.max 0 (Py.min 1 confidence).

Definition prefixes : list string := ["answer:"; "ans:"; "solution:"; "="].

(** One turn of the loop over [prefixes]. *)
Definition drop_prefix (text prefix : string) : string :=
  if Py.startswith prefix (Py.lower text)
  then Py.strip (Py.drop (Py.len prefix) text)
  else text.

Definition _clean_answer (raw : string) : string :=
  if negb (Py.truthy raw) then ""
  else
    let text := Py.strip raw in
    let text := fold_left drop_prefix prefixes text in
    Py.rstrip_chars ".,;:" text.

(** What one match contributes: the id it resolves to, and the entry
    written under it. *)
Definition match_id (m : Re.rmatch) : string :=
  let q_num := Re.group_text m 1 in
  let q_letter := Re.group_text m 2 in
  Py.lower (q_num ++ q_letter).

Definition match_payload (m : Re.rmatch) : string :=
  Py.strip (Re.group_text m 3).

Definition match_entry (m : Re.rmatch) : string * Q :=
  let answer_text := match_payload m in
  let confidence := _calculate_confidence answer_text in
  let first_line := Py.strip (Py.split_first newline answer_text) in
  (first_line, confidence).

(** The body of the loop: [answers[q_id] = (first_line, confidence)]. *)
Definition record_match (answers : gmap string (string * Q))
    (m : Re.rmatch) : gmap string (string * Q) :=
  <[match_id m := match_entry m]> answers.

Definition answer_matches (text : string) : list Re.rmatch :=
  Re.finditer ANSWER_BLOCK text.

Definition _find_answer_blocks (text : string) : gmap string (string * Q) :=
  fold_left record_match (answer_matches text) ∅.

(** The body of the loop of [_extract_answers]. *)
Definition answer_for (found_answers : gmap string (string * Q))
    (q_id : string) : StudentAnswer :=
  match found_answers !! q_id with
  | Some (raw, conf) =>
      {| question_id := q_id;
         raw_text := raw;
         parsed_value := Some (_clean_answer raw);
         confidence := conf;
         parsing_notes := None |}
  | None =>
      {| question_id := q_id;
         raw_text := "";
         parsed_value := Some "";
         confidence := 0;
         parsing_notes := None |}
  end.

Definition _extract_answers (text : string) (expected_questions : list string)
    : list StudentAnswer :=
  let found_answers := _find_answer_blocks text in
  map (answer_for found_answers) expected_questions.

(** The answers of the [Submission] that [parse] builds, from the text the
    PDF reader returns. *)
Definition parsed_answers (raw_text : string) (rubric : Rubric)
    : list StudentAnswer :=
  _extract_answers raw_text (_get_expected_questions rubric).

End SubmissionParser.

(** ** parsers/rubric_parser.py: the grading rule *)

Module RubricParser.

(** [PATTERNS["grading_note"]], used with [re.IGNORECASE | re.DOTALL]:
    [Grading\s*(?:Note)?:?\s*(.+?)(?=\n\n|$)] *)
Definition GRADING_NOTE : Re.regex :=
  Re.cat
    [ Re.ilit "Grading";
      Re.Many true Py.is_space;
      Re.opt (Re.ilit "Note");
      Re.opt (Re.ichr ":");
      Re.Many true Py.is_space;
      Re.Grp 1 (Re.plus false Re.any);
      Re.Ahead (Re.Or (Re.Cat (Re.chr "010") (Re.chr "010")) Re.Eos) ].

(** [min(?:imum)?\s*(\d+)] *)
Definition MINIMUM : Re.regex :=
  Re.cat
    [ Re.lit "min";
      Re.opt (Re.lit "imum");
      Re.Many true Py.is_space;
      Re.Grp 1 (Re.plus true Py.is_digit) ].

(** [float(min_match.group(1)) if min_match else 0] *)
Definition minimum_of (note : string) : result Q :=
  match Re.search MINIMUM note with
  | Some min_match =>
      match Py.float_of_digits (Re.group_text min_match 1) with
      | Some x => Ok x
      | None => Raise ValueError
      end
  | None => Ok 0
  end.

Definition default_rule : GradingRule :=
  {| rule_type := NO_PARTIAL;
     points_correct := 1;
     points_incorrect := 0;
     minimum_score := 0;
     notes := None |}.

Definition _extract_grading_rule (text : string) : result GradingRule :=
  match Re.search GRADING_NOTE text with
  | None => Ok default_rule
  | Some m =>
      let note := Py.lower (Re.group_text m 1) in
      if Py.contains "+1" note && Py.contains "-1" note
      then rbind (minimum_of note) (fun min_score =>
           Ok {| rule_type := PER_ITEM_PENALTY;
                 points_correct := 1;
                 points_incorrect := -1;
                 minimum_score := min_score;
                 notes := Some note |})
      else if Py.contains "partial" note
      then Ok {| rule_type := PARTIAL_CREDIT;
                 points_correct := 1;
                 points_incorrect := 0;
                 minimum_score := 0;
                 notes := Some note |}
      else Ok default_rule
  end.

End RubricParser.

(** ** grading/grading_engine.py

    The engine owns one comparator ([self.comparator = MathComparator()]).
    To speak about whether the comparator is invoked, the engine's methods
    run in a small monad that carries the outcome (a value or an exception)
    together with the log of the [compare] calls made on the way. *)

Module GradingEngine.

Record compare_call : Type := mkCall {
  call_student : option string;
  call_correct : string;
  call_type : QuestionType;
  call_forms : list string
}.

Definition Eng (A : Type) : Type := (result A * list compare_call)%type.

Definition ret {A : Type} (a : A) : Eng A := (Ok a, []).

Definition lift {A : Type} (r : result A) : Eng A := (r, []).

Definition bind {A B : Type} (m : Eng A) (f : A -> Eng B) : Eng B :=
  match m with
  | (Ok a, log1) => let (r, log2) := f a in (r, (log1 ++ log2)%list)
  | (Raise e, log1) => (Raise e, log1)
  end.

Notation "x <- m ;; f" := (bind m (fun x => f))
  (at level 100, m at next level, right associativity).

Definition outcome {A : Type} (m : Eng A) : result A := fst m.
Definition calls {A : Type} (m : Eng A) : list compare_call := snd m.

(** [str(x)] inside an f-string, for an optional string. *)
Definition format_opt (s : option string) : string :=
  match s with
  | None => "None"
  | Some t => t
  end.

Definition _apply_grading_rule (correct : bool) (rule : GradingRule)
    (max_points : Q) : Q :=
  match rule_type rule with
  | NO_PARTIAL => if correct then max_points else 0
  | PER_ITEM_PENALTY =>
      let points :=
        if correct then points_correct rule else points_incorrect rule in
      Py.max (minimum_score rule) points
  | PARTIAL_CREDIT => if correct then max_points else 0
  | _ => if correct then max_points else 0
  end.

Definition _generate_feedback (correct : bool) (student_answer : option string)
    (right_answer : string) (qt : QuestionType) : string :=
  if correct then "✓ Correct!"
  else "✗ Incorrect. Your answer: " ++ format_opt student_answer
       ++ ". Correct answer: " ++ right_answer.

Definition feedback_line (qg : QuestionGrade) : string :=
  "- Question " ++ qg_question_id qg ++ ": " ++ feedback qg
  ++ String "010" "".

Definition _generate_overall_feedback (qgs : list QuestionGrade) : string :=
  let incorrect := filter (fun qg => negb (is_correct qg)) qgs in
  match incorrect with
  | [] => "Excellent work! All answers are correct."
  | _ =>
      fold_left (fun fb qg => fb ++ feedback_line qg) incorrect
        ("Overall good effort. Areas for improvement:" ++ String "010" "")
  end.

Section WithSympy.

Context `{Sympy}.

(** [self.comparator.compare(...)], logged. *)
Definition comparator_compare (student_answer : option string)
    (right_answer : string) (qt : QuestionType) (forms : list string)
    : Eng (bool * Q) :=
  (Ok (MathComparator.compare student_answer right_answer qt forms),
   [mkCall student_answer right_answer qt forms]).

Definition _grade_question (sub_question : SubQuestion)
    (student_answer : option StudentAnswer) (rubric : Rubric)
    : Eng QuestionGrade :=
  let no_answer :=
    lift (new_QuestionGrade (sq_id sub_question) 0 (sq_points sub_question)
            false (Some "") (value (solution sub_question))
            "No answer provided." None) in
  match student_answer with
  | None => no_answer
  | Some answer =>
      if negb (Py.truthy (raw_text answer)) then no_answer
      else if Py.Qltb (confidence answer) 0.5
      then lift (new_QuestionGrade (sq_id sub_question) 0
                   (sq_points sub_question) false (Some (raw_text answer))
                   (value (solution sub_question))
                   "Could not reliably extract answer. Flagged for manual review."
                   (Some "Low confidence extraction"))
      else
        verdict <- comparator_compare (parsed_value answer)
                     (value (solution sub_question))
                     (question_type sub_question)
                     (equivalent_forms (solution sub_question)) ;;
        let (correct, conf) := verdict in
        let gnotes :=
          if Py.Qltb conf 0.7 then Some "Answer comparison uncertain"
          else None in
        let points :=
          _apply_grading_rule correct (grading_rule sub_question)
            (sq_points sub_question) in
        let fb :=
          _generate_feedback correct (parsed_value answer)
            (value (solution sub_question)) (question_type sub_question) in
        lift (new_QuestionGrade (sq_id sub_question) points
                (sq_points sub_question) correct (parsed_value answer)
                (value (solution sub_question)) fb gnotes)
  end.

(** The inner loop of [grade], over the sub-questions of one question; the
    state is [(question_grades, total_score)]. *)
Fixpoint grade_sub_questions (submission : Submission) (rubric : Rubric)
    (sqs : list SubQuestion) (st : list QuestionGrade * Q)
    : Eng (list QuestionGrade * Q) :=
  match sqs with
  | [] => ret st
  | sub_q :: rest =>
      g <- _grade_question sub_q (get_answer submission (sq_id sub_q)) rubric ;;
      grade_sub_questions submission rubric rest
        ((fst st ++ [g])%list, Py.fadd (snd st) (points_earned g))
  end.

(** The outer loop, over the questions. *)
Fixpoint grade_questions (submission : Submission) (rubric : Rubric)
    (qs : list Question) (st : list QuestionGrade * Q)
    : Eng (list QuestionGrade * Q) :=
  match qs with
  | [] => ret st
  | question :: rest =>
      st' <- grade_sub_questions submission rubric (sub_questions question) st ;;
      grade_questions submission rubric rest st'
  end.

Definition grade (submission : Submission) (rubric : Rubric)
    : Eng GradeResult :=
  st <- grade_questions submission rubric (questions rubric)
          ([], base_points rubric) ;;
  let (qgs, score) := st in
  let score := Py.max 0 score in
  ret (new_GradeResult
         (student_id submission)
         (assignment_id submission)
         (student_id submission ++ "_" ++ assignment_id submission)
         qgs
         score
         (total_points rubric)
         (if Py.Qltb 0 (total_points rubric)
          then Py.fmul (Py.fdiv score (total_points rubric)) 100
          else 0)
         (_generate_overall_feedback qgs)).

End WithSympy.

End GradingEngine.

(** ** A small SymPy

    An instance of the interface on the plain answers used in the examples
    below: unsigned decimal numbers, fractions of two unsigned integers with
    a denominator that is not zero, and single lower-case letters.  On
    those it answers as SymPy does: numbers are exact, a letter is a free
    symbol, and a free symbol has no [float] ([TypeError]). *)

Module MiniSympy.

Inductive mexpr : Type :=
| Num (q : Q)
| Sym (name : string).

Definition is_name (s : string) : bool :=
  match s with
  | String c EmptyString => Py.is_lower c
  | _ => false
  end.

(** Digits, optionally followed by a point and more digits. *)
Definition decimal (s : string) : option Q :=
  match Py.split_char "." s with
  | [whole] =>
      if Py.truthy whole then option_map inject_Z (Py.digits_value 0 whole)
      else None
  | [whole; frac] =>
      match Py.digits_value 0 whole, Py.digits_value 0 frac with
      | Some w, Some f =>
          if Py.truthy frac
          then Some (inject_Z w
                     + inject_Z f / inject_Z (10 ^ Z.of_nat (Py.len frac)))
          else None
      | _, _ => None
      end
  | _ => None
  end.

Definition fraction (num den : string) : result mexpr :=
  match Py.digits_value 0 num, Py.digits_value 0 den with
  | Some n, Some d =>
      if Py.truthy num && Py.truthy den && negb (d =? 0)%Z
      then Ok (Num (inject_Z n / inject_Z d))
      else Raise OtherException
  | _, _ => Raise OtherException
  end.

Definition parse (s : string) : result mexpr :=
  match decimal s with
  | Some q => Ok (Num q)
  | None =>
      if is_name s then Ok (Sym s)
      else match Py.split_char "/" s with
           | [num; den] => fraction num den
           | _ => Raise OtherException
           end
  end.

Definition parse_float (s : string) : result mexpr :=
  match decimal s with
  | Some q => Ok (Num q)
  | None => Raise ValueError
  end.

Definition same (a b : mexpr) : result bool :=
  match a, b with
  | Num x, Num y => Ok (Qeq_bool x y)
  | Sym x, Sym y => Ok (String.eqb x y)
  | _, _ => Ok false
  end.

Definition to_float (e : mexpr) : result Q :=
  match e with
  | Num q => Ok q
  | Sym _ => Raise TypeError
  end.

#[export] Instance backend : Sympy :=
  {| expr := mexpr;
     parse_expr := parse;
     parse_expr_n := parse;
     Rational := fraction;
     Float := parse_float;
     simplify_diff_is_zero := same;
     N_float := to_float;
     float_of_expr := to_float |}.

End MiniSympy.

(** ** What a match is

    The declarative reading of the patterns, against which the matcher is
    checked: [Matches r pos s cs pos' s' cs'] holds when [r] can consume the
    text between [s] (at offset [pos]) and its suffix [s'] (at [pos']),
    taking the captures from [cs] to [cs']. *)

Module ReSem.

Import Re.

Definition all_of (p : ascii -> bool) (w : string) : bool :=
  forallb p (list_ascii_of_string w).

Fixpoint Matches (r : regex) (pos : nat) (s : string) (cs : captures)
    (pos' : nat) (s' : string) (cs' : captures) : Prop :=
  match r with
  | Eps => pos' = pos /\ s' = s /\ cs' = cs
  | Chars p =>
      exists c, s = String c s' /\ p c = true /\ pos' = S pos /\ cs' = cs
  | Cat r1 r2 =>
      exists pos1 s1 cs1,
        Matches r1 pos s cs pos1 s1 cs1 /\ Matches r2 pos1 s1 cs1 pos' s' cs'
  | Or r1 r2 =>
      Matches r1 pos s cs pos' s' cs' \/ Matches r2 pos s cs pos' s' cs'
  | Many _ p =>
      exists w, s = w ++ s' /\ all_of p w = true
                /\ pos' = (pos + String.length w)%nat /\ cs' = cs
  | Grp n r1 =>
      exists cs1, Matches r1 pos s cs pos' s' cs1
                  /\ cs' = (n, substring 0 (pos' - pos) s) :: cs1
  | Ahead r1 =>
      (exists pos1 s1 cs1, Matches r1 pos s cs pos1 s1 cs1)
      /\ pos' = pos /\ s' = s /\ cs' = cs
  | Bos => pos = 0%nat /\ pos' = pos /\ s' = s /\ cs' = cs
  | Eos => (s = "" \/ s = String "010" "") /\ pos' = pos /\ s' = s /\ cs' = cs
  end.

End ReSem.

(** ** The statements of the specification

    Definitions that follow the words of the specification rather than the
    code, to be compared with the code. *)

Module Spec.

(** "Total score starts at the key's base points, adds every
    sub-question's earned points": one float addition per grade, in the
    order of the grades. *)
Definition accumulated (base : Q) (qgs : list QuestionGrade) : Q :=
  fold_left (fun total qg => Py.fadd total (points_earned qg)) qgs base.

(** "Percentage = 100 x total_score / total_possible", evaluated from left
    to right. *)
Definition stated_percentage (total possible : Q) : Q :=
  Py.fdiv (Py.fmul 100 total) possible.

(** The clamp to an interval. *)
Definition clamp (lo hi x : Q) : Q := Qmax lo (Qmin hi x).

(** "subtracting [x] if ..." *)
Definition deduct (condition : bool) (x : Q) : Q :=
  if condition then x else 0.

(** The number of lines a payload spans. *)
Definition line_count (payload : string) : nat :=
  S (Py.count_char SubmissionParser.newline payload).

(** The four subtractions, one after the other, in floating point. *)
Definition deductions (long question lines short : bool) : Q :=
  Py.fsub
    (Py.fsub
       (Py.fsub (Py.fsub 1 (deduct long (Py.float_lit 0.2)))
                (deduct question (Py.float_lit 0.3)))
       (deduct lines (Py.float_lit 0.2)))
    (deduct short (Py.float_lit 0.3)).

(** The confidence score as the specification words it: start at 1.0,
    subtract 0.2 if the payload is longer than 200 characters, 0.3 if it
    contains a question mark, 0.2 if it spans more than two lines, 0.3 if it
    is shorter than 2 characters; clamp to [0,1]. *)
Definition stated_confidence (payload : string) : Q :=
  clamp 0 1
    (deductions (200 <? Py.len payload)%nat
                (Py.contains "?" payload)
                (2 <? line_count payload)%nat
                (Py.len payload <? 2)%nat).

(** The same with the third test on the number of line breaks, as the code
    has it. *)
Definition confidence_by_breaks (payload : string) : Q :=
  clamp 0 1
    (deductions (200 <? Py.len payload)%nat
                (Py.contains "?" payload)
                (2 <? Py.count_char SubmissionParser.newline payload)%nat
                (Py.len payload <? 2)%nat).

(** The score of a payload that is not empty as Python prints it, by the
    outcome of the four tests (longer than 200 characters, a question mark,
    more than two line breaks, shorter than 2 characters). *)
Definition printed_confidence (long question breaks short : bool) : Q :=
  match long, question, breaks, short with
  | false, false, false, false => 1
  | false, false, false, true => 0.7
  | false, false, true, false => 0.8
  | false, false, true, true => 0.5
  | false, true, false, false => 0.7
  | false, true, false, true => 0.39999999999999997
  | false, true, true, false => 0.49999999999999994
  | false, true, true, true => 0.19999999999999996
  | true, false, false, false => 0.8
  | true, false, false, true => 0.5
  | true, false, true, false => 0.6000000000000001
  | true, false, true, true => 0.3000000000000001
  | true, true, false, false => 0.5
  | true, true, false, true => 0.2
  | true, true, true, false => 0.3
  | true, true, true, true => 0
  end.

(** An answer the engine hands to the comparator: it has raw text and its
    extraction confidence is not below 0.5. *)
Definition auto_graded (a : StudentAnswer) : bool :=
  Py.truthy (raw_text a) && negb (Py.Qltb (confidence a) 0.5).

(** Every answer of the submission that goes to the comparator has a
    parsed value. *)
Definition parsed_when_graded (sub : Submission) : Prop :=
  forall a, In a (answers sub) -> auto_graded a = true ->
            parsed_value a <> None.

(** What [get_answer] returned goes to the comparator and has no parsed
    value. *)
Definition unparsed (a : option StudentAnswer) : bool :=
  match a with
  | Some x =>
      auto_graded x
      && match parsed_value x with None => true | Some _ => false end
  | None => false
  end.

(** Grading the submission comes upon such an answer: for some
    sub-question of the key, the first answer recorded for its id is
    one. *)
Definition meets_unparsed (sub : Submission) (rubric : Rubric) : bool :=
  existsb (fun sq => unparsed (get_answer sub (sq_id sq)))
          (flat_map sub_questions (questions rubric)).

Section Numeric.

Context `{Sympy}.



(** The probability comparison as the specification words it: strip the
    trailing percent signs; when the correct answer carried one, scale the
    student's value by 100 and compare within 1e-6, (true, 0.95) on a
    match; otherwise the numeric path. *)
Definition stated_probability (student correct : string) : bool * Q :=
  let student' := Py.rstrip_chars "%" student in
  let correct' := Py.rstrip_chars "%" correct in
  let scaled_match :=
    if negb (String.eqb correct' correct)
    then match MathComparator.float_of_parsed student',
               MathComparator.float_of_parsed correct' with
         | Ok student_val, Ok correct_val =>
             if Qlt_le_dec (Qabs (student_val * 100 - correct_val))
                           MathComparator.FLOAT_TOLERANCE
             then true else false
         | _, _ => false
         end
    else false in
  if scaled_match then (true, 0.95)
  else MathComparator._compare_numeric student' correct'.

End Numeric.

End Spec.

(** ** Sample keys and submissions *)

Module Examples.

Definition all_or_nothing : GradingRule := RubricParser.default_rule.

Definition sub_question (qid answer : string) (qt : QuestionType)
    : SubQuestion :=
  {| sq_id := qid;
     sq_text := "";
     sq_points := 5;
     grading_rule := all_or_nothing;
     solution := {| value := answer; equivalent_forms := [];
                    explanation := None |};
     question_type := qt |}.

(** The key of the end-to-end scenario: [1a] (true/false, 5 points,
    "True") and [2a] (numeric, 5 points, "0.25"), 18 base points. *)
Definition key : Rubric :=
  {| rubric_assignment_id := "HW10";
     course := "CSCI-C241";
     total_points := 28;
     base_points := 18;
     questions :=
       [ {| q_number := 1; q_text := "";
            sub_questions := [sub_question "1a" "True" TRUE_FALSE];
            q_total_points := 5; q_context := None |};
         {| q_number := 2; q_text := "";
            sub_questions := [sub_question "2a" "0.25" NUMERIC];
            q_total_points := 5; q_context := None |} ];
     general_notes := None |}.

Definition answer (qid raw : string) (parsed : option string) (conf : Q)
    : StudentAnswer :=
  {| question_id := qid; raw_text := raw; parsed_value := parsed;
     confidence := conf; parsing_notes := None |}.

Definition submission_of (l : list StudentAnswer) : Submission :=
  {| student_id := "student_001"; student_name := None;
     assignment_id := "HW10"; file_path := "student_001.pdf";
     answers := l |}.

(** Both answers right, in other words than the key's. *)
Definition good : Submission :=
  submission_of [ answer "1a" "true" (Some "true") 0.95;
                  answer "2a" "1/4" (Some "1/4") 0.95 ].

(** The first answer was extracted with confidence 0.4. *)
Definition doubtful : Submission :=
  submission_of [ answer "1a" "True or false?" (Some "True or false?") 0.4;
                  answer "2a" "1/4" (Some "1/4") 0.95 ].

(** The first answer carries no parsed value (the field's default). *)
Definition unparsed : Submission :=
  submission_of [ answer "1a" "true" None 1;
                  answer "2a" "1/4" (Some "1/4") 0.95 ].

(** A sub-question's note in the key, as in the repository's tests. *)
Definition penalty_note : string :=
  "Grading: +1 correct, -1 incorrect, minimum 0".

(** Two markers for [1a], the second in upper case. *)
Definition answered_twice : string :=
  "1a) True" ++ String "010" "1A. no?" ++ String "010" "2. 42".

(** A payload on three lines. *)
Definition three_lines : string :=
  "x = 2" ++ String "010" "y = 3" ++ String "010" "so 5".

(** A payload with a question mark and three line breaks. *)
Definition asked_on_four_lines : string :=
  "is it 5?" ++ String "010" "x = 2" ++ String "010" "y = 3"
  ++ String "010" "so 5".

(** Two markers for [1a]; the payload of the second runs over two lines,
    the first of them with spaces at its end. *)
Definition answered_at_length : string :=
  "1a) True" ++ String "010" "1A. no?  " ++ String "010" "it fails"
  ++ String "010" "2. 42".

(** [unparsed] with a parsed answer to [1a] put first, and an unparsed
    answer to a question the key does not have: the unparsed answers are
    never looked up. *)
Definition unparsed_unread : Submission :=
  submission_of [ answer "1a" "true" (Some "true") 0.95;
                  answer "1a" "true" None 1;
                  answer "9z" "42" None 1;
                  answer "2a" "1/4" (Some "1/4") 0.95 ].

End Examples.

(** ** models/grade_result.py: the helper methods *)

Module Results.

(** [QuestionGrade.percentage] *)
Definition question_percentage (self : QuestionGrade) : Q :=
  if Qeq_bool (points_possible self) 0 then 0
  else (points_earned self / points_possible self) * 100.

(** [GradeResult.passed]; the default of [passing_percentage] is 60.0. *)
Definition passed (self : GradeResult) (passing_percentage : Q) : bool :=
  Qle_bool passing_percentage (percentage self).

Definition incorrect_questions (self : GradeResult) : list QuestionGrade :=
  filter (fun qg => negb (is_correct qg)) (question_grades self).

Definition correct_questions (self : GradeResult) : list QuestionGrade :=
  filter (fun qg => is_correct qg) (question_grades self).

(** [len(l)] as a number. *)
Definition count {A : Type} (l : list A) : Q :=
  inject_Z (Z.of_nat (length l)).

Definition accuracy (self : GradeResult) : Q :=
  match question_grades self with
  | [] => 0
  | _ =>
      let correct_count := count (correct_questions self) in
      let total_count := count (question_grades self) in
      (correct_count / total_count) * 100
  end.

End Results.

(** ** models/submission.py: the helper methods and the validator *)

Module Submissions.

Definition has_answer (self : Submission) (qid : string) : bool :=
  match get_answer self qid with
  | Some _ => true
  | None => false
  end.

(** [get_low_confidence_answers]; the default of [threshold] is 0.8. *)
Definition get_low_confidence_answers (self : Submission) (threshold : Q)
    : list StudentAnswer :=
  filter (fun answer => Py.Qltb (confidence answer) threshold) (answers self).

Definition answer_count (self : Submission) : nat := length (answers self).

(** The field validator [student_id_not_empty]: the [ValueError] it raises
    reaches the caller as pydantic's validation error; otherwise the id is
    stored stripped. *)
Definition student_id_not_empty (v : string) : result string :=
  if negb (Py.truthy v) || negb (Py.truthy (Py.strip v))
  then Raise ValidationError
  else Ok (Py.strip v).

(** The constructor call [Submission(...)] as the parser makes it. *)
Definition new_Submission (sid aid path : string)
    (l : list StudentAnswer) : result Submission :=
  rbind (student_id_not_empty sid) (fun sid' =>
  Ok {| student_id := sid'; student_name := None; assignment_id := aid;
        file_path := path; answers := l |}).

End Submissions.

(** ** parsers/submission_parser.py: student ids, [parse], [parse_batch] *)

Module SubmissionFiles.

(** [\w] on ASCII: letters, digits and the underscore. *)
Definition is_word (c : ascii) : bool :=
  Py.is_lower c || Py.is_upper c || Py.is_digit c || Ascii.eqb c "_".

(** The patterns of [_extract_student_id], each searched with
    [re.IGNORECASE]:
    [student[_\-]?(\w+)], [submission[_\-]?(\w+)], [(\d{3,})],
    [[_\-](\w+)$]. *)
Definition STUDENT : Re.regex :=
  Re.cat [ Re.ilit "student"; Re.opt (Re.Chars (Py.one_of "_-"));
           Re.Grp 1 (Re.plus true is_word) ].

Definition SUBMISSION : Re.regex :=
  Re.cat [ Re.ilit "submission"; Re.opt (Re.Chars (Py.one_of "_-"));
           Re.Grp 1 (Re.plus true is_word) ].

Definition THREE_DIGITS : Re.regex :=
  Re.Grp 1 (Re.cat [ Re.Chars Py.is_digit; Re.Chars Py.is_digit;
                     Re.Chars Py.is_digit; Re.Many true Py.is_digit ]).

Definition LAST_PART : Re.regex :=
  Re.cat [ Re.Chars (Py.one_of "_-"); Re.Grp 1 (Re.plus true is_word);
           Re.Eos ].

Definition patterns : list Re.regex :=
  [STUDENT; SUBMISSION; THREE_DIGITS; LAST_PART].

(** The loop over the patterns: the first that matches decides. *)
Fixpoint first_group (ps : list Re.regex) (filename : string)
    : option string :=
  match ps with
  | [] => None
  | p :: ps' =>
      match Re.search p filename with
      | Some m => Some (Re.group_text m 1)
      | None => first_group ps' filename
      end
  end.

Definition _extract_student_id (filename : string) : string :=
  match first_group patterns filename with
  | Some sid => sid
  | None => filename
  end.

(** A PDF file as [parse] sees it: its path as a string, the stem of its
    name ([Path.stem]), and what reading it gives: [None] when the path
    does not exist, else the text of [_extract_pdf_text] or the exception
    the reader raises. *)
Record document : Type := mkDocument {
  doc_path : string;
  doc_stem : string;
  doc_read : option (result string)
}.

(** [parse]; [FileNotFoundError] is reported as [OtherException]. *)
Definition parse (pdf : document) (rubric : Rubric)
    (student : option string) : result Submission :=
  match doc_read pdf with
  | None => Raise OtherException
  | Some read =>
      let sid :=
        match student with
        | Some s => if Py.truthy s then s else _extract_student_id (doc_stem pdf)
        | None => _extract_student_id (doc_stem pdf)
        end in
      rbind read (fun raw_text =>
      let expected_questions :=
        SubmissionParser._get_expected_questions rubric in
      let l := SubmissionParser._extract_answers raw_text expected_questions in
      Submissions.new_Submission sid (rubric_assignment_id rubric)
        (doc_path pdf) l)
  end.

(** [parse_batch], over the PDF files the directory listing gives: a file
    whose [parse] raises is reported and left out. *)
Fixpoint parse_batch_loop (pdf_files : list document) (rubric : Rubric)
    (submissions : list Submission) : list Submission :=
  match pdf_files with
  | [] => submissions
  | pdf :: rest =>
      match parse pdf rubric None with
      | Ok submission =>
          parse_batch_loop rest rubric (submissions ++ [submission])%list
      | Raise _ => parse_batch_loop rest rubric submissions
      end
  end.

Definition parse_batch (pdf_files : list document) (rubric : Rubric)
    : list Submission :=
  parse_batch_loop pdf_files rubric [].

End SubmissionFiles.

(** ** grading/grading_engine.py: [grade_batch] *)

Module Batch.

Import GradingEngine.

Section WithSympy.

Context `{Sympy}.

(** The loop of [grade_batch]: an exception of [grade] is not caught. *)
Fixpoint grade_batch_loop (submissions : list Submission) (rubric : Rubric)
    (results : list GradeResult) : Eng (list GradeResult) :=
  match submissions with
  | [] => ret results
  | submission :: rest =>
      r <- grade submission rubric ;;
      grade_batch_loop rest rubric (results ++ [r])%list
  end.

Definition grade_batch (submissions : list Submission) (rubric : Rubric)
    : Eng (list GradeResult) :=
  grade_batch_loop submissions rubric [].

End WithSympy.

End Batch.

(** ** The comparisons a run of [grade] is expected to ask for

    One call per sub-question of the key whose answer (the first with its
    id) has raw text and an extraction confidence of at least 0.5, in key
    order. *)

Module Expected.

Import GradingEngine.

Definition call_of (sub : Submission) (sq : SubQuestion)
    : list compare_call :=
  match get_answer sub (sq_id sq) with
  | Some a =>
      if Spec.auto_graded a
      then [mkCall (parsed_value a) (value (solution sq))
                   (question_type sq) (equivalent_forms (solution sq))]
      else []
  | None => []
  end.

Definition expected_calls (sub : Submission) (rubric : Rubric)
    : list compare_call :=
  flat_map (call_of sub) (flat_map sub_questions (questions rubric)).

End Expected.

(** ** parsers/rubric_parser.py: the header and the question blocks *)

Module RubricHeader.

(** [(?:HW|Homework|Assignment)\s*#?\s*(\d+)], with [re.IGNORECASE] *)
Definition ASSIGNMENT : Re.regex :=
  Re.cat [ Re.Or (Re.ilit "HW") (Re.Or (Re.ilit "Homework")
                                       (Re.ilit "Assignment"));
           Re.Many true Py.is_space; Re.opt (Re.ichr "#");
           Re.Many true Py.is_space; Re.Grp 1 (Re.plus true Py.is_digit) ].

Definition _extract_assignment_id (text : string) : string :=
  match Re.search ASSIGNMENT text with
  | Some m => "HW" ++ Re.group_text m 1
  | None => "Unknown"
  end.

(** [Give\s+(\d+)\s+points?\s+for\s+complet], with [re.IGNORECASE] *)
Definition COMPLETION : Re.regex :=
  Re.cat [ Re.ilit "Give"; Re.plus true Py.is_space;
           Re.Grp 1 (Re.plus true Py.is_digit); Re.plus true Py.is_space;
           Re.ilit "point"; Re.opt (Re.ichr "s"); Re.plus true Py.is_space;
           Re.ilit "for"; Re.plus true Py.is_space; Re.ilit "complet" ].

Definition _extract_base_points (text : string) : result Q :=
  match Re.search COMPLETION text with
  | Some m =>
      match Py.float_of_digits (Re.group_text m 1) with
      | Some x => Ok x
      | None => Raise ValueError
      end
  | None => Ok 0
  end.

(** [PATTERNS["question"]], used with [re.IGNORECASE]:
    [(?:^|\n)\s*(?:Problem|Question|Q)?\s*(\d+)\.\s+] *)
Definition QUESTION : Re.regex :=
  Re.cat [ Re.Or Re.Bos (Re.chr "010"); Re.Many true Py.is_space;
           Re.opt (Re.Or (Re.ilit "Problem") (Re.Or (Re.ilit "Question")
                                                   (Re.ilit "Q")));
           Re.Many true Py.is_space; Re.Grp 1 (Re.plus true Py.is_digit);
           Re.chr "."; Re.plus true Py.is_space ].

(** [int(s)] on a run of digits; [None] stands for [ValueError], which
    CPython (3.11 and later, with its default settings) also raises for a
    run of more than 4300 digits. *)
Definition int_of_digits (s : string) : option Z :=
  match s with
  | EmptyString => None
  | _ => if (4300 <? String.length s)%nat then None
         else Py.digits_value 0 s
  end.

(** [text[start:stop]] for [start <= stop]. *)
Definition slice (text : string) (start stop : nat) : string :=
  substring start (stop - start) text.

(** The loop of [_split_into_questions] over the matches still to come:
    a block runs from the start of its marker to the start of the next
    marker, or to the end of the text. *)
Fixpoint blocks_from (text : string) (matches : list Re.rmatch)
    : result (list (Z * string)) :=
  match matches with
  | [] => Ok []
  | m :: rest =>
      match int_of_digits (Re.group_text m 1) with
      | None => Raise ValueError
      | Some q_num =>
          let start := Re.m_start m in
          let stop :=
            match rest with
            | next :: _ => Re.m_start next
            | [] => Py.len text
            end in
          rbind (blocks_from text rest) (fun blocks =>
          Ok ((q_num, slice text start stop) :: blocks))
      end
  end.

Definition question_matches (text : string) : list Re.rmatch :=
  Re.finditer QUESTION text.

Definition _split_into_questions (text : string)
    : result (list (Z * string)) :=
  blocks_from text (question_matches text).

End RubricHeader.

(** ** Shapes of strings

    Predicates used to state what the string operations guarantee. *)

Module Shape.

(** A string that does not start, or does not end, with a character of
    the class [p]. *)
Definition starts_clean (p : ascii -> bool) (s : string) : bool :=
  match s with
  | EmptyString => true
  | String c _ => negb (p c)
  end.

Fixpoint ends_clean (p : ascii -> bool) (s : string) : bool :=
  match s with
  | EmptyString => true
  | String c EmptyString => negb (p c)
  | String _ s' => ends_clean p s'
  end.

(** No white space is followed by white space, and the only white space
    is the space character. *)
Fixpoint collapsed (s : string) : bool :=
  match s with
  | EmptyString => true
  | String c s' =>
      (if Py.is_space c
       then Ascii.eqb c " " && starts_clean Py.is_space s'
       else true)
      && collapsed s'
  end.

(** A pattern without capture groups. *)
Fixpoint group_free (r : Re.regex) : bool :=
  match r with
  | Re.Cat r1 r2 | Re.Or r1 r2 => group_free r1 && group_free r2
  | Re.Grp _ _ => false
  | _ => true
  end.

(** The confidence levels the comparator uses: with a positive verdict,
    and with a negative one. *)
Definition confidence_levels (verdict : bool * Q) : Prop :=
  if fst verdict
  then snd verdict = 1 \/ snd verdict = 0.95
  else In (snd verdict) [1; 0.9; 0.8; 0.5; 0.3].

End Shape.


(** ** More sample data *)

Module Samples.

(** A submission file whose text answers both questions of the sample
    key. *)
Definition student_doc : SubmissionFiles.document :=
  {| SubmissionFiles.doc_path := "submissions/student_001.pdf";
     SubmissionFiles.doc_stem := "student_001";
     SubmissionFiles.doc_read :=
       Some (Ok ("1a) True" ++ String "010" "2a) 1/4")) |}.

(** Its second question is left open. *)
Definition partial_doc : SubmissionFiles.document :=
  {| SubmissionFiles.doc_path := "submissions/jane_doe_12345.pdf";
     SubmissionFiles.doc_stem := "jane_doe_12345";
     SubmissionFiles.doc_read := Some (Ok "1a) False") |}.

(** A path that does not exist. *)
Definition missing_doc : SubmissionFiles.document :=
  {| SubmissionFiles.doc_path := "submissions/student_002.pdf";
     SubmissionFiles.doc_stem := "student_002";
     SubmissionFiles.doc_read := None |}.

(** [Examples.good] with a second answer to [1a] and an answer to a
    question the key does not have. *)
Definition with_extras : Submission :=
  Examples.submission_of
    [ Examples.answer "1a" "true" (Some "true") 0.95;
      Examples.answer "2a" "1/4" (Some "1/4") 0.95;
      Examples.answer "1a" "false" (Some "false") 1;
      Examples.answer "9z" "42" (Some "42") 1 ].

Definition right_grade : QuestionGrade :=
  {| qg_question_id := "1a"; points_earned := 5; points_possible := 5;
     qg_student_answer := "true"; correct_answer := "True";
     is_correct := true; feedback := "✓ Correct!";
     grading_notes := None |}.

(** A result with one grade, correct, and 23 of 28 points. *)
Definition one_right : GradeResult :=
  new_GradeResult "student_001" "HW10" "student_001_HW10" [right_grade]
    23 28 (23 / 28 * 100) "Excellent work! All answers are correct.".

(** The head of an answer key with two question blocks. *)
Definition key_text : string :=
  "Homework #10" ++ String "010"
    ("Give 18 points for completing the assignment." ++ String "010"
       ("1. Cards" ++ String "010" "Q2. Dice")).

End Samples.
(** * Properties *)

(** ** Numbers and strings *)

Section PythonFacts.

Lemma Qltb_lt (x y : Q) : Py.Qltb x y = true <-> x < y.
Proof.
  unfold Py.Qltb. rewrite negb_true_iff. split.
  - intros Hb. apply Qnot_le_lt. intros Hle.
    apply Qle_bool_iff in Hle. congruence.
  - intros Hlt. destruct (Qle_bool y x) eqn:Hb; [|reflexivity].
    apply Qle_bool_iff in Hb. exfalso. exact (Qlt_not_le _ _ Hlt Hb).
Qed.

Lemma Qltb_ge (x y : Q) : Py.Qltb x y = false <-> y <= x.
Proof.
  unfold Py.Qltb. rewrite negb_false_iff. apply Qle_bool_iff.
Qed.

(** Python's two-argument [max] and [min] are the mathematical ones. *)
Lemma py_max_Qmax (a b : Q) : Py.max a b == Qmax a b.
Proof.
  unfold Py.max. destruct (Py.Qltb a b) eqn:Hb.
  - apply Qltb_lt in Hb. symmetry. apply Q.max_r. now apply Qlt_le_weak.
  - apply Qltb_ge in Hb. symmetry. now apply Q.max_l.
Qed.

Lemma py_min_Qmin (a b : Q) : Py.min a b == Qmin a b.
Proof.
  unfold Py.min. destruct (Py.Qltb b a) eqn:Hb.
  - apply Qltb_lt in Hb. symmetry. apply Q.min_r. now apply Qlt_le_weak.
  - apply Qltb_ge in Hb. symmetry. now apply Q.min_l.
Qed.

Lemma clamp_range (x : Q) : 0 <= Spec.clamp 0 1 x <= 1.
Proof.
  unfold Spec.clamp. split.
  - apply Q.le_max_l.
  - apply Q.max_lub; [discriminate | apply Q.le_min_l].
Qed.

Lemma truthy_nonempty (s : string) : Py.truthy s = true <-> s <> "".
Proof. destruct s; simpl; split; congruence. Qed.

Lemma length_append (a b : string) :
  String.length (a ++ b) = (String.length a + String.length b)%nat.
Proof.
  induction a as [|c a IH]; [reflexivity|].
  change (String c a ++ b) with (String c (a ++ b)). simpl. now rewrite IH.
Qed.

Lemma append_assoc (a b c : string) : (a ++ b) ++ c = a ++ (b ++ c).
Proof.
  induction a as [|x a IH]; [reflexivity|].
  change ((String x a ++ b) ++ c) with (String x ((a ++ b) ++ c)).
  now rewrite IH.
Qed.

Lemma substring_prefix (w s : string) :
  substring 0 (String.length w) (w ++ s) = w.
Proof.
  induction w as [|c w IH]; simpl.
  - destruct s; reflexivity.
  - now rewrite IH.
Qed.

(** Stripping leaves nothing exactly when every character is stripped. *)
Lemma lstrip_empty (p : ascii -> bool) (s : string) :
  Py.lstrip_of p s = "" <-> ReSem.all_of p s = true.
Proof.
  unfold ReSem.all_of. induction s as [|c s IH]; simpl.
  - tauto.
  - destruct (p c); simpl; [exact IH|]. split; discriminate.
Qed.

Lemma rstrip_empty (p : ascii -> bool) (s : string) :
  Py.rstrip_of p s = "" <-> ReSem.all_of p s = true.
Proof.
  unfold ReSem.all_of. induction s as [|c s IH]; simpl.
  - tauto.
  - destruct (Py.rstrip_of p s) eqn:Hr.
    + destruct (p c); simpl.
      * split; [intros _; now apply IH | reflexivity].
      * split; discriminate.
    + split; [discriminate|]. intros Hall.
      apply andb_true_iff in Hall as [_ Hall]. apply IH in Hall.
      discriminate.
Qed.

Lemma lstrip_all (p : ascii -> bool) (s : string) :
  ReSem.all_of p (Py.lstrip_of p s) = ReSem.all_of p s.
Proof.
  unfold ReSem.all_of. induction s as [|c s IH]; simpl; [reflexivity|].
  destruct (p c) eqn:Hc; simpl; [exact IH | now rewrite Hc].
Qed.

Lemma lower_empty (s : string) : Py.lower s = "" <-> s = "".
Proof. destruct s; simpl; split; congruence. Qed.

Lemma collapse_ws_empty (s : string) : Py.collapse_ws s = "" <-> s = "".
Proof.
  split; [|intros ->; reflexivity].
  induction s as [|c s IH]; simpl; [reflexivity|].
  destruct (Py.is_space c); [|discriminate].
  destruct s as [|d s]; [discriminate|].
  destruct (Py.is_space d); [|discriminate].
  intros Hc. apply IH in Hc. discriminate.
Qed.

(** A string without the character [d] does not start with it. *)
Lemma contains_cons_false (c d : ascii) (s : string) :
  Py.contains (String d "") (String c s) = false ->
  Ascii.eqb d c = false /\ Py.contains (String d "") s = false.
Proof.
  simpl. destruct (Ascii.ascii_dec d c) as [->|Hne].
  - destruct s; discriminate.
  - intros Hc. split; [now apply Ascii.eqb_neq | exact Hc].
Qed.

(** [(body + d).rstrip(d)] is [body] when [d] does not occur in [body]. *)
Lemma rstrip_suffix (d : ascii) (body : string) :
  Py.contains (String d "") body = false ->
  Py.rstrip_chars (String d "") (body ++ String d "") = body.
Proof.
  unfold Py.rstrip_chars.
  induction body as [|c b IH]; intros Hno.
  - simpl. unfold Py.one_of. simpl. now rewrite Ascii.eqb_refl.
  - apply contains_cons_false in Hno as [Hc Hb].
    change (Py.rstrip_of (Py.one_of (String d ""))
              (String c (b ++ String d "")) = String c b).
    simpl. rewrite (IH Hb).
    destruct b; [|reflexivity].
    unfold Py.one_of. simpl. rewrite Ascii.eqb_sym, Hc. reflexivity.
Qed.

(** [float] of a run of digits is a number that is not negative. *)
Lemma digits_value_nonneg (w : string) :
  ReSem.all_of Py.is_digit w = true ->
  forall acc, (0 <= acc)%Z ->
  exists z, (0 <= z)%Z /\ Py.digits_value acc w = Some z.
Proof.
  unfold ReSem.all_of.
  induction w as [|c w IH]; simpl; intros Hw acc Hacc.
  - eauto.
  - apply andb_true_iff in Hw as [Hc Hw]. rewrite Hc.
    apply IH; [exact Hw | lia].
Qed.

Lemma nearest_even_nonneg (num den : Z) :
  (0 <= num)%Z -> (0 < den)%Z -> (0 <= Py.nearest_even num den)%Z.
Proof.
  intros Hn Hd. unfold Py.nearest_even.
  pose proof (Z.div_pos num den Hn Hd) as Hq.
  destruct (2 * (num mod den) <? den)%Z; [exact Hq|].
  destruct (den <? 2 * (num mod den))%Z; [lia|].
  destruct (Z.even (num / den)); lia.
Qed.

Lemma pow2_pos (e : Z) : 0 < Py.pow2 e.
Proof.
  unfold Py.pow2. destruct (0 <=? e)%Z eqn:He.
  - apply Z.leb_le in He. unfold Qlt. simpl.
    pose proof (Z.pow_pos_nonneg 2 e ltac:(lia) He). lia.
  - apply Z.leb_gt in He. apply Qinv_lt_0_compat. unfold Qlt. simpl.
    pose proof (Z.pow_pos_nonneg 2 (- e) ltac:(lia) ltac:(lia)). lia.
Qed.

(** Rounding keeps the sign. *)
Lemma round64_nonneg (x : Q) : 0 <= x -> 0 <= Py.round64 x.
Proof.
  intros Hx. unfold Py.round64.
  destruct (Qnum x =? 0)%Z eqn:Hz; [apply Qle_refl|].
  apply Z.eqb_neq in Hz.
  assert (Hpos : (0 < Qnum x)%Z).
  { unfold Qle in Hx. simpl in Hx. lia. }
  rewrite Qred_correct. apply Qmult_le_0_compat.
  - rewrite (Z.sgn_pos _ Hpos), Z.mul_1_l.
    assert (Hm : forall e,
              (0 <= (let (a, b) := Py.scaled (Z.abs (Qnum x))
                                     (Z.pos (Qden x)) e in
                     Py.nearest_even a b))%Z).
    { intros e. unfold Py.scaled. destruct (0 <=? e)%Z eqn:He.
      - apply Z.leb_le in He. apply nearest_even_nonneg; [lia|].
        pose proof (Z.pow_pos_nonneg 2 e ltac:(lia) He). lia.
      - apply Z.leb_gt in He. apply nearest_even_nonneg; [|lia].
        pose proof (Z.pow_pos_nonneg 2 (- e) ltac:(lia) ltac:(lia)). lia. }
    change 0 with (inject_Z 0). rewrite <- Zle_Qle. apply Hm.
  - apply Qlt_le_weak, pow2_pos.
Qed.

(** A whole number below 2^53 is a float. *)
Lemma round64_whole (z : Z) :
  (0 <= z < 2 ^ 53)%Z -> Py.round64 (inject_Z z) == inject_Z z.
Proof.
  intros [Hlo Hhi]. unfold Py.round64. cbn [Qnum Qden inject_Z].
  destruct (z =? 0)%Z eqn:Hz.
  { apply Z.eqb_eq in Hz. subst z. reflexivity. }
  apply Z.eqb_neq in Hz. assert (Hpos : (0 < z)%Z) by lia.
  rewrite Qred_correct, (Z.sgn_pos _ Hpos), Z.mul_1_l, (Z.abs_eq z Hlo).
  change (Z.log2 1) with 0%Z. rewrite Z.sub_0_r.
  pose proof (Z.log2_nonneg z) as Hl0.
  pose proof (Z.log2_spec z Hpos) as [Hl1 Hl2].
  assert (Hl : (Z.log2 z < 53)%Z).
  { apply Z.log2_lt_pow2; [exact Hpos | exact Hhi]. }
  assert (Hlg : (let (a, b) := Py.scaled z 1 (Z.log2 z) in
                 if (a <? b)%Z then (Z.log2 z - 1)%Z else Z.log2 z)
                = Z.log2 z).
  { unfold Py.scaled. rewrite (proj2 (Z.leb_le _ _) Hl0), Z.mul_1_l.
    destruct (z <? 2 ^ Z.log2 z)%Z eqn:Hc; [|reflexivity].
    apply Z.ltb_lt in Hc. lia. }
  rewrite Hlg, Z.max_l by lia.
  set (e := (Z.log2 z - 52)%Z).
  assert (He : (e <= 0)%Z) by (unfold e; lia).
  assert (Hone : forall k, Py.nearest_even k 1 = k).
  { intros k. unfold Py.nearest_even. rewrite Z.div_1_r, Z.mod_1_r.
    reflexivity. }
  unfold Py.scaled, Py.pow2.
  destruct (0 <=? e)%Z eqn:He0.
  - apply Z.leb_le in He0. replace e with 0%Z by lia.
    change (1 * 2 ^ 0)%Z with 1%Z. rewrite Hone.
    change (inject_Z (2 ^ 0)) with 1. ring.
  - apply Z.leb_gt in He0.
    pose proof (Z.pow_pos_nonneg 2 (- e) ltac:(lia) ltac:(lia)) as Hp.
    rewrite Hone, inject_Z_mult. field.
    intros Hzero. change 0 with (inject_Z 0) in Hzero.
    apply (proj1 (inject_Z_injective _ _)) in Hzero. lia.
Qed.

(** A run of [n] digits denotes a number below [10^n]. *)
Lemma digits_value_bound (w : string) :
  forall acc z,
    (0 <= acc)%Z -> Py.digits_value acc w = Some z ->
    (z < (acc + 1) * 10 ^ Z.of_nat (String.length w))%Z.
Proof.
  induction w as [|c w IH]; intros acc z Hacc Hv; simpl in Hv.
  - injection Hv as <-. simpl. lia.
  - destruct (Py.is_digit c) eqn:Hc; [|discriminate].
    assert (Hd : (Z.of_nat (nat_of_ascii c - 48) <= 9)%Z).
    { unfold Py.is_digit in Hc. apply andb_true_iff in Hc as [_ Hc].
      apply Nat.leb_le in Hc. lia. }
    apply IH in Hv; [|lia].
    cbn [String.length]. rewrite Nat2Z.inj_succ, Z.pow_succ_r by lia.
    pose proof (Z.pow_pos_nonneg 10 (Z.of_nat (String.length w))
                  ltac:(lia) ltac:(lia)) as Hp.
    nia.
Qed.

End PythonFacts.

(** ** The matcher finds matches only

    Whatever [run] hands to its continuation is a match in the sense of
    [ReSem.Matches]; so are the results of [search]. *)

Section MatcherSound.

Import Re ReSem.

Lemma many_greedy_sound {R : Type} (p : ascii -> bool) (pos : nat)
    (s : string) (k : nat -> string -> option R) (x : R) :
  many_greedy p pos s k = Some x ->
  exists w s', s = w ++ s' /\ all_of p w = true
               /\ k (pos + String.length w)%nat s' = Some x.
Proof.
  revert pos. induction s as [|c s IH]; intros pos Hrun; simpl in Hrun.
  - exists "", "". rewrite Nat.add_0_r. auto.
  - destruct (p c) eqn:Hc.
    + destruct (many_greedy p (S pos) s k) eqn:Hrec.
      * injection Hrun as <-. destruct (IH _ Hrec) as (w & s' & -> & Hw & Hk).
        exists (String c w), s'. simpl. unfold all_of in *. simpl.
        rewrite Hc, Hw. rewrite <- Hk. repeat split. f_equal. lia.
      * exists "", (String c s). rewrite Nat.add_0_r. auto.
    + exists "", (String c s). rewrite Nat.add_0_r. auto.
Qed.

Lemma many_lazy_sound {R : Type} (p : ascii -> bool) (pos : nat)
    (s : string) (k : nat -> string -> option R) (x : R) :
  many_lazy p pos s k = Some x ->
  exists w s', s = w ++ s' /\ all_of p w = true
               /\ k (pos + String.length w)%nat s' = Some x.
Proof.
  revert pos. induction s as [|c s IH]; intros pos Hrun; simpl in Hrun.
  - destruct (k pos "") eqn:Hk; [|discriminate].
    exists "", "". rewrite Nat.add_0_r. rewrite Hk. auto.
  - destruct (k pos (String c s)) eqn:Hk.
    + exists "", (String c s). rewrite Nat.add_0_r, Hk. auto.
    + destruct (p c) eqn:Hc; [|discriminate].
      destruct (IH _ Hrun) as (w & s' & -> & Hw & Hk').
      exists (String c w), s'. simpl. unfold all_of in *. simpl.
      rewrite Hc, Hw. rewrite <- Hk'. repeat split. f_equal. lia.
Qed.

Lemma run_sound (r : regex) :
  forall (R : Type) pos s cs (k : nat -> string -> captures -> option R) x,
    run r pos s cs k = Some x ->
    exists pos' s' cs',
      Matches r pos s cs pos' s' cs' /\ k pos' s' cs' = Some x.
Proof.
  induction r as [|p|r1 IH1 r2 IH2|r1 IH1 r2 IH2|g p|n r1 IH1|r1 IH1| |];
    intros R pos s cs k x Hrun; simpl in Hrun.
  - exists pos, s, cs. simpl. auto.
  - destruct s as [|c s']; [discriminate|].
    destruct (p c) eqn:Hc; [|discriminate].
    exists (S pos), s', cs. simpl. split; [exists c|]; auto.
  - apply IH1 in Hrun as (pos1 & s1 & cs1 & H1 & Hrun).
    apply IH2 in Hrun as (pos2 & s2 & cs2 & H2 & Hk).
    exists pos2, s2, cs2. split; [|exact Hk]. simpl. eauto.
  - destruct (run r1 pos s cs k) eqn:Hr1.
    + injection Hrun as <-. apply IH1 in Hr1 as (pos' & s' & cs' & H1 & Hk).
      exists pos', s', cs'. simpl. auto.
    + apply IH2 in Hrun as (pos' & s' & cs' & H2 & Hk).
      exists pos', s', cs'. simpl. auto.
  - assert (exists w s', s = w ++ s' /\ all_of p w = true
                         /\ k (pos + String.length w)%nat s' cs = Some x)
      as (w & s' & Hs & Hw & Hk).
    { destruct g;
        [apply many_greedy_sound in Hrun | apply many_lazy_sound in Hrun];
        exact Hrun. }
    exists (pos + String.length w)%nat, s', cs. split; [|exact Hk].
    simpl. exists w. auto.
  - apply IH1 in Hrun as (pos' & s' & cs1 & H1 & Hk).
    exists pos', s', ((n, substring 0 (pos' - pos) s) :: cs1).
    split; [|exact Hk]. simpl. eauto.
  - destruct (run r1 pos s cs (fun _ _ _ => Some tt)) eqn:Hr1; [|discriminate].
    apply IH1 in Hr1 as (pos1 & s1 & cs1 & H1 & _).
    exists pos, s, cs. split; [|exact Hrun]. simpl. eauto 10.
  - destruct (pos =? 0)%nat eqn:Hp; [|discriminate].
    apply Nat.eqb_eq in Hp. exists pos, s, cs. simpl. auto.
  - destruct s as [|c [|d s']]; try discriminate.
    + exists pos, "", cs. simpl. auto.
    + destruct (Ascii.eqb c "010") eqn:Hc; [|discriminate].
      apply Ascii.eqb_eq in Hc. subst c.
      exists pos, (String "010" ""), cs. simpl. auto.
Qed.

(** What a match consumes is a prefix of the text it was run on. *)
Lemma matches_consumes (r : regex) :
  forall pos s cs pos' s' cs',
    Matches r pos s cs pos' s' cs' ->
    exists w, s = w ++ s' /\ pos' = (pos + String.length w)%nat.
Proof.
  induction r as [|p|r1 IH1 r2 IH2|r1 IH1 r2 IH2|g p|n r1 IH1|r1 IH1| |];
    intros pos s cs pos' s' cs' HM; simpl in HM.
  - destruct HM as (-> & -> & _). exists "". simpl. split; [reflexivity | lia].
  - destruct HM as (c & -> & _ & -> & _). exists (String c "").
    simpl. split; [reflexivity | lia].
  - destruct HM as (pos1 & s1 & cs1 & H1 & H2).
    apply IH1 in H1 as (w1 & -> & ->). apply IH2 in H2 as (w2 & -> & ->).
    exists (w1 ++ w2).
    split; [now rewrite append_assoc | rewrite length_append; lia].
  - destruct HM as [H1 | H2]; eauto.
  - destruct HM as (w & -> & _ & -> & _). eauto.
  - destruct HM as (cs1 & H1 & _). eauto.
  - destruct HM as (_ & -> & -> & _). exists "". simpl.
    split; [reflexivity | lia].
  - destruct HM as (_ & -> & -> & _). exists "". simpl.
    split; [reflexivity | lia].
  - destruct HM as (_ & -> & -> & _). exists "". simpl.
    split; [reflexivity | lia].
Qed.

(** A result of [search_from] is a match at some offset of the text. *)
Lemma search_from_sound (r : regex) (pos : nat) (s : string) (m : rmatch) :
  search_from r pos s = Some m ->
  exists pre s0,
    s = pre ++ s0
    /\ match_here r (pos + String.length pre)%nat s0 = Some m.
Proof.
  revert pos. induction s as [|c s IH]; intros pos Hs; simpl in Hs.
  - destruct (match_here r pos "") eqn:Hm; [|discriminate].
    injection Hs as <-. exists "", "". simpl. now rewrite Nat.add_0_r.
  - destruct (match_here r pos (String c s)) eqn:Hm.
    + injection Hs as <-. exists "", (String c s). simpl.
      now rewrite Nat.add_0_r.
    + apply IH in Hs as (pre & s0 & -> & Hm0).
      exists (String c pre), s0. simpl. split; [reflexivity|].
      now replace (pos + S (String.length pre))%nat
        with (S pos + String.length pre)%nat by lia.
Qed.

Lemma match_here_span (r : regex) (pos : nat) (s : string) (m : rmatch) :
  match_here r pos s = Some m ->
  exists w, Matches r pos s [] (m_end m) (m_rest m) (m_caps m)
            /\ m_start m = pos
            /\ s = w ++ m_rest m
            /\ m_end m = (pos + String.length w)%nat.
Proof.
  unfold match_here. intros Hm.
  apply run_sound in Hm as (pos' & s' & cs' & HM & Hk).
  injection Hk as <-. simpl.
  destruct (matches_consumes _ _ _ _ _ _ _ HM) as (w & Hs & Hp).
  exists w. auto.
Qed.

(** The text left after a match found in [s] is no longer than [s], and
    shorter when the match is not empty. *)
Lemma search_rest_shorter (r : regex) (pos : nat) (s : string) (m : rmatch) :
  search_from r pos s = Some m ->
  (String.length (m_rest m) <= String.length s)%nat
  /\ (m_end m <> m_start m ->
      (String.length (m_rest m) < String.length s)%nat).
Proof.
  intros Hs. apply search_from_sound in Hs as (pre & s0 & -> & Hm).
  apply match_here_span in Hm as (w & _ & Hst & -> & Hend).
  rewrite !length_append. split; [lia|].
  intros Hne. rewrite Hst, Hend in Hne.
  destruct w; [simpl in Hne; lia | simpl; lia].
Qed.

Lemma search_from_bounds (r : regex) (pos : nat) (s : string) (m : rmatch) :
  search_from r pos s = Some m ->
  (pos <= m_start m)%nat /\ (m_start m <= m_end m)%nat.
Proof.
  intros Hs. apply search_from_sound in Hs as (pre & s0 & _ & Hm).
  apply match_here_span in Hm as (w & _ & -> & _ & ->). lia.
Qed.

(** [finditer] reports the matches in document order, none overlapping
    the next. *)
Lemma finditer_from_ordered (r : regex) (fuel : nat) :
  forall pos s,
    Forall (fun m => (pos <= m_start m)%nat) (finditer_from fuel r pos s)
    /\ StronglySorted before (finditer_from fuel r pos s).
Proof.
  induction fuel as [|f IH]; intros pos s; simpl.
  - split; constructor.
  - destruct (search_from r pos s) as [m|] eqn:Hs; [|split; constructor].
    destruct (search_from_bounds _ _ _ _ Hs) as [Hlo Hhi].
    destruct (m_end m =? m_start m)%nat;
      [destruct (m_rest m) as [|c s']|];
      try (split; repeat constructor; exact Hlo);
      [destruct (IH (S (m_end m)) s') as [Hall Hsorted]
      |destruct (IH (m_end m) (m_rest m)) as [Hall Hsorted]];
      (split; constructor;
       [exact Hlo
       |eapply Forall_impl; [exact Hall|]; intros a Ha; simpl in Ha; lia
       |exact Hsorted
       |eapply Forall_impl; [exact Hall|]; intros a Ha; unfold before;
        simpl in Ha; lia]).
Qed.

(** The fuel of [finditer] is enough: any larger amount gives the same
    matches. *)
Lemma finditer_fuel (r : regex) (fuel1 : nat) :
  forall fuel2 pos s,
    (String.length s < fuel1)%nat -> (String.length s < fuel2)%nat ->
    finditer_from fuel1 r pos s = finditer_from fuel2 r pos s.
Proof.
  induction fuel1 as [|f1 IH]; intros fuel2 pos s H1 H2; [lia|].
  destruct fuel2 as [|f2]; [lia|]. simpl.
  destruct (search_from r pos s) as [m|] eqn:Hs; [|reflexivity].
  destruct (search_rest_shorter _ _ _ _ Hs) as [Hle Hlt].
  f_equal. destruct (m_end m =? m_start m)%nat eqn:He.
  - destruct (m_rest m) as [|c s'] eqn:Hr; [reflexivity|].
    simpl in Hle. apply IH; lia.
  - apply Nat.eqb_neq in He. specialize (Hlt He). apply IH; lia.
Qed.

Lemma finditer_any_fuel (r : regex) (s : string) (fuel : nat) :
  (String.length s < fuel)%nat ->
  finditer_from fuel r 0 s = finditer r s.
Proof.
  intros Hf. unfold finditer. apply finditer_fuel; lia.
Qed.

End MatcherSound.

Ltac break_matches :=
  repeat match goal with
         | H : _ /\ _ |- _ => destruct H
         | H : exists _, _ |- _ => destruct H
         | H : _ \/ _ |- _ => destruct H
         end.

(** ** The submission parser *)

Section Confidence.

Import SubmissionParser.

(** The specification's wording of the confidence score is not what
    [_calculate_confidence] computes: an empty payload, which the marker
    "1 " yields, scores 0.0 (the wording gives 0.7), and a payload on three
    lines, which has two line breaks, keeps its 1.0 (the wording gives
    0.8). *)
Lemma stated_confidence_fails :
  (exists m, answer_matches "1 " = [m] /\ match_payload m = "")
  /\ ~ (_calculate_confidence "" == Spec.stated_confidence "")
  /\ ~ (_calculate_confidence Examples.three_lines
        == Spec.stated_confidence Examples.three_lines).
Proof.
  split; [|split].
  - eexists. split; vm_compute; reflexivity.
  - intros H; vm_compute in H; discriminate.
  - intros H; vm_compute in H; discriminate.
Qed.

(** Claim C8, amended.  An empty payload scores 0.0.  For every other
    payload the score starts at 1.0 and loses 0.2 if the payload is longer
    than 200 characters, 0.3 if it contains a question mark, 0.2 if it
    contains more than two line breaks, and 0.3 if it is shorter than 2
    characters, each subtraction made in floating point, in this order;
    the result is clamped to [0,1].  By the outcome of the four tests it
    is the float that Python prints as [Spec.printed_confidence] has it:
    0.49999999999999994, not 0.5, for a question mark and more than two
    line breaks. *)
Theorem calculate_confidence_by_line_breaks (payload : string) :
  (payload = "" -> _calculate_confidence payload == 0)
  /\ (payload <> "" ->
      _calculate_confidence payload == Spec.confidence_by_breaks payload
      /\ _calculate_confidence payload
         == Py.float_lit
              (Spec.printed_confidence
                 (200 <? Py.len payload)%nat
                 (Py.contains "?" payload)
                 (2 <? Py.count_char newline payload)%nat
                 (Py.len payload <? 2)%nat))
  /\ 0 <= _calculate_confidence payload <= 1.
Proof.
  assert (Hne : payload <> "" ->
                _calculate_confidence payload
                == Spec.confidence_by_breaks payload).
  { intros Hne. apply truthy_nonempty in Hne.
    unfold _calculate_confidence, Spec.confidence_by_breaks, Spec.clamp.
    rewrite Hne. cbn [negb]. rewrite py_max_Qmax, py_min_Qmin.
    apply Q.max_compat; [reflexivity|]. apply Q.min_compat; [reflexivity|].
    destruct (200 <? Py.len payload)%nat, (Py.contains "?" payload),
      (2 <? Py.count_char newline payload)%nat, (Py.len payload <? 2)%nat;
      vm_compute; reflexivity. }
  split; [intros ->; reflexivity|]. split.
  - intros Hp. split; [exact (Hne Hp)|].
    apply truthy_nonempty in Hp. unfold _calculate_confidence.
    rewrite Hp. cbn [negb].
    destruct (200 <? Py.len payload)%nat, (Py.contains "?" payload),
      (2 <? Py.count_char newline payload)%nat, (Py.len payload <? 2)%nat;
      vm_compute; reflexivity.
  - destruct payload as [|c s].
    + split; discriminate.
    + rewrite Hne by discriminate. apply clamp_range.
Qed.

Lemma calculate_confidence_by_line_breaks_witness :
  _calculate_confidence "" == 0
  /\ _calculate_confidence Examples.three_lines == 1
  /\ _calculate_confidence "why?" == Py.float_lit 0.7
  /\ _calculate_confidence Examples.asked_on_four_lines
     == Py.float_lit 0.49999999999999994
  /\ _calculate_confidence Examples.asked_on_four_lines < 0.5.
Proof.
  destruct (calculate_confidence_by_line_breaks "") as (Hempty & _ & _).
  destruct (calculate_confidence_by_line_breaks Examples.three_lines)
    as (_ & Hthree & _).
  destruct (calculate_confidence_by_line_breaks "why?") as (_ & Hwhy & _).
  destruct (calculate_confidence_by_line_breaks Examples.asked_on_four_lines)
    as (_ & Hasked & _).
  destruct Hthree as [_ Hthree]; [discriminate|].
  destruct Hwhy as [_ Hwhy]; [discriminate|].
  destruct Hasked as [_ Hasked]; [discriminate|].
  split; [apply Hempty; reflexivity|].
  split; [rewrite Hthree; reflexivity|].
  split; [rewrite Hwhy; reflexivity|].
  split; [rewrite Hasked; reflexivity|].
  rewrite Hasked. reflexivity.
Defined.

End Confidence.

Section AnswerBlocks.

Import SubmissionParser.

Lemma fold_record_other (ms : list Re.rmatch)
    (d : gmap string (string * Q)) (q : string) :
  (forall m, In m ms -> match_id m <> q) ->
  fold_left record_match ms d !! q = d !! q.
Proof.
  revert d. induction ms as [|m ms IH]; intros d Hne; simpl.
  - reflexivity.
  - rewrite IH.
    + unfold record_match. apply lookup_insert_ne. apply Hne. now left.
    + intros m' Hin. apply Hne. now right.
Qed.

Lemma fold_record_last (pre post : list Re.rmatch) (m : Re.rmatch)
    (d : gmap string (string * Q)) :
  (forall m', In m' post -> match_id m' <> match_id m) ->
  fold_left record_match (pre ++ m :: post) d !! match_id m
  = Some (match_entry m).
Proof.
  intros Hpost. rewrite fold_left_app. simpl.
  rewrite fold_record_other by exact Hpost.
  unfold record_match at 1. apply lookup_insert_eq.
Qed.

(** The markers are folded in document order. *)
Lemma answer_matches_in_document_order (text : string) :
  StronglySorted Re.before (answer_matches text).
Proof. apply finditer_from_ordered. Qed.

Lemma fold_record_none (ms : list Re.rmatch)
    (d : gmap string (string * Q)) (q : string) :
  d !! q = None ->
  (forall m, In m ms -> match_id m <> q) ->
  fold_left record_match ms d !! q = None.
Proof.
  intros Hd Hne. now rewrite fold_record_other.
Qed.

Lemma answer_for_id (found : gmap string (string * Q)) (q : string) :
  question_id (answer_for found q) = q.
Proof.
  unfold answer_for. destruct (found !! q) as [[raw conf]|]; reflexivity.
Qed.

(** Claim C9.  The parsed answers are one [StudentAnswer] per expected
    sub-question id, in the flattened order of the key; an expected id that
    no marker of the text resolves to gets the placeholder: empty raw text
    (and parsed value) and confidence 0.0. *)
Theorem one_answer_per_expected_id (text : string) (rubric : Rubric) :
  map question_id (parsed_answers text rubric)
  = _get_expected_questions rubric
  /\ forall a,
       In a (parsed_answers text rubric) ->
       (forall m, In m (answer_matches text) -> match_id m <> question_id a) ->
       raw_text a = "" /\ parsed_value a = Some "" /\ confidence a = 0.
Proof.
  unfold parsed_answers, _extract_answers. split.
  - rewrite map_map. rewrite (map_ext _ (fun q => q)).
    + apply map_id.
    + intros q. apply answer_for_id.
  - intros a Hin Hno. apply in_map_iff in Hin as (q & <- & _).
    rewrite answer_for_id in Hno. unfold answer_for, _find_answer_blocks.
    rewrite (fold_record_none (answer_matches text) ∅ q
               (lookup_empty q) Hno).
    repeat split.
Qed.

Lemma one_answer_per_expected_id_witness :
  map question_id (parsed_answers "1a) True" Examples.key) = ["1a"; "2a"]
  /\ parsed_answers "1a) True" Examples.key
     = [ Examples.answer "1a" "True" (Some "True") 1;
         Examples.answer "2a" "" (Some "") 0 ].
Proof.
  destruct (one_answer_per_expected_id "1a) True" Examples.key) as [Hids Hph].
  split; [exact Hids|].
  destruct (parsed_answers "1a) True" Examples.key)
    as [|a1 [|a2 [|]]] eqn:Hpa; try discriminate.
  assert (Hq : question_id a2 = "2a") by (now injection Hids).
  destruct (Hph a2) as (Hraw & Hpv & Hconf).
  - right. now left.
  - rewrite Hq. intros m Hin. vm_compute in Hin.
    destruct Hin as [<- | []]. discriminate.
  - f_equal.
    + vm_compute in Hpa. now injection Hpa as <- _.
    + destruct a2 as [q r p c n]. simpl in *. subst.
      vm_compute in Hpa. injection Hpa as _ Hn. now subst.
Defined.

End AnswerBlocks.

(** ** The answer-key parser's grading rule *)

Section GradingRules.

Import Re RubricParser.

(** Group 1 of [MINIMUM] is a non-empty run of digits. *)
Lemma minimum_group_digits (note : string) (m : rmatch) :
  search MINIMUM note = Some m ->
  exists c w, group m 1 = Some (String c w)
              /\ ReSem.all_of Py.is_digit (String c w) = true.
Proof.
  intros Hs. apply search_from_sound in Hs as (pre & s0 & _ & Hm).
  unfold match_here in Hm.
  apply run_sound in Hm as (pos' & s' & cs' & HM & Hk).
  injection Hk as <-.
  unfold MINIMUM in HM.
  cbn [cat fold_right lit opt plus chr ReSem.Matches] in HM.
  break_matches; subst; unfold group; cbn [m_caps lookup_group Nat.eqb];
    match goal with
    | |- context [substring 0 ?n (String ?c (?w ++ ?s))] =>
        exists c, w; replace n with (S (String.length w)) by lia;
        cbn [substring]; rewrite substring_prefix;
        split; [reflexivity|]; unfold ReSem.all_of in *; simpl;
        apply andb_true_iff; split; assumption
    end.
Qed.

(** Reading the minimum never raises, and the minimum is not negative. *)
Lemma minimum_of_nonneg (note : string) :
  exists x, minimum_of note = Ok x /\ 0 <= x.
Proof.
  unfold minimum_of.
  destruct (search MINIMUM note) as [m|] eqn:Hs.
  - destruct (minimum_group_digits _ _ Hs) as (c & w & Hg & Hd).
    unfold group_text. rewrite Hg.
    destruct (digits_value_nonneg _ Hd 0%Z ltac:(lia)) as (z & Hz & Hv).
    unfold Py.float_of_digits. rewrite Hv. simpl.
    exists (Py.round64 (inject_Z z)). split; [reflexivity|].
    apply round64_nonneg. unfold Qle. simpl. lia.
  - exists 0. split; [reflexivity|]. apply Qle_refl.
Qed.

(** The note of the repository's own test key gives a per-item-penalty rule
    whose floor, 0, is above its points-if-incorrect, -1. *)
Lemma penalty_floor_above_points_incorrect :
  exists rule,
    _extract_grading_rule Examples.penalty_note = Ok rule
    /\ rule_type rule = PER_ITEM_PENALTY
    /\ ~ (minimum_score rule <= points_incorrect rule).
Proof.
  eexists. split; [vm_compute; reflexivity|]. split; [reflexivity|].
  cbn. intros Hle. apply Qle_bool_iff in Hle. discriminate.
Qed.

(** Claim C5, amended.  The parser returns a rule for every text, and every
    per-item-penalty rule it returns has points-if-correct 1,
    points-if-incorrect -1 and a minimum floor that is not negative: the
    floor lies above the points-if-incorrect, not below. *)
Theorem penalty_rule_shape (text : string) :
  exists rule,
    _extract_grading_rule text = Ok rule
    /\ (rule_type rule = PER_ITEM_PENALTY ->
        points_correct rule = 1 /\ points_incorrect rule = -1
        /\ 0 <= minimum_score rule
        /\ points_incorrect rule < minimum_score rule).
Proof.
  unfold _extract_grading_rule.
  destruct (search GRADING_NOTE text) as [m|].
  - destruct (Py.contains "+1" _ && Py.contains "-1" _).
    + destruct (minimum_of_nonneg (Py.lower (group_text m 1)))
        as (x & Hx & Hpos).
      rewrite Hx. cbn [rbind]. eexists. split; [reflexivity|].
      intros _. cbn. repeat split; [exact Hpos|].
      apply Qlt_le_trans with 0; [reflexivity | exact Hpos].
    + destruct (Py.contains "partial" _); eexists; (split; [reflexivity|]);
        cbn; discriminate.
  - eexists. split; [reflexivity|]. cbn. discriminate.
Qed.

Lemma penalty_rule_shape_witness :
  exists rule,
    _extract_grading_rule Examples.penalty_note = Ok rule
    /\ rule_type rule = PER_ITEM_PENALTY
    /\ points_incorrect rule = -1
    /\ minimum_score rule = 0
    /\ points_incorrect rule < minimum_score rule.
Proof.
  destruct (penalty_rule_shape Examples.penalty_note) as (rule & Hrule & Hshape).
  exists rule.
  assert (Hkind : rule_type rule = PER_ITEM_PENALTY
                  /\ minimum_score rule = 0).
  { vm_compute in Hrule. injection Hrule as <-. split; reflexivity. }
  destruct Hkind as [Hkind Hmin].
  destruct (Hshape Hkind) as (_ & Hinc & _ & Hlt).
  split; [exact Hrule|]. split; [exact Hkind|]. split; [exact Hinc|].
  split; [exact Hmin | exact Hlt].
Defined.

End GradingRules.

(** ** The comparator *)

Section Comparator.

Import MathComparator.

Context `{Sympy}.

(** The normalized text is empty exactly for the strings of white space
    (the empty string among them). *)
Lemma normalize_empty (x : string) :
  _normalize (Some x) = "" <-> ReSem.all_of Py.is_space x = true.
Proof.
  unfold _normalize. destruct x as [|c x].
  - simpl. tauto.
  - cbn [Py.truthy]. rewrite collapse_ws_empty, lower_empty.
    unfold Py.strip. rewrite rstrip_empty, lstrip_all. tauto.
Qed.

(** Claim C2, amended.  For every answer string whose normalized text is
    not empty, and every answer type, comparing the string with itself
    gives (true, 1.0); when the normalized text is empty, it gives
    (false, 1.0). *)
Theorem compare_reflexive_unless_empty (x : string) (qt : QuestionType) :
  (_normalize (Some x) <> "" -> compare (Some x) x qt [] = (true, 1))
  /\ (_normalize (Some x) = "" -> compare (Some x) x qt [] = (false, 1)).
Proof.
  unfold compare. split.
  - intros Hne. apply truthy_nonempty in Hne. rewrite Hne. cbn [negb].
    now rewrite String.eqb_refl.
  - intros ->. reflexivity.
Qed.

(** The test on the percent sign comes after the percent signs were
    stripped: when those at the end were the only ones, the scaled
    comparison is skipped. *)
Lemma percent_branch_skipped (student correct : string) :
  Py.contains "%" (Py.rstrip_chars "%" correct) = false ->
  _compare_probability student correct
  = _compare_numeric (Py.rstrip_chars "%" student)
                     (Py.rstrip_chars "%" correct).
Proof.
  intros Hno. unfold _compare_probability. now rewrite Hno.
Qed.

(** Claim C3, as the code has it.  The probability comparison strips the
    trailing percent signs from both sides and only then tests the correct
    answer for a percent sign.  So for a correct answer that carries a
    percent suffix, [body%], the student's value is not scaled by 100: the
    answer is the numeric comparison of the stripped student text with
    [body]. *)
Theorem percent_suffix_not_scaled (student body : string) :
  Py.contains "%" body = false ->
  _compare_probability student (body ++ "%")
  = _compare_numeric (Py.rstrip_chars "%" student) body.
Proof.
  intros Hno. rewrite percent_branch_skipped.
  - now rewrite (rstrip_suffix "%" body Hno).
  - now rewrite (rstrip_suffix "%" body Hno).
Qed.




End Comparator.

Section ComparatorExamples.

Import MathComparator MiniSympy.

(** The empty string does not compare equal to itself. *)
Lemma compare_empty_with_itself :
  ~ (compare (Some "") "" NUMERIC [] = (true, 1)).
Proof. vm_compute. discriminate. Qed.

Lemma compare_reflexive_unless_empty_witness :
  compare (Some "1/4") "1/4" NUMERIC [] = (true, 1)
  /\ compare (Some "  ") "  " NUMERIC [] = (false, 1).
Proof.
  split.
  - apply (compare_reflexive_unless_empty "1/4" NUMERIC). discriminate.
  - apply (compare_reflexive_unless_empty "  " NUMERIC). reflexivity.
Defined.

(** A key of "25%" against the student's "0.25": the code answers
    (false, 0.9), the specification's wording (true, 0.95). *)
Lemma percent_suffix_not_scaled_witness :
  _compare_probability "0.25" "25%" = (false, 0.9)
  /\ Spec.stated_probability "0.25" "25%" = (true, 0.95).
Proof.
  split.
  - rewrite (percent_suffix_not_scaled "0.25" "25") by reflexivity.
    vm_compute. reflexivity.
  - vm_compute. reflexivity.
Defined.



End ComparatorExamples.

(** ** The grading engine *)

Section Engine.

Import GradingEngine.

Context `{Sympy}.

Lemma outcome_bind_ok {A B : Type} (m : Eng A) (f : A -> Eng B) (b : B) :
  outcome (bind m f) = Ok b <->
  exists a, outcome m = Ok a /\ outcome (f a) = Ok b.
Proof.
  unfold outcome, bind. destruct m as [[a|e] log1]; simpl.
  - destruct (f a) as [r log2] eqn:Hf. simpl. split.
    + intros ->. exists a. rewrite Hf. auto.
    + intros (a' & Ha & Hb). injection Ha as <-. now rewrite Hf in Hb.
  - split; [discriminate|]. intros (a & Ha & _). discriminate.
Qed.

Lemma outcome_bind_raise {A B : Type} (m : Eng A) (f : A -> Eng B)
    (e : exn) :
  outcome m = Raise e -> outcome (bind m f) = Raise e.
Proof.
  unfold outcome, bind. destruct m as [[a|e'] log]; simpl.
  - discriminate.
  - intros [= ->]. reflexivity.
Qed.

Lemma outcome_bind_step {A B : Type} (m : Eng A) (f : A -> Eng B) (a : A) :
  outcome m = Ok a -> outcome (bind m f) = outcome (f a).
Proof.
  unfold outcome, bind. destruct m as [[a'|e] log]; simpl.
  - intros [= ->]. now destruct (f a).
  - discriminate.
Qed.

Lemma find_answer_In (l : list StudentAnswer) (qid : string)
    (a : StudentAnswer) :
  find_answer l qid = Some a -> In a l.
Proof.
  induction l as [|x l IH]; simpl; [discriminate|].
  destruct (String.eqb (question_id x) qid).
  - intros [= ->]. now left.
  - intros Hf. right. auto.
Qed.

(** Claim C6.  An answer with raw text whose extraction confidence is
    below 0.5 is graded 0 points and not correct, with the feedback that
    the answer could not be reliably extracted and the note for manual
    review; the comparator is not invoked. *)
Theorem low_confidence_not_compared (sub_question : SubQuestion)
    (answer : StudentAnswer) (rubric : Rubric) :
  raw_text answer <> "" ->
  confidence answer < 0.5 ->
  outcome (_grade_question sub_question (Some answer) rubric)
  = Ok {| qg_question_id := sq_id sub_question;
          points_earned := 0;
          points_possible := sq_points sub_question;
          qg_student_answer := raw_text answer;
          correct_answer := value (solution sub_question);
          is_correct := false;
          feedback :=
            "Could not reliably extract answer. Flagged for manual review.";
          grading_notes := Some "Low confidence extraction" |}
  /\ calls (_grade_question sub_question (Some answer) rubric) = [].
Proof.
  intros Hraw Hconf. unfold _grade_question.
  apply truthy_nonempty in Hraw. rewrite Hraw.
  apply Qltb_lt in Hconf. rewrite Hconf. simpl. split; reflexivity.
Qed.

Lemma grade_question_id (sq : SubQuestion) (a : option StudentAnswer)
    (rubric : Rubric) (g : QuestionGrade) :
  outcome (_grade_question sq a rubric) = Ok g -> qg_question_id g = sq_id sq.
Proof.
  unfold _grade_question.
  destruct a as [a|]; [|intros [= <-]; reflexivity].
  destruct (Py.truthy (raw_text a)); simpl; [|intros [= <-]; reflexivity].
  destruct (Py.Qltb (confidence a) 0.5); [intros [= <-]; reflexivity|].
  unfold comparator_compare, bind, lift, outcome.
  destruct (MathComparator.compare _ _ _ _) as [c conf].
  destruct (parsed_value a); simpl; [intros [= <-]; reflexivity | discriminate].
Qed.

(** Grading one sub-question raises only when an answer that goes to the
    comparator has no parsed value. *)
Lemma grade_question_total (sq : SubQuestion) (a : option StudentAnswer)
    (rubric : Rubric) :
  (forall x, a = Some x -> Spec.auto_graded x = true ->
             parsed_value x <> None) ->
  exists g, outcome (_grade_question sq a rubric) = Ok g.
Proof.
  intros Hp. unfold _grade_question.
  destruct a as [a|]; [|eexists; reflexivity].
  specialize (Hp a eq_refl). unfold Spec.auto_graded in Hp.
  destruct (Py.truthy (raw_text a)); simpl; [|eexists; reflexivity].
  destruct (Py.Qltb (confidence a) 0.5); [eexists; reflexivity|].
  unfold comparator_compare, bind, lift, outcome.
  destruct (MathComparator.compare _ _ _ _) as [c conf].
  destruct (parsed_value a); simpl; [eexists; reflexivity|].
  exfalso. now apply Hp.
Qed.

(** Grading one sub-question raises exactly when the answer handed to it
    goes to the comparator and has no parsed value: the constructor of the
    grade refuses [None] as the student's answer. *)
Lemma grade_question_outcome (sq : SubQuestion) (a : option StudentAnswer)
    (rubric : Rubric) :
  if Spec.unparsed a
  then outcome (_grade_question sq a rubric) = Raise ValidationError
  else exists g, outcome (_grade_question sq a rubric) = Ok g.
Proof.
  unfold Spec.unparsed, Spec.auto_graded, _grade_question.
  destruct a as [a|]; [|eexists; reflexivity].
  destruct (Py.truthy (raw_text a)); cbn [andb negb];
    [|eexists; reflexivity].
  destruct (Py.Qltb (confidence a) 0.5); cbn [andb negb];
    [eexists; reflexivity|].
  unfold comparator_compare, bind, lift, outcome.
  destruct (MathComparator.compare _ _ _ _) as [c conf].
  destruct (parsed_value a); cbn; [eexists; reflexivity | reflexivity].
Qed.

Lemma grade_sub_questions_outcome (sub : Submission) (rubric : Rubric)
    (sqs : list SubQuestion) :
  forall st,
    if existsb (fun sq => Spec.unparsed (get_answer sub (sq_id sq))) sqs
    then outcome (grade_sub_questions sub rubric sqs st)
         = Raise ValidationError
    else exists st', outcome (grade_sub_questions sub rubric sqs st) = Ok st'.
Proof.
  induction sqs as [|sq sqs IH]; intros st; cbn [existsb grade_sub_questions].
  - eexists. reflexivity.
  - pose proof (grade_question_outcome sq (get_answer sub (sq_id sq)) rubric)
      as Hq.
    destruct (Spec.unparsed (get_answer sub (sq_id sq))); cbn [orb].
    + now apply outcome_bind_raise.
    + destruct Hq as (g & Hg). rewrite (outcome_bind_step _ _ g Hg).
      apply IH.
Qed.

Lemma grade_questions_outcome (sub : Submission) (rubric : Rubric)
    (qs : list Question) :
  forall st,
    if existsb (fun sq => Spec.unparsed (get_answer sub (sq_id sq)))
               (flat_map sub_questions qs)
    then outcome (grade_questions sub rubric qs st) = Raise ValidationError
    else exists st', outcome (grade_questions sub rubric qs st) = Ok st'.
Proof.
  induction qs as [|q qs IH]; intros st; cbn [flat_map grade_questions].
  - eexists. reflexivity.
  - rewrite existsb_app.
    pose proof (grade_sub_questions_outcome sub rubric (sub_questions q) st)
      as Hq.
    destruct (existsb _ (sub_questions q)); cbn [orb].
    + now apply outcome_bind_raise.
    + destruct Hq as (st1 & H1). rewrite (outcome_bind_step _ _ st1 H1).
      apply IH.
Qed.

(** The loops extend the list of grades and add what was earned, one
    grade after the other. *)
Lemma grade_sub_questions_spec (sub : Submission) (rubric : Rubric)
    (sqs : list SubQuestion) :
  forall st st',
    outcome (grade_sub_questions sub rubric sqs st) = Ok st' ->
    exists gs, fst st' = (fst st ++ gs)%list
               /\ snd st' = Spec.accumulated (snd st) gs
               /\ map qg_question_id gs = map sq_id sqs.
Proof.
  induction sqs as [|sq sqs IH]; intros st st' Hrun; simpl in Hrun.
  - injection Hrun as <-. exists []. rewrite app_nil_r. simpl.
    repeat split.
  - apply outcome_bind_ok in Hrun as (g & Hg & Hrest).
    apply IH in Hrest as (gs & Hfst & Hsnd & Hids). simpl in Hfst, Hsnd.
    exists (g :: gs). rewrite Hfst, <- app_assoc. simpl.
    repeat split.
    + exact Hsnd.
    + f_equal; [now apply grade_question_id in Hg | exact Hids].
Qed.

Lemma grade_questions_spec (sub : Submission) (rubric : Rubric)
    (qs : list Question) :
  forall st st',
    outcome (grade_questions sub rubric qs st) = Ok st' ->
    exists gs, fst st' = (fst st ++ gs)%list
               /\ snd st' = Spec.accumulated (snd st) gs
               /\ map qg_question_id gs
                  = flat_map (fun q => map sq_id (sub_questions q)) qs.
Proof.
  induction qs as [|q qs IH]; intros st st' Hrun; simpl in Hrun.
  - injection Hrun as <-. exists []. rewrite app_nil_r. simpl.
    repeat split.
  - apply outcome_bind_ok in Hrun as (st1 & H1 & Hrest).
    apply grade_sub_questions_spec in H1 as (gs1 & Hf1 & Hs1 & Hi1).
    apply IH in Hrest as (gs2 & Hf2 & Hs2 & Hi2).
    exists (gs1 ++ gs2)%list. rewrite Hf2, Hf1, <- app_assoc.
    repeat split.
    + rewrite Hs2, Hs1. unfold Spec.accumulated. now rewrite fold_left_app.
    + simpl. rewrite map_app. now rewrite Hi1, Hi2.
Qed.

Lemma grade_sub_questions_total (sub : Submission) (rubric : Rubric)
    (sqs : list SubQuestion) :
  Spec.parsed_when_graded sub ->
  forall st,
    exists st', outcome (grade_sub_questions sub rubric sqs st) = Ok st'.
Proof.
  intros Hp. induction sqs as [|sq sqs IH]; intros st; simpl.
  - eexists. reflexivity.
  - destruct (grade_question_total sq (get_answer sub (sq_id sq)) rubric)
      as (g & Hg).
    { intros x Hx. apply Hp. eapply find_answer_In. exact Hx. }
    destruct (IH ((fst st ++ [g])%list, Py.fadd (snd st) (points_earned g)))
      as (st' & Hst').
    exists st'. apply outcome_bind_ok. eauto.
Qed.

Lemma grade_questions_total (sub : Submission) (rubric : Rubric)
    (qs : list Question) :
  Spec.parsed_when_graded sub ->
  forall st, exists st', outcome (grade_questions sub rubric qs st) = Ok st'.
Proof.
  intros Hp. induction qs as [|q qs IH]; intros st; simpl.
  - eexists. reflexivity.
  - destruct (grade_sub_questions_total sub rubric (sub_questions q) Hp st)
      as (st1 & H1).
    destruct (IH st1) as (st' & Hst').
    exists st'. apply outcome_bind_ok. eauto.
Qed.

(** A result of [grade] is the record built from the final state of the
    loops. *)
Lemma grade_ok_inv (sub : Submission) (rubric : Rubric) (r : GradeResult) :
  outcome (grade sub rubric) = Ok r <->
  exists qgs score,
    outcome (grade_questions sub rubric (questions rubric)
               ([], base_points rubric))
    = Ok (qgs, score)
    /\ r = new_GradeResult (student_id sub) (assignment_id sub)
             (student_id sub ++ "_" ++ assignment_id sub) qgs
             (Py.max 0 score) (total_points rubric)
             (if Py.Qltb 0 (total_points rubric)
              then Py.fmul (Py.fdiv (Py.max 0 score) (total_points rubric))
                     100
              else 0)
             (_generate_overall_feedback qgs).
Proof.
  unfold grade. rewrite outcome_bind_ok. split.
  - intros ([qgs score] & Hq & Hr). exists qgs, score.
    split; [exact Hq|]. simpl in Hr. now injection Hr as <-.
  - intros (qgs & score & Hq & ->). exists (qgs, score).
    split; [exact Hq | reflexivity].
Qed.

(** Claim C1, as the code has it.  [grade] does not return a result for
    every key and submission: it raises a validation error exactly when,
    for some sub-question of the key, the first answer recorded for its id
    has raw text, an extraction confidence of at least 0.5 and no parsed
    value; otherwise it returns a result.  Every result it returns has one
    grade per sub-question of the key, in key order; its total score is
    the base points with the points earned added one grade after the
    other, in floating point, floored at 0; its percentage is the total
    score divided by the total possible, times 100, when the total
    possible is positive, and 0 otherwise. *)
Theorem grade_aggregation (sub : Submission) (rubric : Rubric) :
  (Spec.meets_unparsed sub rubric = true ->
   outcome (grade sub rubric) = Raise ValidationError)
  /\ (Spec.meets_unparsed sub rubric = false ->
      exists r, outcome (grade sub rubric) = Ok r)
  /\ forall r,
       outcome (grade sub rubric) = Ok r ->
       map qg_question_id (question_grades r)
       = SubmissionParser._get_expected_questions rubric
       /\ total_score r
          = Py.max 0 (Spec.accumulated (base_points rubric)
                        (question_grades r))
       /\ total_possible r = total_points rubric
       /\ (0 < total_possible r ->
           percentage r
           = Py.fmul (Py.fdiv (total_score r) (total_possible r)) 100)
       /\ (total_possible r <= 0 -> percentage r = 0).
Proof.
  pose proof (grade_questions_outcome sub rubric (questions rubric)
                ([], base_points rubric)) as Hout.
  fold (Spec.meets_unparsed sub rubric) in Hout.
  split; [|split].
  - intros Hmeets. rewrite Hmeets in Hout. unfold grade.
    now apply outcome_bind_raise.
  - intros Hmeets. rewrite Hmeets in Hout.
    destruct Hout as ([qgs score] & Hrun).
    eexists. apply grade_ok_inv. exists qgs, score.
    split; [exact Hrun | reflexivity].
  - intros r Hr. apply grade_ok_inv in Hr as (qgs & score & Hrun & ->).
    apply grade_questions_spec in Hrun as (gs & Hfst & Hsnd & Hids).
    simpl in Hfst, Hsnd. subst qgs score.
    cbn [new_GradeResult question_grades total_score total_possible
         percentage].
    split; [exact Hids|]. split; [reflexivity|].
    split; [reflexivity|]. split.
    + intros Hpos. apply Qltb_lt in Hpos. now rewrite Hpos.
    + intros Hle. apply Qltb_ge in Hle. now rewrite Hle.
Qed.

(** Claim C4, as the code has it.  No result of [grade] has the
    needs-review flag set, and none carries a review reason, whatever the
    confidence with which its sub-questions were scored. *)
Theorem grade_leaves_review_flag_unset (sub : Submission) (rubric : Rubric)
    (r : GradeResult) :
  outcome (grade sub rubric) = Ok r ->
  needs_review r = false /\ review_reasons r = [].
Proof.
  intros Hr. apply grade_ok_inv in Hr as (qgs & score & _ & ->).
  split; reflexivity.
Qed.

End Engine.

Section EngineExamples.

Import GradingEngine MiniSympy.

Lemma low_confidence_not_compared_witness :
  exists g,
    _grade_question (Examples.sub_question "1a" "True" TRUE_FALSE)
      (get_answer Examples.doubtful "1a") Examples.key
    = (Ok g, [])
    /\ points_earned g = 0 /\ is_correct g = false
    /\ grading_notes g = Some "Low confidence extraction".
Proof.
  destruct (low_confidence_not_compared
              (Examples.sub_question "1a" "True" TRUE_FALSE)
              (Examples.answer "1a" "True or false?"
                 (Some "True or false?") 0.4)
              Examples.key) as [Hout Hcalls].
  - discriminate.
  - reflexivity.
  - eexists. split.
    + apply injective_projections; [exact Hout | exact Hcalls].
    + repeat split.
Defined.

(** In floating point the order of the operations shows: for 5 points of
    15 the code's [(total / possible) * 100] is 33.33333333333333, where
    [100 * total / possible] is 33.333333333333336. *)
Lemma percentage_order_matters :
  Py.fmul (Py.fdiv 5 15) 100 == Py.float_lit 33.33333333333333
  /\ Spec.stated_percentage 5 15 == Py.float_lit 33.333333333333336
  /\ ~ (Py.fmul (Py.fdiv 5 15) 100 == Spec.stated_percentage 5 15).
Proof.
  split; [vm_compute; reflexivity|]. split; [vm_compute; reflexivity|].
  intros Heq. vm_compute in Heq. discriminate Heq.
Qed.

(** The answer to [1a] has raw text, confidence 1.0 and no parsed value:
    [grade] raises.  With a parsed answer to [1a] put before it, it is
    never looked up and [grade] returns; so it does for the answers that
    are all parsed, with 18 + 5 + 5 = 28 points of 28. *)
Lemma grade_aggregation_witness :
  outcome (grade Examples.unparsed Examples.key) = Raise ValidationError
  /\ (exists r, outcome (grade Examples.unparsed_unread Examples.key) = Ok r)
  /\ exists r,
       outcome (grade Examples.good Examples.key) = Ok r
       /\ map qg_question_id (question_grades r) = ["1a"; "2a"]
       /\ total_score r == 28 /\ percentage r == 100.
Proof.
  destruct (grade_aggregation Examples.unparsed Examples.key)
    as (Hraise & _ & _).
  destruct (grade_aggregation Examples.unparsed_unread Examples.key)
    as (_ & Hunread & _).
  destruct (grade_aggregation Examples.good Examples.key)
    as (_ & Hgood & Hagg).
  split; [apply Hraise; reflexivity|].
  split; [apply Hunread; reflexivity|].
  destruct Hgood as (r & Hr); [reflexivity|].
  destruct (Hagg r Hr) as (Hids & Hscore & Hposs & Hpct & _).
  exists r. split; [exact Hr|]. split; [exact Hids|].
  assert (Hqgs : Spec.accumulated (base_points Examples.key)
                   (question_grades r) == 28).
  { vm_compute in Hr. injection Hr as <-. vm_compute. reflexivity. }
  assert (Hts : total_score r == 28).
  { rewrite Hscore. rewrite py_max_Qmax, Hqgs. reflexivity. }
  split; [exact Hts|].
  rewrite Hpct by (rewrite Hposs; reflexivity).
  rewrite Hposs. vm_compute in Hr. injection Hr as <-. vm_compute.
  reflexivity.
Defined.

(** The first sub-question carries the low-confidence note, and the report
    is not flagged. *)
Lemma grade_leaves_review_flag_unset_witness :
  exists r g1 g2,
    outcome (grade Examples.doubtful Examples.key) = Ok r
    /\ question_grades r = [g1; g2]
    /\ grading_notes g1 = Some "Low confidence extraction"
    /\ needs_review r = false.
Proof.
  destruct (outcome (grade Examples.doubtful Examples.key)) as [r|e] eqn:Hr;
    [|vm_compute in Hr; discriminate].
  destruct (grade_leaves_review_flag_unset _ _ _ Hr) as [Hflag _].
  destruct (question_grades r) as [|g1 [|g2 [|]]] eqn:Hqg;
    try (vm_compute in Hr; injection Hr as <-; discriminate).
  exists r, g1, g2. split; [reflexivity|]. split; [exact Hqg|].
  split; [|exact Hflag].
  vm_compute in Hr. injection Hr as <-. now injection Hqg as <- _.
Defined.

End EngineExamples.

(** ** The specification's sample cases

    The concrete cases the specification lists, run on the model. *)

Section SampleCases.

Import MathComparator SubmissionParser GradingEngine MiniSympy.

Example boolean_aliasing :
  compare (Some "T") "true" TRUE_FALSE [] = (true, 1)
  /\ compare (Some "maybe") "true" TRUE_FALSE [] = (false, 0.5).
Proof. split; vm_compute; reflexivity. Qed.

Example fraction_and_decimal :
  compare (Some "0.25") "1/4" NUMERIC [] = (true, 1)
  /\ compare (Some "1/4") "0.25" NUMERIC [] = (true, 1).
Proof. split; vm_compute; reflexivity. Qed.

Example growth_rate_wrapper :
  compare (Some "O(n^2)") "n**2" BIG_O [] = (true, 1).
Proof. vm_compute. reflexivity. Qed.

Example free_response_is_left_to_review :
  compare (Some "because") "since" SHORT_ANSWER [] = (false, 0.3).
Proof. vm_compute. reflexivity. Qed.

Example normalize_twice :
  _normalize (Some (_normalize (Some "  The   ANSWER  ")))
  = _normalize (Some "  The   ANSWER  ").
Proof. vm_compute. reflexivity. Qed.

Example clean_answer_sample : _clean_answer " Answer: 42. " = "42".
Proof. vm_compute. reflexivity. Qed.

(** The markers of a short submission, as [re.finditer] reports them:
    start, end, and the three groups. *)
Example answer_markers_sample :
  map (fun m => (Re.m_start m, Re.m_end m,
                 Re.group m 1, Re.group m 2, Re.group m 3))
      (answer_matches ("(1a) foo bar" ++ String "010" "work line"
                       ++ String "010" "  2 - b: why?" ++ String "010" ""))
  = [ (0%nat, 22%nat, Some "1", Some "a",
       Some ("foo bar" ++ String "010" "work line"));
      (22%nat, 36%nat, Some "2", Some "b", Some "why?") ].
Proof. vm_compute. reflexivity. Qed.

(** The payload runs over a marker that follows white space only. *)
Example marker_swallowed :
  map match_entry (answer_matches ("1a) " ++ String "010" "2b) x"))
  = [("2b) x", 1)].
Proof. vm_compute. reflexivity. Qed.

(** An answer without raw text scores 0 and is not correct. *)
Lemma no_answer_scores_zero `{Sympy} (sub_question : SubQuestion)
    (answer : StudentAnswer) (rubric : Rubric) :
  raw_text answer = "" ->
  _grade_question sub_question (Some answer) rubric
  = (Ok {| qg_question_id := sq_id sub_question;
           points_earned := 0;
           points_possible := sq_points sub_question;
           qg_student_answer := "";
           correct_answer := value (solution sub_question);
           is_correct := false;
           feedback := "No answer provided.";
           grading_notes := None |}, []).
Proof.
  intros Hraw. unfold _grade_question. rewrite Hraw. reflexivity.
Qed.

(** With points-if-incorrect -1 and floor 0, a wrong answer earns 0, so
    wrong answers never lower a total. *)
Lemma penalty_floor_holds (max_points : Q) :
  _apply_grading_rule false
    {| rule_type := PER_ITEM_PENALTY; points_correct := 1;
       points_incorrect := -1; minimum_score := 0; notes := None |}
    max_points = 0.
Proof. reflexivity. Qed.

End SampleCases.

(** * Further properties *)

(** ** Normalization *)

Section Normalization.

Import MathComparator Shape.

Lemma lstrip_clean (p : ascii -> bool) (s : string) :
  starts_clean p s = true -> Py.lstrip_of p s = s.
Proof.
  destruct s as [|c s]; simpl; [reflexivity|].
  now destruct (p c).
Qed.

Lemma rstrip_clean (p : ascii -> bool) (s : string) :
  ends_clean p s = true -> Py.rstrip_of p s = s.
Proof.
  induction s as [|c s IH]; simpl; [reflexivity|].
  destruct s as [|d s].
  - simpl. now destruct (p c).
  - intros Hc. rewrite (IH Hc). reflexivity.
Qed.

Lemma lstrip_starts_clean (p : ascii -> bool) (s : string) :
  starts_clean p (Py.lstrip_of p s) = true.
Proof.
  induction s as [|c s IH]; simpl; [reflexivity|].
  destruct (p c) eqn:Hc; [exact IH|]. simpl. now rewrite Hc.
Qed.

Lemma rstrip_ends_clean (p : ascii -> bool) (s : string) :
  ends_clean p (Py.rstrip_of p s) = true.
Proof.
  induction s as [|c s IH]; simpl; [reflexivity|].
  destruct (Py.rstrip_of p s) as [|d r] eqn:Hr.
  - destruct (p c) eqn:Hc; simpl; [reflexivity | now rewrite Hc].
  - exact IH.
Qed.

Lemma rstrip_starts_clean (p : ascii -> bool) (s : string) :
  starts_clean p s = true -> starts_clean p (Py.rstrip_of p s) = true.
Proof.
  destruct s as [|c s]; simpl; [reflexivity|].
  intros Hc. destruct (Py.rstrip_of p s); [|exact Hc].
  destruct (p c) eqn:Hp; [discriminate|]. simpl. now rewrite Hp.
Qed.

(** [strip] leaves a string clean at both ends, and a clean string
    alone. *)
Lemma strip_clean (s : string) :
  starts_clean Py.is_space (Py.strip s) = true
  /\ ends_clean Py.is_space (Py.strip s) = true.
Proof.
  unfold Py.strip. split.
  - apply rstrip_starts_clean, lstrip_starts_clean.
  - apply rstrip_ends_clean.
Qed.

Lemma strip_of_clean (s : string) :
  starts_clean Py.is_space s = true -> ends_clean Py.is_space s = true ->
  Py.strip s = s.
Proof.
  intros Hs He. unfold Py.strip. rewrite (lstrip_clean _ _ Hs).
  now apply rstrip_clean.
Qed.

Lemma is_space_lower_char (c : ascii) :
  Py.is_space (Py.lower_char c) = Py.is_space c.
Proof. destruct c as [[] [] [] [] [] [] [] []]; reflexivity. Qed.

Lemma lower_char_idempotent (c : ascii) :
  Py.lower_char (Py.lower_char c) = Py.lower_char c.
Proof. destruct c as [[] [] [] [] [] [] [] []]; reflexivity. Qed.

Lemma lower_idempotent (s : string) : Py.lower (Py.lower s) = Py.lower s.
Proof.
  induction s as [|c s IH]; simpl; [reflexivity|].
  now rewrite lower_char_idempotent, IH.
Qed.

Lemma lower_starts_clean (s : string) :
  starts_clean Py.is_space (Py.lower s) = starts_clean Py.is_space s.
Proof.
  destruct s as [|c s]; simpl; [reflexivity|].
  now rewrite is_space_lower_char.
Qed.

Lemma lower_ends_clean (s : string) :
  ends_clean Py.is_space (Py.lower s) = ends_clean Py.is_space s.
Proof.
  induction s as [|c s IH]; [reflexivity|].
  destruct s as [|d s].
  - simpl. now rewrite is_space_lower_char.
  - exact IH.
Qed.

Lemma collapse_starts_clean (s : string) :
  starts_clean Py.is_space s = true ->
  starts_clean Py.is_space (Py.collapse_ws s) = true.
Proof.
  destruct s as [|c s]; simpl; [reflexivity|].
  destruct (Py.is_space c) eqn:Hc; [discriminate|].
  intros _. simpl. now rewrite Hc.
Qed.

Lemma collapse_ends_clean (s : string) :
  ends_clean Py.is_space s = true ->
  ends_clean Py.is_space (Py.collapse_ws s) = true.
Proof.
  induction s as [|c s IH]; [reflexivity|].
  destruct s as [|d s].
  - simpl. destruct (Py.is_space c) eqn:Hc; [discriminate|].
    intros _. simpl. now rewrite Hc.
  - intros He. specialize (IH He).
    change (Py.collapse_ws (String c (String d s)))
      with (if Py.is_space c
            then if Py.is_space d then Py.collapse_ws (String d s)
                 else String " " (Py.collapse_ws (String d s))
            else String c (Py.collapse_ws (String d s))).
    assert (Hne : Py.collapse_ws (String d s) <> "").
    { intros Hc. apply (proj1 (collapse_ws_empty _)) in Hc. discriminate. }
    destruct (Py.is_space c); [destruct (Py.is_space d)|].
    + exact IH.
    + destruct (Py.collapse_ws (String d s)); [congruence | exact IH].
    + destruct (Py.collapse_ws (String d s)); [congruence | exact IH].
Qed.

Lemma collapse_lower (s : string) :
  Py.collapse_ws (Py.lower s) = Py.lower (Py.collapse_ws s).
Proof.
  induction s as [|c s IH]; [reflexivity|].
  destruct s as [|d s].
  - simpl. rewrite is_space_lower_char.
    destruct (Py.is_space c); reflexivity.
  - change (Py.lower (String c (String d s)))
      with (String (Py.lower_char c)
              (String (Py.lower_char d) (Py.lower s))).
    change (Py.collapse_ws
              (String (Py.lower_char c) (String (Py.lower_char d) (Py.lower s))))
      with (if Py.is_space (Py.lower_char c)
            then if Py.is_space (Py.lower_char d)
                 then Py.collapse_ws (Py.lower (String d s))
                 else String " " (Py.collapse_ws (Py.lower (String d s)))
            else String (Py.lower_char c)
                   (Py.collapse_ws (Py.lower (String d s)))).
    change (Py.collapse_ws (String c (String d s)))
      with (if Py.is_space c
            then if Py.is_space d then Py.collapse_ws (String d s)
                 else String " " (Py.collapse_ws (String d s))
            else String c (Py.collapse_ws (String d s))).
    rewrite !is_space_lower_char, IH.
    destruct (Py.is_space c); [destruct (Py.is_space d)|]; reflexivity.
Qed.

Lemma collapse_collapsed (s : string) : collapsed (Py.collapse_ws s) = true.
Proof.
  induction s as [|c s IH]; [reflexivity|].
  destruct s as [|d s].
  - simpl. destruct (Py.is_space c) eqn:Hc; simpl; [reflexivity|].
    now rewrite Hc.
  - change (Py.collapse_ws (String c (String d s)))
      with (if Py.is_space c
            then if Py.is_space d then Py.collapse_ws (String d s)
                 else String " " (Py.collapse_ws (String d s))
            else String c (Py.collapse_ws (String d s))).
    destruct (Py.is_space c) eqn:Hc; [destruct (Py.is_space d) eqn:Hd|].
    + exact IH.
    + cbn [collapsed]. rewrite IH.
      replace (starts_clean Py.is_space (Py.collapse_ws (String d s)))
        with true; [reflexivity|].
      symmetry. apply collapse_starts_clean. simpl. now rewrite Hd.
    + cbn [collapsed]. now rewrite Hc, IH.
Qed.

Lemma collapse_of_collapsed (s : string) :
  collapsed s = true -> Py.collapse_ws s = s.
Proof.
  induction s as [|c s IH]; [reflexivity|].
  cbn [collapsed]. intros Hc. apply andb_true_iff in Hc as [Hhead Htail].
  specialize (IH Htail). simpl. rewrite IH.
  destruct (Py.is_space c) eqn:Hsp; [|reflexivity].
  apply andb_true_iff in Hhead as [Heq Hnext].
  apply Ascii.eqb_eq in Heq. subst c.
  destruct s as [|d s]; [reflexivity|].
  simpl in Hnext. now destruct (Py.is_space d).
Qed.

Lemma collapse_idempotent (s : string) :
  Py.collapse_ws (Py.collapse_ws s) = Py.collapse_ws s.
Proof. apply collapse_of_collapsed, collapse_collapsed. Qed.

(** A normalized text has no white space at its ends. *)
Lemma normalize_clean (text : option string) :
  starts_clean Py.is_space (_normalize text) = true
  /\ ends_clean Py.is_space (_normalize text) = true.
Proof.
  destruct text as [t|]; [|split; reflexivity].
  destruct t as [|c t]; [split; reflexivity|].
  change (_normalize (Some (String c t)))
    with (Py.collapse_ws (Py.lower (Py.strip (String c t)))).
  split.
  - apply collapse_starts_clean. rewrite lower_starts_clean.
    apply strip_clean.
  - apply collapse_ends_clean. rewrite lower_ends_clean.
    apply strip_clean.
Qed.

Lemma normalize_fixed (text : option string) :
  _normalize (Some (_normalize text)) = _normalize text.
Proof.
  destruct (normalize_clean text) as [Hs He].
  destruct text as [t|]; [|reflexivity].
  destruct t as [|c t]; [reflexivity|].
  change (_normalize (Some (String c t)))
    with (Py.collapse_ws (Py.lower (Py.strip (String c t)))) in *.
  set (y := Py.lower (Py.strip (String c t))) in *.
  unfold _normalize. destruct (Py.truthy (Py.collapse_ws y)) eqn:Ht.
  - rewrite (strip_of_clean _ Hs He), <- collapse_lower.
    unfold y at 1. rewrite lower_idempotent. apply collapse_idempotent.
  - destruct (Py.collapse_ws y); [reflexivity | discriminate].
Qed.

(** X1.  A normalized text is in lower case, has no white space at its
    ends, and inside only single space characters as white space;
    normalizing it again changes nothing. *)
Theorem normalize_idempotent (text : option string) :
  _normalize (Some (_normalize text)) = _normalize text
  /\ Py.lower (_normalize text) = _normalize text
  /\ starts_clean Py.is_space (_normalize text) = true
  /\ ends_clean Py.is_space (_normalize text) = true
  /\ collapsed (_normalize text) = true.
Proof.
  split; [apply normalize_fixed|].
  destruct (normalize_clean text) as [Hs He].
  split; [|split; [exact Hs|split; [exact He|]]].
  - destruct text as [t|]; [|reflexivity]. unfold _normalize.
    destruct (Py.truthy t); [|reflexivity].
    now rewrite <- collapse_lower, lower_idempotent.
  - destruct text as [t|]; [|reflexivity]. unfold _normalize.
    destruct (Py.truthy t); [|reflexivity]. apply collapse_collapsed.
Qed.

End Normalization.

(** ** The comparator: what does not matter, and what it can answer *)

Section ComparatorMore.

Import MathComparator Shape.

Context `{Sympy}.

(** X2.  The verdict depends on the normalized texts only: case, white
    space at the ends and runs of white space inside never matter, in the
    student's answer, the correct answer or the equivalent forms. *)
Theorem compare_of_normalized (student_answer : option string)
    (correct_answer : string) (qt : QuestionType) (forms : list string) :
  compare student_answer correct_answer qt forms
  = compare (Some (_normalize student_answer))
            (_normalize (Some correct_answer)) qt
            (map (fun f => _normalize (Some f)) forms).
Proof.
  unfold compare. rewrite !normalize_fixed, map_map.
  rewrite (map_ext (fun f => _normalize (Some (_normalize (Some f))))
                   (fun f => _normalize (Some f)))
    by (intros f; apply normalize_fixed).
  destruct forms; reflexivity.
Qed.

Lemma boolean_levels (student correct : string) :
  confidence_levels (_compare_boolean student correct).
Proof.
  unfold _compare_boolean, confidence_levels.
  destruct (to_bool student) as [a|], (to_bool correct) as [b|]; simpl;
    try (destruct (Bool.eqb a b); simpl); auto 10.
Qed.

Lemma numeric_levels (student correct : string) :
  confidence_levels (_compare_numeric student correct).
Proof.
  unfold _compare_numeric, confidence_levels.
  destruct (_parse_math student) as [se|], (_parse_math correct) as [ce|];
    simpl; auto 10.
  destruct (simplify_diff_is_zero se ce) as [[|]|e]; simpl; auto 10.
  destruct (numeric_close se ce) as [[|]|e]; [| |destruct e]; simpl; auto 10.
Qed.

Lemma probability_levels (student correct : string) :
  confidence_levels (_compare_probability student correct).
Proof.
  unfold _compare_probability.
  match goal with
  | |- confidence_levels (if ?b then _ else _) => destruct b
  end.
  - unfold confidence_levels. simpl. auto.
  - apply numeric_levels.
Qed.

Lemma big_o_levels (student correct : string) :
  confidence_levels (_compare_big_o student correct).
Proof.
  unfold _compare_big_o, confidence_levels.
  destruct (negb _ || negb _); simpl; auto 10.
  destruct (String.eqb _ _); simpl; auto 10.
  match goal with
  | |- context [match ?r with Ok _ => _ | Raise _ => _ end] =>
      destruct r as [[|]|e]
  end; simpl; auto 10.
Qed.

Lemma compare_levels (student_answer : option string)
    (correct_answer : string) (qt : QuestionType) (forms : list string) :
  confidence_levels (compare student_answer correct_answer qt forms).
Proof.
  unfold compare.
  destruct (negb _); [unfold confidence_levels; simpl; auto|].
  destruct (String.eqb _ _); [unfold confidence_levels; simpl; auto|].
  match goal with
  | |- confidence_levels (if ?b then _ else _) => destruct b
  end; [unfold confidence_levels; simpl; auto|].
  destruct qt;
    first [ apply boolean_levels | apply numeric_levels
          | apply probability_levels | apply big_o_levels
          | unfold confidence_levels, _compare_multiple_choice; simpl;
            try destruct (String.eqb _ _); simpl; auto 10 ].
Qed.

(** X3.  The confidence of a comparison is one of six values: 1.0 or 0.95
    with a positive verdict, and 1.0, 0.9, 0.8, 0.5 or 0.3 with a negative
    one; so it lies in [0,1], and a positive verdict has at least 0.95. *)
Theorem compare_confidence_levels (student_answer : option string)
    (correct_answer : string) (qt : QuestionType) (forms : list string) :
  confidence_levels (compare student_answer correct_answer qt forms)
  /\ 0 <= snd (compare student_answer correct_answer qt forms) <= 1.
Proof.
  pose proof (compare_levels student_answer correct_answer qt forms) as Hl.
  split; [exact Hl|].
  unfold confidence_levels in Hl.
  destruct (compare student_answer correct_answer qt forms) as [b conf].
  simpl in *. destruct b.
  - destruct Hl as [-> | ->]; split; discriminate.
  - repeat (destruct Hl as [<- | Hl]; [split; discriminate|]). destruct Hl.
Qed.

(** X4.  Without equivalent forms, and for the answer types that do not
    go through SymPy, the verdict does not depend on which of the two
    texts is the student's. *)
Theorem verdict_symmetric (x y : string) (qt : QuestionType) :
  qt <> NUMERIC -> qt <> PROBABILITY -> qt <> BIG_O ->
  fst (compare (Some x) y qt []) = fst (compare (Some y) x qt []).
Proof.
  intros Hn Hp Hb. unfold compare.
  set (a := _normalize (Some x)). set (b := _normalize (Some y)).
  rewrite (String.eqb_sym b a).
  destruct (String.eqb a b) eqn:Hab.
  - apply String.eqb_eq in Hab. rewrite <- Hab.
    destruct (negb (Py.truthy a)); reflexivity.
  - cbn [andb].
    assert (Hbool : fst (_compare_boolean a b) = fst (_compare_boolean b a)).
    { unfold _compare_boolean.
      destruct (to_bool a) as [u|], (to_bool b) as [v|]; simpl;
        try reflexivity.
      now destruct u, v. }
    assert (Hmc : fst (_compare_multiple_choice a b)
                  = fst (_compare_multiple_choice b a)).
    { unfold _compare_multiple_choice. simpl. apply String.eqb_sym. }
    assert (Hea : Py.truthy a = false ->
                  fst (_compare_boolean b a) = false
                  /\ (Py.truthy b = true ->
                      fst (_compare_multiple_choice b a) = false)).
    { destruct a; [|discriminate]. intros _. split.
      - unfold _compare_boolean. now destruct (to_bool b).
      - destruct b; [discriminate|]. reflexivity. }
    assert (Heb : Py.truthy b = false ->
                  fst (_compare_boolean a b) = false
                  /\ (Py.truthy a = true ->
                      fst (_compare_multiple_choice a b) = false)).
    { destruct b; [|discriminate]. intros _. split.
      - unfold _compare_boolean. now destruct (to_bool a).
      - destruct a; [discriminate|]. reflexivity. }
    destruct (Py.truthy a) eqn:Ha, (Py.truthy b) eqn:Hb'; cbn [negb];
      try reflexivity.
    + destruct qt; try congruence; try reflexivity; assumption.
    + destruct (Heb eq_refl) as [H1 H2].
      destruct qt; try congruence; try reflexivity;
        [exact H1 | exact (H2 eq_refl)].
    + destruct (Hea eq_refl) as [H1 H2].
      destruct qt; try congruence; try reflexivity;
        [symmetry; exact H1 | symmetry; exact (H2 eq_refl)].
Qed.

End ComparatorMore.

(** ** The submission parser: what it builds *)

Section ExtractedAnswers.

Import SubmissionParser Shape.

Lemma confidence_range (payload : string) :
  0 <= _calculate_confidence payload <= 1.
Proof.
  unfold _calculate_confidence. destruct (negb (Py.truthy payload)).
  - split; discriminate.
  - rewrite py_max_Qmax, py_min_Qmin. apply clamp_range.
Qed.

Lemma count_char_le_len (c : ascii) (s : string) :
  (Py.count_char c s <= Py.len s)%nat.
Proof.
  unfold Py.len. induction s as [|d s IH]; simpl; [lia|].
  destruct (Ascii.eqb d c); lia.
Qed.

(** A payload cannot be both longer than 200 characters and shorter than
    2, nor shorter than 2 and hold more than two line breaks. *)
Lemma confidence_floor (payload : string) :
  payload <> "" -> Py.float_lit 0.3 <= _calculate_confidence payload.
Proof.
  intros Hne. apply truthy_nonempty in Hne.
  unfold _calculate_confidence. rewrite Hne. cbn [negb].
  pose proof (count_char_le_len newline payload) as Hcount.
  destruct (200 <? Py.len payload)%nat eqn:Hlong,
           (Py.len payload <? 2)%nat eqn:Hshort,
           (2 <? Py.count_char newline payload)%nat eqn:Hlines;
    try (apply Nat.ltb_lt in Hlong); try (apply Nat.ltb_lt in Hshort);
    try (apply Nat.ltb_lt in Hlines); try lia;
    destruct (Py.contains "?" payload);
    intros Hc; vm_compute in Hc; discriminate Hc.
Qed.

(** X5.  A payload that is not empty has a confidence between 0.3 (the
    float) and 1: the deductions that can apply together are at most 0.2,
    0.3 and 0.2, so the lower clamp at 0 is never reached; only the empty
    payload has confidence 0. *)
Theorem confidence_of_nonempty_at_least (payload : string) :
  payload <> "" ->
  Py.float_lit 0.3 <= _calculate_confidence payload <= 1
  /\ _calculate_confidence "" = 0.
Proof.
  intros Hne. split; [|reflexivity]. split.
  - now apply confidence_floor.
  - apply confidence_range.
Qed.

Lemma count_char_lstrip (c : ascii) (p : ascii -> bool) (s : string) :
  (Py.count_char c (Py.lstrip_of p s) <= Py.count_char c s)%nat.
Proof.
  induction s as [|d s IH]; simpl; [lia|].
  destruct (p d); simpl; lia.
Qed.

Lemma count_char_rstrip (c : ascii) (p : ascii -> bool) (s : string) :
  (Py.count_char c (Py.rstrip_of p s) <= Py.count_char c s)%nat.
Proof.
  induction s as [|d s IH]; simpl; [lia|].
  destruct (Py.rstrip_of p s) as [|e r].
  - destruct (p d); simpl; lia.
  - simpl in *. lia.
Qed.

Lemma count_char_strip (c : ascii) (s : string) :
  (Py.count_char c (Py.strip s) <= Py.count_char c s)%nat.
Proof.
  unfold Py.strip.
  pose proof (count_char_rstrip c Py.is_space (Py.lstrip_of Py.is_space s)).
  pose proof (count_char_lstrip c Py.is_space s). lia.
Qed.

(** The first piece of a split holds no separator. *)
Lemma split_first_no_separator (c : ascii) (s : string) :
  Py.count_char c (Py.split_first c s) = 0%nat.
Proof.
  unfold Py.split_first. induction s as [|d s IH]; simpl; [reflexivity|].
  destruct (Ascii.eqb d c) eqn:Hd; [reflexivity|].
  destruct (Py.split_char c s) as [|h t]; simpl; rewrite Hd; simpl.
  - reflexivity.
  - exact IH.
Qed.

Lemma split_first_keeps_start (c d : ascii) (s : string) :
  Ascii.eqb d c = false ->
  exists r, Py.split_first c (String d s) = String d r.
Proof.
  intros Hd. unfold Py.split_first. simpl. rewrite Hd.
  destruct (Py.split_char c s); eauto.
Qed.

Lemma strip_keeps_start (d : ascii) (s : string) :
  Py.is_space d = false -> exists r, Py.strip (String d s) = String d r.
Proof.
  intros Hd. unfold Py.strip. simpl. rewrite Hd. simpl.
  destruct (Py.rstrip_of Py.is_space s); [rewrite Hd|]; eauto.
Qed.

(** The first line of a stripped payload is empty only if the payload
    is. *)
Lemma first_line_empty (payload : string) :
  starts_clean Py.is_space payload = true ->
  Py.strip (Py.split_first newline payload) = "" -> payload = "".
Proof.
  destruct payload as [|d s]; [reflexivity|]. simpl. intros Hd Hl.
  apply negb_true_iff in Hd.
  destruct (split_first_keeps_start newline d s) as (r & Hr).
  { destruct (Ascii.eqb d newline) eqn:He; [|reflexivity].
    apply Ascii.eqb_eq in He. subst d. discriminate. }
  rewrite Hr in Hl.
  destruct (strip_keeps_start d r Hd) as (r' & Hr').
  rewrite Hr' in Hl. discriminate.
Qed.

(** What one match records: a single stripped line, with a confidence
    that is 0 exactly when the line is empty. *)
Lemma match_entry_shape (m : Re.rmatch) :
  let e := match_entry m in
  0 <= snd e <= 1
  /\ Py.count_char newline (fst e) = 0%nat
  /\ Py.strip (fst e) = fst e
  /\ (fst e = "" -> snd e = 0)
  /\ (fst e <> "" -> Py.float_lit 0.3 <= snd e).
Proof.
  unfold match_entry. cbn [fst snd]. split; [apply confidence_range|].
  split.
  { pose proof (count_char_strip newline
                  (Py.split_first newline (match_payload m))) as Hle.
    rewrite split_first_no_separator in Hle. lia. }
  split.
  { apply strip_of_clean; apply strip_clean. }
  split.
  - intros Hl. apply first_line_empty in Hl.
    + now rewrite Hl.
    + unfold match_payload. apply strip_clean.
  - intros Hl. apply confidence_floor.
    intros Hp. apply Hl. now rewrite Hp.
Qed.

Lemma fold_record_found (ms : list Re.rmatch)
    (d : gmap string (string * Q)) (q : string) (e : string * Q) :
  fold_left record_match ms d !! q = Some e ->
  d !! q = Some e \/ exists m, In m ms /\ match_id m = q /\ match_entry m = e.
Proof.
  revert d. induction ms as [|m ms IH]; intros d Hq; simpl in *.
  - now left.
  - destruct (IH _ Hq) as [Hd | (m' & Hin & Hid & He)].
    + unfold record_match in Hd.
      destruct (decide (match_id m = q)) as [Heq | Hne].
      * subst q. rewrite lookup_insert_eq in Hd. right. exists m.
        split; [now left|]. split; [reflexivity | congruence].
      * rewrite lookup_insert_ne in Hd by exact Hne. now left.
    + right. exists m'. split; [now right|]. now split.
Qed.

(** X6.  Every [StudentAnswer] the parser builds satisfies the model's
    constraint on the confidence, carries a parsed value (the cleaned raw
    text), and has as raw text a single stripped line; its confidence is 0
    when the raw text is empty and at least 0.3 otherwise. *)
Theorem extracted_answers_well_formed (text : string)
    (expected_questions : list string) (a : StudentAnswer) :
  In a (_extract_answers text expected_questions) ->
  0 <= confidence a <= 1
  /\ parsed_value a = Some (_clean_answer (raw_text a))
  /\ Py.count_char newline (raw_text a) = 0%nat
  /\ Py.strip (raw_text a) = raw_text a
  /\ (raw_text a = "" -> confidence a = 0)
  /\ (raw_text a <> "" -> Py.float_lit 0.3 <= confidence a).
Proof.
  unfold _extract_answers. intros Hin.
  apply in_map_iff in Hin as (q & <- & _). unfold answer_for.
  destruct (_find_answer_blocks text !! q) as [[raw conf]|] eqn:Hq.
  - unfold _find_answer_blocks in Hq.
    apply fold_record_found in Hq as [Hempty | (m & _ & _ & He)].
    { rewrite lookup_empty in Hempty. discriminate. }
    pose proof (match_entry_shape m) as Hshape. rewrite He in Hshape.
    cbn [fst snd] in Hshape.
    destruct Hshape as (Hr & Hnl & Hst & Hz & Hp).
    cbn [confidence parsed_value raw_text]. auto 10.
  - cbn [confidence parsed_value raw_text].
    split; [split; discriminate|]. split; [reflexivity|].
    split; [reflexivity|]. split; [reflexivity|]. split; [reflexivity|].
    intros Hne. now contradiction Hne.
Qed.

Lemma drop_prefix_clean (text prefix : string) :
  starts_clean Py.is_space text = true ->
  starts_clean Py.is_space (drop_prefix text prefix) = true.
Proof.
  intros Hs. unfold drop_prefix.
  destruct (Py.startswith prefix (Py.lower text)); [|exact Hs].
  apply strip_clean.
Qed.

Lemma rstrip_keeps_start (p q : ascii -> bool) (s : string) :
  starts_clean q s = true -> starts_clean q (Py.rstrip_of p s) = true.
Proof.
  destruct s as [|c s]; simpl; [reflexivity|].
  intros Hc. destruct (Py.rstrip_of p s); [|exact Hc].
  destruct (p c); [reflexivity | exact Hc].
Qed.

(** X7.  A cleaned answer does not start with white space and does not
    end with one of the characters [.,;:]. *)
Theorem clean_answer_ends (raw : string) :
  starts_clean Py.is_space (_clean_answer raw) = true
  /\ ends_clean (Py.one_of ".,;:") (_clean_answer raw) = true.
Proof.
  unfold _clean_answer. destruct (negb (Py.truthy raw)); [split; reflexivity|].
  split; [|apply rstrip_ends_clean].
  apply rstrip_keeps_start.
  assert (Hfold : forall ps t,
            starts_clean Py.is_space t = true ->
            starts_clean Py.is_space (fold_left drop_prefix ps t) = true).
  { induction ps as [|p ps IH]; intros t Ht; simpl; [exact Ht|].
    apply IH. now apply drop_prefix_clean. }
  apply Hfold. apply strip_clean.
Qed.

End ExtractedAnswers.

(** ** Several markers for one id *)

Section LastMarker.

Import SubmissionParser Shape.

Lemma split_char_not_nil (c : ascii) (s : string) : Py.split_char c s <> [].
Proof.
  induction s as [|d s IH]; simpl; [discriminate|].
  destruct (Ascii.eqb d c); [discriminate|].
  destruct (Py.split_char c s); discriminate.
Qed.

(** The first piece of a split is the text up to its first separator. *)
Lemma split_first_prefix (c : ascii) (s : string) :
  exists rest,
    s = Py.split_first c s ++ rest
    /\ (rest = "" \/ exists r, rest = String c r).
Proof.
  unfold Py.split_first. induction s as [|d s IH]; simpl.
  - exists "". split; [reflexivity | now left].
  - destruct (Ascii.eqb d c) eqn:Hd.
    + apply Ascii.eqb_eq in Hd. subst d. exists (String c s).
      split; [reflexivity | right; eauto].
    + destruct (Py.split_char c s) as [|h t] eqn:Hs.
      * exfalso. exact (split_char_not_nil c s Hs).
      * destruct IH as (rest & Hrest & Hshape). exists rest.
        split; [|exact Hshape].
        change (String d h ++ rest) with (String d (h ++ rest)).
        now rewrite <- Hrest.
Qed.

Lemma lstrip_decompose (p : ascii -> bool) (s : string) :
  exists lead,
    s = lead ++ Py.lstrip_of p s /\ ReSem.all_of p lead = true.
Proof.
  unfold ReSem.all_of. induction s as [|c s IH]; simpl.
  - exists "". split; reflexivity.
  - destruct (p c) eqn:Hc.
    + destruct IH as (lead & Hs & Hall). exists (String c lead).
      change (String c lead ++ Py.lstrip_of p s)
        with (String c (lead ++ Py.lstrip_of p s)).
      rewrite <- Hs. simpl. rewrite Hc. auto.
    + exists "". split; reflexivity.
Qed.

Lemma rstrip_decompose (p : ascii -> bool) (s : string) :
  exists trail,
    s = Py.rstrip_of p s ++ trail /\ ReSem.all_of p trail = true.
Proof.
  unfold ReSem.all_of. induction s as [|c s IH]; simpl.
  - exists "". split; reflexivity.
  - destruct IH as (trail & Hs & Hall).
    destruct (Py.rstrip_of p s) as [|d r] eqn:Hr.
    + change ("" ++ trail) with trail in Hs. subst trail.
      destruct (p c) eqn:Hc.
      * exists (String c s). simpl. rewrite Hc. auto.
      * exists s. auto.
    + exists trail. split; [|exact Hall].
      change (String c (String d r) ++ trail)
        with (String c (String d r ++ trail)).
      now rewrite <- Hs.
Qed.

(** [strip] removes white space at the two ends and nothing else. *)
Lemma strip_decompose (s : string) :
  exists lead trail,
    s = lead ++ Py.strip s ++ trail
    /\ ReSem.all_of Py.is_space lead = true
    /\ ReSem.all_of Py.is_space trail = true.
Proof.
  unfold Py.strip.
  destruct (lstrip_decompose Py.is_space s) as (lead & Hs & Hlead).
  destruct (rstrip_decompose Py.is_space (Py.lstrip_of Py.is_space s))
    as (trail & Hl & Htrail).
  exists lead, trail. split; [|auto]. rewrite <- Hl. exact Hs.
Qed.

(** Claim C10.  When several markers of the text resolve to one id, the
    entry recorded for the id is that of the last of them in document
    order, whatever the earlier ones held: its text is the first line of
    the payload of that marker (the payload up to its first line break)
    without the white space at the ends of the line, and its confidence is
    the confidence of that payload. *)
Theorem last_marker_wins (text : string) (pre post : list Re.rmatch)
    (m : Re.rmatch) :
  answer_matches text = (pre ++ m :: post)%list ->
  (forall m', In m' post -> match_id m' <> match_id m) ->
  exists line rest lead recorded trail,
    match_payload m = line ++ rest
    /\ Py.count_char newline line = 0%nat
    /\ (rest = "" \/ exists r, rest = String newline r)
    /\ line = lead ++ recorded ++ trail
    /\ ReSem.all_of Py.is_space lead = true
    /\ ReSem.all_of Py.is_space trail = true
    /\ starts_clean Py.is_space recorded = true
    /\ ends_clean Py.is_space recorded = true
    /\ _find_answer_blocks text !! match_id m
       = Some (recorded, _calculate_confidence (match_payload m)).
Proof.
  intros Hms Hpost.
  destruct (split_first_prefix newline (match_payload m))
    as (rest & Hpayload & Hrest).
  destruct (strip_decompose (Py.split_first newline (match_payload m)))
    as (lead & trail & Hline & Hlead & Htrail).
  destruct (strip_clean (Py.split_first newline (match_payload m)))
    as [Hstart Hend].
  exists (Py.split_first newline (match_payload m)), rest, lead,
    (Py.strip (Py.split_first newline (match_payload m))), trail.
  split; [exact Hpayload|].
  split; [apply split_first_no_separator|].
  split; [exact Hrest|]. split; [exact Hline|].
  split; [exact Hlead|]. split; [exact Htrail|].
  split; [exact Hstart|]. split; [exact Hend|].
  unfold _find_answer_blocks. rewrite Hms.
  now apply fold_record_last.
Qed.

(** Two markers for [1a]: the entry is the first line of the second
    payload, without the spaces at its end, and the confidence of that
    payload, which holds a question mark. *)
Lemma last_marker_wins_witness :
  exists first second third,
    answer_matches Examples.answered_at_length = [first; second; third]
    /\ match_id first = "1a" /\ match_payload first = "True"
    /\ match_id second = "1a"
    /\ match_payload second = "no?  " ++ String "010" "it fails"
    /\ (exists line rest lead recorded trail,
          match_payload second = line ++ rest
          /\ Py.count_char newline line = 0%nat
          /\ (rest = "" \/ exists r, rest = String newline r)
          /\ line = lead ++ recorded ++ trail
          /\ ReSem.all_of Py.is_space lead = true
          /\ ReSem.all_of Py.is_space trail = true
          /\ starts_clean Py.is_space recorded = true
          /\ ends_clean Py.is_space recorded = true
          /\ _find_answer_blocks Examples.answered_at_length
               !! match_id second
             = Some (recorded, _calculate_confidence (match_payload second)))
    /\ _find_answer_blocks Examples.answered_at_length !! "1a"
       = Some ("no?", Py.float_lit 0.7).
Proof.
  destruct (answer_matches Examples.answered_at_length)
    as [|first [|second [|third [|]]]] eqn:Hms;
    try (vm_compute in Hms; discriminate).
  exists first, second, third.
  assert (H1 : match_id first = "1a" /\ match_payload first = "True").
  { vm_compute in Hms. injection Hms as <- _ _. split; reflexivity. }
  assert (H2 : match_id second = "1a"
               /\ match_payload second
                  = "no?  " ++ String "010" "it fails").
  { vm_compute in Hms. injection Hms as _ <- _. split; reflexivity. }
  assert (H3 : match_id third = "2").
  { vm_compute in Hms. injection Hms as _ _ <-. reflexivity. }
  destruct H1 as [H1 H1'], H2 as [H2 H2'].
  split; [reflexivity|].
  split; [exact H1|]. split; [exact H1'|].
  split; [exact H2|]. split; [exact H2'|]. split.
  - apply (last_marker_wins Examples.answered_at_length [first] [third]
             second Hms).
    intros m' [<- | []]. rewrite H3, H2. discriminate.
  - vm_compute. reflexivity.
Defined.

End LastMarker.

(** ** Student ids, [parse] and [parse_batch] *)

Section StudentIds.

Import Re ReSem SubmissionFiles.

(** What a group captures is what its pattern consumed. *)
Lemma captured_text (pos pos' : nat) (w s' : string) :
  pos' = (pos + String.length w)%nat ->
  substring 0 (pos' - pos) (w ++ s') = w.
Proof.
  intros ->. replace (pos + String.length w - pos)%nat
    with (String.length w) by lia.
  apply substring_prefix.
Qed.

Lemma all_of_app (p : ascii -> bool) (a b : string) :
  all_of p (a ++ b) = all_of p a && all_of p b.
Proof.
  unfold all_of. induction a as [|c a IH]; [reflexivity|].
  change (String c a ++ b) with (String c (a ++ b)). simpl.
  now rewrite IH, andb_assoc.
Qed.

(** One or more characters of a class. *)
Lemma matches_plus (g : bool) (p : ascii -> bool) pos s cs pos' s' cs' :
  Matches (plus g p) pos s cs pos' s' cs' ->
  exists c w, s = String c w ++ s' /\ all_of p (String c w) = true
              /\ pos' = (pos + String.length (String c w))%nat /\ cs' = cs.
Proof.
  unfold plus. cbn [Matches]. intros HM. break_matches. subst.
  match goal with
  | Hc : p ?c = true, Hw : all_of p ?w = true |- _ =>
      exists c, w; unfold all_of in *; simpl; rewrite Hc, Hw
  end.
  repeat split. lia.
Qed.

Lemma group_of_plus (n : nat) (g : bool) (p : ascii -> bool)
    pos s cs pos' s' cs' :
  Matches (Grp n (plus g p)) pos s cs pos' s' cs' ->
  exists c w, lookup_group n cs' = Some (String c w)
              /\ all_of p (String c w) = true.
Proof.
  cbn [Matches]. intros (cs1 & HM & ->).
  apply matches_plus in HM as (c & w & -> & Hall & -> & ->).
  exists c, w. cbn [lookup_group]. rewrite Nat.eqb_refl.
  rewrite captured_text by reflexivity. auto.
Qed.

Lemma digit_is_word (c : ascii) : Py.is_digit c = true -> is_word c = true.
Proof.
  unfold is_word. intros ->. now rewrite !orb_true_r.
Qed.

Lemma word_not_space (c : ascii) : is_word c = true -> Py.is_space c = false.
Proof.
  destruct c as [[] [] [] [] [] [] [] []]; vm_compute; intros Hw;
    first [reflexivity | discriminate Hw].
Qed.

(** Each pattern captures a run of word characters that is not empty. *)
Lemma pattern_group_word (p : regex) (filename : string) (m : rmatch) :
  In p patterns -> search p filename = Some m ->
  exists c w, group_text m 1 = String c w
              /\ all_of is_word (String c w) = true.
Proof.
  intros Hp Hs. apply search_from_sound in Hs as (pre & s0 & _ & Hm).
  apply match_here_span in Hm as (w0 & HM & _).
  unfold group_text, group.
  destruct Hp as [<- | [<- | [<- | [<- | []]]]].
  - unfold STUDENT in HM. cbn [cat fold_right] in HM.
    destruct HM as (? & ? & cs1 & Hlit & ? & ? & cs2 & Hopt & ? & ? & cs3
                    & Hgrp & Heps).
    destruct Heps as (_ & _ & ->).
    apply group_of_plus in Hgrp as (c & w & -> & Hall). eauto.
  - unfold SUBMISSION in HM. cbn [cat fold_right] in HM.
    destruct HM as (? & ? & cs1 & Hlit & ? & ? & cs2 & Hopt & ? & ? & cs3
                    & Hgrp & Heps).
    destruct Heps as (_ & _ & ->).
    apply group_of_plus in Hgrp as (c & w & -> & Hall). eauto.
  - unfold THREE_DIGITS in HM. cbn [cat fold_right Matches] in HM.
    break_matches. subst.
    match goal with
    | Hcaps : m_caps m = _, Hend : m_end m = _ |- _ =>
        rewrite Hcaps, Hend
    end.
    cbn [lookup_group Nat.eqb].
    match goal with
    | |- context [substring 0 ?n (String ?a (String ?b (String ?c (?w ++ ?s))))] =>
        exists a, (String b (String c w));
        replace n with (3 + String.length w)%nat by lia;
        cbn [substring Nat.add]; rewrite substring_prefix;
        split; [reflexivity|]; unfold all_of in *; simpl
    end.
    repeat match goal with
           | Hd : Py.is_digit _ = true |- _ =>
               apply digit_is_word in Hd; rewrite Hd; clear Hd
           end.
    simpl.
    match goal with
    | Hw : forallb Py.is_digit ?l = true |- forallb is_word ?l = true =>
        apply forallb_forall; intros x Hx; apply digit_is_word;
        exact (proj1 (forallb_forall _ _) Hw x Hx)
    end.
  - unfold LAST_PART in HM. cbn [cat fold_right] in HM.
    destruct HM as (? & ? & cs1 & Hch & ? & ? & cs2 & Hgrp & ? & ? & cs3
                    & Heos & Heps).
    destruct Heps as (_ & _ & ->). cbn [Matches] in Heos.
    destruct Heos as (_ & _ & _ & ->).
    apply group_of_plus in Hgrp as (c & w & -> & Hall). eauto.
Qed.

Lemma first_group_word (ps : list regex) (filename sid : string) :
  (forall p, In p ps -> In p patterns) ->
  first_group ps filename = Some sid ->
  exists c w, sid = String c w /\ all_of is_word (String c w) = true.
Proof.
  induction ps as [|p ps IH]; intros Hps Hf; simpl in Hf; [discriminate|].
  destruct (search p filename) as [m|] eqn:Hs.
  - injection Hf as <-. apply (pattern_group_word p filename m).
    + apply Hps. now left.
    + exact Hs.
  - apply IH; [|exact Hf]. intros q Hq. apply Hps. now right.
Qed.

(** The student id taken from a file name is the file name itself, when
    no pattern matches, or a run of word characters that is not empty. *)
Lemma student_id_cases (filename : string) :
  _extract_student_id filename = filename
  \/ exists c w, _extract_student_id filename = String c w
                 /\ all_of is_word (String c w) = true.
Proof.
  unfold _extract_student_id.
  destruct (first_group patterns filename) as [sid|] eqn:Hf; [|now left].
  right. apply (first_group_word patterns filename sid); auto.
Qed.

(** X8.  The student id extracted from a file name is never blank unless
    the file name itself is taken (no pattern matched) and is blank: an
    id found by a pattern is a run of letters, digits and underscores
    that is not empty. *)
Theorem student_id_shape (filename : string) :
  (_extract_student_id filename = filename
   \/ (_extract_student_id filename <> ""
       /\ all_of is_word (_extract_student_id filename) = true))
  /\ (all_of Py.is_space (_extract_student_id filename) = true ->
      _extract_student_id filename = filename).
Proof.
  destruct (student_id_cases filename) as [Hsame | (c & w & Hid & Hall)].
  - split; [now left | auto].
  - split.
    + right. rewrite Hid. split; [discriminate | exact Hall].
    + rewrite Hid. unfold all_of in *. simpl in *. intros Hsp.
      apply andb_true_iff in Hall as [Hc _].
      apply andb_true_iff in Hsp as [Hc' _].
      apply word_not_space in Hc. congruence.
Qed.

End StudentIds.

Section Parse.

Import ReSem SubmissionFiles Submissions.

(** The validator accepts exactly the ids that are not blank. *)
Lemma student_id_not_empty_ok (v : string) :
  all_of Py.is_space v = false -> student_id_not_empty v = Ok (Py.strip v).
Proof.
  intros Hv. unfold student_id_not_empty.
  assert (Hs : Py.strip v <> "").
  { intros Hs. unfold Py.strip in Hs. apply rstrip_empty in Hs.
    rewrite lstrip_all in Hs. congruence. }
  apply truthy_nonempty in Hs. rewrite Hs.
  destruct v; [discriminate | reflexivity].
Qed.

Lemma student_id_not_empty_blank (v : string) :
  all_of Py.is_space v = true ->
  student_id_not_empty v = Raise ValidationError.
Proof.
  intros Hv. unfold student_id_not_empty.
  assert (Hs : Py.strip v = "").
  { unfold Py.strip. apply rstrip_empty. now rewrite lstrip_all. }
  rewrite Hs. simpl. now rewrite orb_true_r.
Qed.

(** X9.  Without an explicit student id, [parse] returns a submission
    exactly when the file exists, the reader returns its text and the id
    taken from the file name is not blank; the submission then carries the
    stripped id, the key's assignment id, the path, and the extracted
    answers. *)
Theorem parse_outcome (pdf : document) (rubric : Rubric) :
  let sid := _extract_student_id (doc_stem pdf) in
  (forall sub,
     parse pdf rubric None = Ok sub <->
     exists raw_text,
       doc_read pdf = Some (Ok raw_text)
       /\ all_of Py.is_space sid = false
       /\ sub = {| student_id := Py.strip sid;
                   student_name := None;
                   assignment_id := rubric_assignment_id rubric;
                   file_path := doc_path pdf;
                   answers := SubmissionParser.parsed_answers raw_text
                                rubric |})
  /\ (doc_read pdf = None -> parse pdf rubric None = Raise OtherException)
  /\ (forall e, doc_read pdf = Some (Raise e) ->
                parse pdf rubric None = Raise e).
Proof.
  cbn zeta. unfold parse, new_Submission.
  split; [|split].
  - intros sub. split.
    + destruct (doc_read pdf) as [[raw_text|e]|]; try discriminate.
      cbn [rbind].
      destruct (all_of Py.is_space (_extract_student_id (doc_stem pdf)))
        eqn:Hb.
      * rewrite (student_id_not_empty_blank _ Hb). discriminate.
      * rewrite (student_id_not_empty_ok _ Hb). cbn [rbind].
        intros [= <-]. exists raw_text. auto.
    + intros (raw_text & -> & Hb & ->). cbn [rbind].
      rewrite (student_id_not_empty_ok _ Hb). reflexivity.
  - intros ->. reflexivity.
  - intros e ->. reflexivity.
Qed.

Lemma parse_batch_loop_acc (pdf_files : list document) (rubric : Rubric)
    (acc : list Submission) :
  parse_batch_loop pdf_files rubric acc
  = (acc ++ parse_batch_loop pdf_files rubric [])%list.
Proof.
  revert acc. induction pdf_files as [|pdf rest IH]; intros acc; simpl.
  - now rewrite app_nil_r.
  - destruct (parse pdf rubric None) as [sub|e].
    + rewrite (IH (acc ++ [sub])%list), (IH [sub]), <- app_assoc.
      reflexivity.
    + apply IH.
Qed.

Lemma parse_batch_cons (pdf : document) (rest : list document)
    (rubric : Rubric) :
  parse_batch (pdf :: rest) rubric
  = match parse pdf rubric None with
    | Ok sub => sub :: parse_batch rest rubric
    | Raise _ => parse_batch rest rubric
    end.
Proof.
  unfold parse_batch. simpl. destruct (parse pdf rubric None) as [sub|e].
  - now rewrite parse_batch_loop_acc.
  - reflexivity.
Qed.

Lemma parse_batch_app (l1 l2 : list document) (rubric : Rubric) :
  parse_batch (l1 ++ l2) rubric
  = (parse_batch l1 rubric ++ parse_batch l2 rubric)%list.
Proof.
  induction l1 as [|pdf l1 IH]; [reflexivity|].
  change ((pdf :: l1) ++ l2)%list with (pdf :: (l1 ++ l2))%list.
  rewrite !parse_batch_cons, IH.
  now destruct (parse pdf rubric None).
Qed.

(** X10.  In a batch, a file whose [parse] raises is left out without any
    effect on the others, and a file that parses contributes its
    submission at its place: the result is the submissions of the files
    that parse, in the order of the listing. *)
Theorem parse_batch_isolation (before after : list document)
    (pdf : document) (rubric : Rubric) :
  (forall e, parse pdf rubric None = Raise e ->
             parse_batch (before ++ pdf :: after) rubric
             = parse_batch (before ++ after) rubric)
  /\ (forall sub, parse pdf rubric None = Ok sub ->
                  parse_batch (before ++ pdf :: after) rubric
                  = (parse_batch before rubric
                     ++ sub :: parse_batch after rubric)%list).
Proof.
  split.
  - intros e He. rewrite !parse_batch_app, parse_batch_cons, He.
    reflexivity.
  - intros sub Hs. rewrite parse_batch_app, parse_batch_cons, Hs.
    reflexivity.
Qed.

Lemma parse_batch_members (pdf_files : list document) (rubric : Rubric)
    (sub : Submission) :
  In sub (parse_batch pdf_files rubric) ->
  exists pdf, In pdf pdf_files /\ parse pdf rubric None = Ok sub.
Proof.
  induction pdf_files as [|pdf rest IH]; [intros []|].
  rewrite parse_batch_cons.
  destruct (parse pdf rubric None) as [s|e] eqn:Hp.
  - intros [<- | Hin].
    + exists pdf. split; [now left | exact Hp].
    + destruct (IH Hin) as (d & Hd & Hs). exists d. split; [now right|auto].
  - intros Hin. destruct (IH Hin) as (d & Hd & Hs).
    exists d. split; [now right | auto].
Qed.

End Parse.

(** ** The engine on what the parser builds, and in batches *)

Section Pipeline.

Import GradingEngine Batch SubmissionFiles.

Context `{Sympy}.

(** Every answer the parser builds carries a parsed value. *)
Lemma parsed_submission_gradable (pdf : document) (rubric : Rubric)
    (student : option string) (sub : Submission) :
  parse pdf rubric student = Ok sub -> Spec.parsed_when_graded sub.
Proof.
  unfold parse, Submissions.new_Submission.
  destruct (doc_read pdf) as [[raw_text|e]|]; try discriminate.
  cbn [rbind]. destruct (Submissions.student_id_not_empty _);
    [|discriminate].
  cbn [rbind]. intros [= <-] ans Hin _. cbn [answers] in Hin.
  unfold SubmissionParser._extract_answers in Hin.
  apply in_map_iff in Hin as (q & <- & _).
  unfold SubmissionParser.answer_for.
  destruct (_ !! q) as [[raw conf]|]; discriminate.
Qed.

Lemma gradable_returns (sub : Submission) (rubric : Rubric) :
  Spec.parsed_when_graded sub ->
  exists r,
    outcome (grade sub rubric) = Ok r
    /\ map qg_question_id (question_grades r)
       = SubmissionParser._get_expected_questions rubric
    /\ gr_student_id r = student_id sub.
Proof.
  intros Hp.
  destruct (grade_questions_total sub rubric (questions rubric) Hp
              ([], base_points rubric)) as ([qgs score] & Hrun).
  eexists. split.
  { apply grade_ok_inv. exists qgs, score. split; [exact Hrun|reflexivity]. }
  apply grade_questions_spec in Hrun as (gs & Hfst & _ & Hids).
  simpl in Hfst. subst qgs. split; [exact Hids | reflexivity].
Qed.

(** X11.  Grading a submission that [parse] returned never raises: the
    engine returns a result for the parsed student, with one grade per
    sub-question of the key, in key order. *)
Theorem parsed_submission_is_graded (pdf : document) (rubric : Rubric)
    (student : option string) (sub : Submission) :
  parse pdf rubric student = Ok sub ->
  exists r,
    outcome (grade sub rubric) = Ok r
    /\ map qg_question_id (question_grades r)
       = SubmissionParser._get_expected_questions rubric
    /\ gr_student_id r = student_id sub.
Proof.
  intros Hp. apply gradable_returns.
  exact (parsed_submission_gradable _ _ _ _ Hp).
Qed.

Lemma grade_batch_loop_ok (submissions : list Submission) (rubric : Rubric) :
  forall acc rs,
    outcome (grade_batch_loop submissions rubric acc) = Ok rs <->
    exists tail,
      rs = (acc ++ tail)%list
      /\ Forall2 (fun s r => outcome (grade s rubric) = Ok r)
                 submissions tail.
Proof.
  induction submissions as [|s rest IH]; intros acc rs; simpl.
  - split.
    + intros [= <-]. exists []. rewrite app_nil_r. split; [reflexivity|].
      constructor.
    + intros (tail & -> & Hf). inversion Hf. now rewrite app_nil_r.
  - rewrite outcome_bind_ok. split.
    + intros (r & Hr & Hrest). apply IH in Hrest as (tail & -> & Hf).
      exists (r :: tail). rewrite <- app_assoc. split; [reflexivity|].
      now constructor.
    + intros (tail & -> & Hf). inversion Hf as [|? r ? tail' Hr Hf']; subst.
      exists r. split; [exact Hr|]. apply IH. exists tail'.
      rewrite <- app_assoc. auto.
Qed.

(** X12.  [grade_batch] returns results exactly when [grade] returns one
    for every submission, and then they are the results of the
    submissions, one each and in order; the first submission on which
    [grade] raises makes the whole batch raise the same exception. *)
Theorem grade_batch_all_or_nothing (submissions : list Submission)
    (rubric : Rubric) :
  (forall rs,
     outcome (grade_batch submissions rubric) = Ok rs <->
     Forall2 (fun s r => outcome (grade s rubric) = Ok r) submissions rs)
  /\ (forall done s rest e,
        submissions = (done ++ s :: rest)%list ->
        Forall (fun s' => exists r, outcome (grade s' rubric) = Ok r) done ->
        outcome (grade s rubric) = Raise e ->
        outcome (grade_batch submissions rubric) = Raise e).
Proof.
  split.
  - intros rs. unfold grade_batch. rewrite grade_batch_loop_ok. split.
    + intros (tail & -> & Hf). exact Hf.
    + intros Hf. exists rs. auto.
  - intros done s rest e -> Hdone He. unfold grade_batch.
    generalize (@nil GradeResult) as acc.
    induction Hdone as [|s' done (r & Hr) _ IH]; intros acc; simpl.
    + now apply outcome_bind_raise.
    + rewrite (outcome_bind_step _ _ r Hr). apply IH.
Qed.

(** X13.  Grading the batch that [parse_batch] returns never raises, and
    gives one result per parsed submission. *)
Theorem parsed_batch_is_graded (pdf_files : list document)
    (rubric : Rubric) :
  exists rs,
    outcome (grade_batch (parse_batch pdf_files rubric) rubric) = Ok rs
    /\ Forall2 (fun s r => outcome (grade s rubric) = Ok r
                           /\ gr_student_id r = student_id s)
               (parse_batch pdf_files rubric) rs.
Proof.
  assert (Hall : Forall Spec.parsed_when_graded
                   (parse_batch pdf_files rubric)).
  { apply Forall_forall. intros sub Hin.
    apply list_elem_of_In in Hin.
    apply parse_batch_members in Hin as (pdf & _ & Hp).
    exact (parsed_submission_gradable _ _ _ _ Hp). }
  induction Hall as [|s l Hs _ (rs & Hrun & Hf)].
  - exists []. split; [reflexivity | constructor].
  - destruct (gradable_returns s rubric Hs) as (r & Hr & _ & Hid).
    exists (r :: rs). split.
    + unfold grade_batch in *. apply grade_batch_loop_ok.
      exists (r :: rs). split; [reflexivity|]. constructor; [exact Hr|].
      apply grade_batch_loop_ok in Hrun as (tail & -> & Hf').
      exact Hf'.
    + constructor; [split; assumption | exact Hf].
Qed.

End Pipeline.

(** ** The engine: grades, rules, feedback and the comparator's log *)

Section EngineMore.

Import GradingEngine RubricParser Shape Expected.

Context `{Sympy}.

(** The three ways [_grade_question] returns a grade. *)
Lemma grade_question_cases (sq : SubQuestion) (a : option StudentAnswer)
    (rubric : Rubric) (g : QuestionGrade) :
  outcome (_grade_question sq a rubric) = Ok g ->
  (is_correct g = false /\ points_earned g = 0
   /\ points_possible g = sq_points sq
   /\ correct_answer g = value (solution sq)
   /\ (feedback g = "No answer provided."
       \/ feedback g
          = "Could not reliably extract answer. Flagged for manual review."))
  \/ exists ans p,
       a = Some ans /\ parsed_value ans = Some p
       /\ let verdict :=
            MathComparator.compare (Some p) (value (solution sq))
              (question_type sq) (equivalent_forms (solution sq)) in
          g = {| qg_question_id := sq_id sq;
                 points_earned :=
                   _apply_grading_rule (fst verdict) (grading_rule sq)
                     (sq_points sq);
                 points_possible := sq_points sq;
                 qg_student_answer := p;
                 correct_answer := value (solution sq);
                 is_correct := fst verdict;
                 feedback :=
                   _generate_feedback (fst verdict) (Some p)
                     (value (solution sq)) (question_type sq);
                 grading_notes :=
                   if Py.Qltb (snd verdict) 0.7
                   then Some "Answer comparison uncertain" else None |}.
Proof.
  unfold _grade_question.
  destruct a as [a|]; [|intros [= <-]; left; cbn; auto 10].
  destruct (Py.truthy (raw_text a)); cbn [negb];
    [|intros [= <-]; left; cbn; auto 10].
  destruct (Py.Qltb (confidence a) 0.5);
    [intros [= <-]; left; cbn; auto 10|].
  unfold comparator_compare, bind, lift, outcome.
  destruct (parsed_value a) as [p|] eqn:Hp.
  - destruct (MathComparator.compare _ _ _ _) as [c conf] eqn:Hc.
    cbn. intros [= <-]. right. exists a, p.
    split; [reflexivity|]. split; [exact Hp|]. cbn. rewrite Hc. reflexivity.
  - destruct (MathComparator.compare _ _ _ _) as [c conf]. cbn.
    discriminate.
Qed.

Lemma incorrect_feedback_differs (student : option string)
    (right_answer : string) (qt : QuestionType) :
  _generate_feedback false student right_answer qt <> "✓ Correct!".
Proof.
  unfold _generate_feedback. intros Heq.
  apply (f_equal (String.get 2)) in Heq. vm_compute in Heq. discriminate.
Qed.

(** X14.  Every grade [_grade_question] returns is worth the
    sub-question's points and quotes the key's answer.  A grade marked
    correct carries no note for the reviewer, the feedback for a correct
    answer, and the points the rule gives for a correct answer; a grade not
    marked correct has another feedback and earns 0, or, under a
    per-item-penalty rule, the larger of the rule's floor and its
    points-if-incorrect. *)
Theorem question_grade_invariants (sq : SubQuestion)
    (a : option StudentAnswer) (rubric : Rubric) (g : QuestionGrade) :
  outcome (_grade_question sq a rubric) = Ok g ->
  points_possible g = sq_points sq
  /\ correct_answer g = value (solution sq)
  /\ (is_correct g = true ->
      grading_notes g = None
      /\ feedback g = "✓ Correct!"
      /\ points_earned g
         = _apply_grading_rule true (grading_rule sq) (sq_points sq))
  /\ (is_correct g = false ->
      feedback g <> "✓ Correct!"
      /\ (points_earned g = 0
          \/ rule_type (grading_rule sq) = PER_ITEM_PENALTY
             /\ points_earned g
                = Py.max (minimum_score (grading_rule sq))
                         (points_incorrect (grading_rule sq)))).
Proof.
  intros Hg.
  apply grade_question_cases in Hg
    as [(Hc & He & Hp & Hk & Hf) | (ans & p & _ & _ & Hg)].
  - split; [exact Hp|]. split; [exact Hk|]. split; [congruence|].
    intros _. split; [|now left].
    destruct Hf as [-> | ->]; discriminate.
  - cbv zeta in Hg.
    pose proof (compare_levels (Some p) (value (solution sq))
                  (question_type sq) (equivalent_forms (solution sq)))
      as Hl.
    unfold confidence_levels in Hl.
    destruct (MathComparator.compare _ _ _ _) as [c conf].
    cbn [fst snd] in *. subst g. cbn.
    split; [reflexivity|]. split; [reflexivity|]. split.
    + intros ->. split; [|split; reflexivity].
      destruct Hl as [-> | ->]; reflexivity.
    + intros ->. split; [apply incorrect_feedback_differs|].
      unfold _apply_grading_rule.
      destruct (rule_type (grading_rule sq)); auto.
Qed.

(** X15.  A rule read from the key's text never gives negative points
    for a sub-question worth at least 0; under a per-item-penalty rule from
    the key a wrong answer earns the rule's floor, not the penalty, and a
    right one at least 1, whatever the sub-question is worth. *)
Theorem parsed_rule_never_negative (text : string) :
  exists rule,
    _extract_grading_rule text = Ok rule
    /\ forall (correct : bool) (max_points : Q),
         0 <= max_points ->
         0 <= _apply_grading_rule correct rule max_points
         /\ (rule_type rule = PER_ITEM_PENALTY ->
             _apply_grading_rule false rule max_points = minimum_score rule
             /\ 1 <= _apply_grading_rule true rule max_points).
Proof.
  unfold _extract_grading_rule.
  destruct (Re.search GRADING_NOTE text) as [m|].
  - destruct (Py.contains "+1" _ && Py.contains "-1" _).
    + destruct (minimum_of_nonneg (Py.lower (Re.group_text m 1)))
        as (x & Hx & Hpos).
      rewrite Hx. cbn [rbind]. eexists. split; [reflexivity|].
      intros correct max_points Hmax.
      assert (Hwrong : Py.max x (-1) = x).
      { unfold Py.max.
        destruct (Py.Qltb x (-1)) eqn:Hlt; [|reflexivity].
        apply Qltb_lt in Hlt. exfalso.
        apply (Qlt_not_le _ _ Hlt).
        apply Qle_trans with 0; [discriminate | exact Hpos]. }
      assert (Hright : 1 <= Py.max x 1).
      { rewrite py_max_Qmax. apply Q.le_max_r. }
      unfold _apply_grading_rule. cbn. split.
      * destruct correct.
        -- apply Qle_trans with 1; [discriminate | exact Hright].
        -- rewrite Hwrong. exact Hpos.
      * intros _. split; [exact Hwrong | exact Hright].
    + destruct (Py.contains "partial" _); eexists; (split; [reflexivity|]);
        intros correct max_points Hmax; unfold _apply_grading_rule; cbn;
        (split; [destruct correct; [exact Hmax | apply Qle_refl]
                |discriminate]).
  - eexists. split; [reflexivity|].
    intros correct max_points Hmax. unfold _apply_grading_rule. cbn.
    split; [destruct correct; [exact Hmax | apply Qle_refl] | discriminate].
Qed.

Lemma fold_feedback_prefix (l : list QuestionGrade) (init : string) :
  exists rest,
    fold_left (fun fb qg => fb ++ feedback_line qg) l init = init ++ rest.
Proof.
  revert init. induction l as [|g l IH]; intros init; simpl.
  - exists "". clear. induction init as [|c s IHs]; [reflexivity|].
    change (String c s ++ "") with (String c (s ++ "")). now rewrite <- IHs.
  - destruct (IH (init ++ feedback_line g)) as (rest & ->).
    exists (feedback_line g ++ rest). apply append_assoc.
Qed.

(** X16.  The overall feedback is the sentence of praise exactly when no
    grade is marked incorrect (so also when there is no grade at all). *)
Theorem overall_feedback_praise (qgs : list QuestionGrade) :
  _generate_overall_feedback qgs = "Excellent work! All answers are correct."
  <-> forallb is_correct qgs = true.
Proof.
  unfold _generate_overall_feedback.
  assert (Hfilter : filter (fun qg => negb (is_correct qg)) qgs = []
                    <-> forallb is_correct qgs = true).
  { induction qgs as [|g l IH]; [split; reflexivity|].
    rewrite filter_cons. simpl. destruct (is_correct g); simpl.
    - exact IH.
    - split; discriminate. }
  destruct (filter (fun qg => negb (is_correct qg)) qgs) as [|g l] eqn:Hf.
  - split; [intros _; now apply Hfilter | reflexivity].
  - split.
    + intros Heq. exfalso.
      destruct (fold_feedback_prefix (g :: l)
                  ("Overall good effort. Areas for improvement:"
                   ++ String "010" "")) as (rest & Hrest).
      rewrite Hrest in Heq.
      apply (f_equal (String.get 0)) in Heq. vm_compute in Heq.
      discriminate.
    + intros Hall. apply Hfilter in Hall. discriminate.
Qed.

Lemma calls_bind {A B : Type} (m : Eng A) (f : A -> Eng B) :
  calls (bind m f)
  = (calls m ++ match outcome m with
                | Ok a => calls (f a)
                | Raise _ => []
                end)%list.
Proof.
  unfold calls, outcome, bind. destruct m as [[a|e] log]; simpl.
  - now destruct (f a).
  - now rewrite app_nil_r.
Qed.

(** The comparator is asked exactly for the answers with raw text and
    confidence at least 0.5, whether or not a grade can then be built. *)
Lemma grade_question_calls (sub : Submission) (sq : SubQuestion)
    (rubric : Rubric) :
  calls (_grade_question sq (get_answer sub (sq_id sq)) rubric)
  = call_of sub sq.
Proof.
  unfold _grade_question, call_of, Spec.auto_graded.
  destruct (get_answer sub (sq_id sq)) as [a|]; [|reflexivity].
  destruct (Py.truthy (raw_text a)); cbn [negb andb]; [|reflexivity].
  destruct (Py.Qltb (confidence a) 0.5); cbn [negb]; [reflexivity|].
  rewrite calls_bind. unfold comparator_compare at 1 2. cbn [calls outcome fst snd].
  destruct (MathComparator.compare _ _ _ _) as [c conf].
  unfold lift, calls. cbn. reflexivity.
Qed.

Lemma grade_sub_questions_calls (sub : Submission) (rubric : Rubric)
    (sqs : list SubQuestion) :
  forall st,
    (exists rest,
       flat_map (call_of sub) sqs
       = (calls (grade_sub_questions sub rubric sqs st) ++ rest)%list)
    /\ (forall st',
          outcome (grade_sub_questions sub rubric sqs st) = Ok st' ->
          calls (grade_sub_questions sub rubric sqs st)
          = flat_map (call_of sub) sqs).
Proof.
  induction sqs as [|sq sqs IH]; intros st.
  - split; [exists []; reflexivity | reflexivity].
  - cbn [grade_sub_questions flat_map]. rewrite calls_bind.
    rewrite grade_question_calls.
    destruct (outcome (_grade_question sq (get_answer sub (sq_id sq)) rubric))
      as [g|e] eqn:Hg.
    + destruct (IH ((fst st ++ [g])%list,
                    Py.fadd (snd st) (points_earned g)))
        as [(rest & Hrest) Hok].
      split.
      * exists rest. rewrite Hrest. now rewrite app_assoc.
      * intros st' Hst'. apply outcome_bind_ok in Hst' as (g' & Hg' & Hrun).
        rewrite Hg in Hg'. injection Hg' as <-.
        now rewrite (Hok _ Hrun).
    + split.
      * exists (flat_map (call_of sub) sqs). now rewrite app_nil_r.
      * intros st' Hst'. apply outcome_bind_ok in Hst' as (g' & Hg' & _).
        congruence.
Qed.

Lemma grade_questions_calls (sub : Submission) (rubric : Rubric)
    (qs : list Question) :
  forall st,
    (exists rest,
       flat_map (call_of sub) (flat_map sub_questions qs)
       = (calls (grade_questions sub rubric qs st) ++ rest)%list)
    /\ (forall st',
          outcome (grade_questions sub rubric qs st) = Ok st' ->
          calls (grade_questions sub rubric qs st)
          = flat_map (call_of sub) (flat_map sub_questions qs)).
Proof.
  induction qs as [|q qs IH]; intros st.
  - split; [exists []; reflexivity | reflexivity].
  - cbn [grade_questions flat_map]. rewrite calls_bind, flat_map_app.
    destruct (grade_sub_questions_calls sub rubric (sub_questions q) st)
      as [(rest1 & Hrest1) Hok1].
    destruct (outcome (grade_sub_questions sub rubric (sub_questions q) st))
      as [st1|e] eqn:H1.
    + rewrite (Hok1 _ eq_refl).
      destruct (IH st1) as [(rest & Hrest) Hok]. split.
      * exists rest. rewrite Hrest. now rewrite app_assoc.
      * intros st' Hst'. apply outcome_bind_ok in Hst' as (st1' & H1' & Hrun).
        rewrite H1 in H1'. injection H1' as <-. now rewrite (Hok _ Hrun).
    + split.
      * exists (rest1 ++ flat_map (call_of sub) (flat_map sub_questions qs))%list.
        rewrite app_nil_r, Hrest1. now rewrite app_assoc.
      * intros st' Hst'. apply outcome_bind_ok in Hst' as (st1' & H1' & _).
        congruence.
Qed.

(** X17.  The comparisons [grade] asks for are an initial part of the
    expected ones: one per sub-question of the key whose answer has raw
    text and confidence at least 0.5, in key order, with the parsed value
    and the key's answer, type and equivalent forms.  When [grade] returns
    a result they are all of them. *)
Theorem grade_comparator_log (sub : Submission) (rubric : Rubric) :
  (exists rest,
     expected_calls sub rubric = (calls (grade sub rubric) ++ rest)%list)
  /\ (forall r, outcome (grade sub rubric) = Ok r ->
                calls (grade sub rubric) = expected_calls sub rubric).
Proof.
  unfold grade, expected_calls. rewrite calls_bind.
  destruct (grade_questions_calls sub rubric (questions rubric)
              ([], base_points rubric)) as [(rest & Hrest) Hok].
  destruct (outcome (grade_questions sub rubric (questions rubric)
                       ([], base_points rubric))) as [[qgs score]|e] eqn:Hrun.
  - rewrite (Hok _ eq_refl). cbn [calls ret snd]. rewrite app_nil_r.
    split; [exists []; now rewrite app_nil_r | reflexivity].
  - rewrite app_nil_r. split; [exists rest; exact Hrest|].
    intros r Hr. apply outcome_bind_ok in Hr as (st & Hst & _). congruence.
Qed.

End EngineMore.

(** ** What [grade] reads of a submission *)

Section Reads.

Import GradingEngine.

Context `{Sympy}.

Lemma bind_ext {A B : Type} (m : Eng A) (f f' : A -> Eng B) :
  (forall a, f a = f' a) -> bind m f = bind m f'.
Proof.
  intros Hf. unfold bind. destruct m as [[a|e] log]; [|reflexivity].
  now rewrite Hf.
Qed.

Lemma grade_sub_questions_ext (sub1 sub2 : Submission) (rubric : Rubric)
    (sqs : list SubQuestion) :
  (forall sq, In sq sqs ->
              get_answer sub1 (sq_id sq) = get_answer sub2 (sq_id sq)) ->
  forall st,
    grade_sub_questions sub1 rubric sqs st
    = grade_sub_questions sub2 rubric sqs st.
Proof.
  induction sqs as [|sq sqs IH]; intros Hsame st; [reflexivity|].
  cbn [grade_sub_questions]. rewrite (Hsame sq) by now left.
  apply bind_ext. intros g. apply IH. intros sq' Hin. apply Hsame.
  now right.
Qed.

Lemma grade_questions_ext (sub1 sub2 : Submission) (rubric : Rubric)
    (qs : list Question) :
  (forall q, In q (flat_map (fun question =>
                               map sq_id (sub_questions question)) qs) ->
             get_answer sub1 q = get_answer sub2 q) ->
  forall st,
    grade_questions sub1 rubric qs st = grade_questions sub2 rubric qs st.
Proof.
  induction qs as [|q qs IH]; intros Hsame st; [reflexivity|].
  cbn [grade_questions].
  rewrite (grade_sub_questions_ext sub1 sub2).
  - apply bind_ext. intros st'. apply IH. intros q' Hin. apply Hsame.
    cbn [flat_map]. apply in_or_app. now right.
  - intros sq Hin. apply Hsame. cbn [flat_map]. apply in_or_app. left.
    now apply in_map.
Qed.

(** X18.  [grade] reads a submission only through its student id, its
    assignment id and, for each sub-question id of the key, the first
    answer recorded for that id: two submissions that agree on these get
    the same result and the same comparisons.  Answers to ids the key does
    not have, and second answers to an id, play no part. *)
Theorem grade_reads_first_answers (sub1 sub2 : Submission)
    (rubric : Rubric) :
  student_id sub1 = student_id sub2 ->
  assignment_id sub1 = assignment_id sub2 ->
  (forall q, In q (SubmissionParser._get_expected_questions rubric) ->
             get_answer sub1 q = get_answer sub2 q) ->
  grade sub1 rubric = grade sub2 rubric.
Proof.
  intros Hsid Haid Hsame. unfold grade.
  rewrite (grade_questions_ext sub1 sub2 rubric (questions rubric) Hsame).
  now rewrite Hsid, Haid.
Qed.

End Reads.

(** ** The helper methods of the models *)

Section Models.

Import Results Submissions SubmissionFiles SubmissionParser.

(** X19.  With the default passing percentage of 60, a result passes
    exactly when its letter grade is not F. *)
Theorem passed_unless_F (r : GradeResult) :
  passed r 60 = true <-> letter_grade r <> "F".
Proof.
  unfold passed, letter_grade.
  destruct (Qle_bool 60 (percentage r)) eqn:H60.
  - split; [|reflexivity]. intros _.
    destruct (Qle_bool 90 (percentage r)); [discriminate|].
    destruct (Qle_bool 80 (percentage r)); [discriminate|].
    destruct (Qle_bool 70 (percentage r)); discriminate.
  - assert (Hno : forall x, 60 <= x -> Qle_bool x (percentage r) = false).
    { intros x Hx. destruct (Qle_bool x (percentage r)) eqn:Hb; [|reflexivity].
      apply Qle_bool_iff in Hb.
      assert (Hle : 60 <= percentage r) by (eapply Qle_trans; eassumption).
      apply Qle_bool_iff in Hle. congruence. }
    rewrite !Hno by discriminate.
    split; [discriminate | intros Hf; now contradiction Hf].
Qed.

Lemma filter_split (l : list QuestionGrade) :
  (length (filter (fun qg => is_correct qg) l)
   + length (filter (fun qg => negb (is_correct qg)) l))%nat
  = length l.
Proof.
  induction l as [|g l IH]; [reflexivity|].
  rewrite !filter_cons. simpl. destruct (is_correct g); simpl; lia.
Qed.

Lemma count_ratio (c t : nat) :
  (c <= S t)%nat ->
  let ratio := inject_Z (Z.of_nat c) / inject_Z (Z.of_nat (S t)) * 100 in
  0 <= ratio <= 100 /\ (ratio == 100 <-> c = S t).
Proof.
  intros Hle. cbv zeta.
  change (Z.of_nat (S t)) with (Z.pos (Pos.of_succ_nat t)).
  unfold Qdiv, Qmult, Qinv, Qle, Qeq, inject_Z.
  cbn [Qnum Qden]. rewrite ?Pos.mul_1_r, ?Pos.mul_1_l, ?Z.mul_1_r.
  rewrite Zpos_P_of_succ_nat. split; [split|]; lia.
Qed.

(** X20.  Every grade of a result is among the correct or among the
    incorrect ones, never both; the accuracy lies between 0 and 100, and
    it is 100 exactly when there is a grade and none is incorrect. *)
Theorem accuracy_counts (r : GradeResult) :
  (length (correct_questions r) + length (incorrect_questions r))%nat
  = length (question_grades r)
  /\ 0 <= accuracy r <= 100
  /\ (accuracy r == 100 <->
      question_grades r <> [] /\ incorrect_questions r = []).
Proof.
  unfold accuracy, count, correct_questions, incorrect_questions.
  pose proof (filter_split (question_grades r)) as Hsplit.
  split; [exact Hsplit|].
  destruct (question_grades r) as [|g l] eqn:Hq.
  - split; [split; discriminate|]. split.
    + intros Hz. vm_compute in Hz. discriminate.
    + intros [Hne _]. now contradiction Hne.
  - set (cs := filter (fun qg => is_correct qg) (g :: l)) in *.
    set (ws := filter (fun qg => negb (is_correct qg)) (g :: l)) in *.
    cbn [length] in Hsplit.
    destruct (count_ratio (length cs) (length l) ltac:(lia)) as [Hr He].
    cbv zeta in Hr, He. cbn [length]. split; [exact Hr|].
    rewrite He. split.
    + intros Hall. split; [discriminate|].
      destruct ws; [reflexivity | simpl in Hsplit; lia].
    + intros [_ Hnone]. rewrite Hnone in Hsplit. simpl in Hsplit. lia.
Qed.

Lemma find_answer_ids (l : list StudentAnswer) (q : string) :
  (exists a, find_answer l q = Some a /\ question_id a = q)
  <-> In q (map question_id l).
Proof.
  induction l as [|x l IH]; simpl.
  - split; [intros (a & Ha & _); discriminate | intros []].
  - destruct (String.eqb (question_id x) q) eqn:Hx.
    + apply String.eqb_eq in Hx. split; [now left|]. intros _. eauto.
    + apply String.eqb_neq in Hx. rewrite IH. split; [now right|].
      intros [Heq | Hin]; [contradiction | exact Hin].
Qed.

(** One parsed answer: its confidence is 0 when it has no raw text and at
    least 0.3 otherwise. *)
Lemma extracted_confidence (text : string) (expected : list string)
    (a : StudentAnswer) :
  In a (_extract_answers text expected) ->
  (raw_text a = "" -> confidence a = 0)
  /\ (raw_text a <> "" -> Py.float_lit 0.3 <= confidence a).
Proof.
  unfold _extract_answers. intros Hin.
  apply in_map_iff in Hin as (q & <- & _). unfold answer_for.
  destruct (_find_answer_blocks text !! q) as [[raw conf]|] eqn:Hq.
  - unfold _find_answer_blocks in Hq.
    apply fold_record_found in Hq as [Hempty | (m & _ & _ & He)].
    { rewrite lookup_empty in Hempty. discriminate. }
    pose proof (match_entry_shape m) as Hshape. rewrite He in Hshape.
    cbn [fst snd] in Hshape. cbn [confidence raw_text]. tauto.
  - cbn [confidence raw_text]. split; [reflexivity|].
    intros Hne. now contradiction Hne.
Qed.

(** X21.  A submission that [parse] returns has one answer per
    sub-question id of the key, so [has_answer] holds exactly for the ids
    of the key, placeholders included; and its answers with a confidence
    below 0.3 are exactly those without raw text. *)
Theorem parsed_submission_answers (pdf : document) (rubric : Rubric)
    (student : option string) (sub : Submission) :
  parse pdf rubric student = Ok sub ->
  answer_count sub = length (_get_expected_questions rubric)
  /\ (forall q, has_answer sub q = true
                <-> In q (_get_expected_questions rubric))
  /\ (forall a, In a (get_low_confidence_answers sub (Py.float_lit 0.3))
                <-> In a (answers sub) /\ raw_text a = "").
Proof.
  unfold parse, new_Submission.
  destruct (doc_read pdf) as [[raw|e]|]; try discriminate.
  cbn [rbind]. destruct (student_id_not_empty _); [|discriminate].
  cbn [rbind]. intros [= <-].
  unfold answer_count, has_answer, get_answer, get_low_confidence_answers.
  cbn [answers].
  set (expected := _get_expected_questions rubric).
  assert (Hids : map question_id (_extract_answers raw expected) = expected).
  { unfold _extract_answers. rewrite map_map.
    rewrite (map_ext _ (fun q => q)); [apply map_id|].
    intros q. apply answer_for_id. }
  split; [|split].
  - rewrite <- Hids at 2. now rewrite length_map.
  - intros q. rewrite <- Hids at 2. rewrite <- find_answer_ids.
    destruct (find_answer (_extract_answers raw expected) q) as [ans|] eqn:Hf.
    + split; [|reflexivity]. intros _. exists ans. split; [reflexivity|].
      clear Hids. induction (_extract_answers raw expected) as [|x l IH];
        simpl in Hf; [discriminate|].
      destruct (String.eqb (question_id x) q) eqn:Hx; [|now apply IH].
      injection Hf as <-. now apply String.eqb_eq.
    + split; [discriminate|]. intros (ans & Ha & _). discriminate.
  - intros ans.
    rewrite <- list_elem_of_In, list_elem_of_filter, list_elem_of_In.
    split.
    + intros [Hlow Hin]. split; [exact Hin|].
      destruct (extracted_confidence _ _ _ Hin) as [_ Hfloor].
      destruct (string_dec (raw_text ans) "") as [He | Hne]; [exact He|].
      apply Is_true_true in Hlow. apply Qltb_lt in Hlow.
      exfalso. exact (Qlt_not_le _ _ Hlow (Hfloor Hne)).
    + intros [Hin Hraw]. split; [|exact Hin].
      destruct (extracted_confidence _ _ _ Hin) as [Hzero _].
      rewrite (Hzero Hraw). reflexivity.
Qed.

End Models.

(** ** The answer key's header and question blocks *)

Section Header.

Import Re ReSem RubricHeader Shape.

(** A pattern without groups leaves the captures as they are. *)
Lemma group_free_caps (r : regex) :
  group_free r = true ->
  forall pos s cs pos' s' cs',
    Matches r pos s cs pos' s' cs' -> cs' = cs.
Proof.
  induction r as [|p|r1 IH1 r2 IH2|r1 IH1 r2 IH2|g p|n r1 IH1|r1 IH1| |];
    simpl; intros Hfree pos s cs pos' s' cs' HM; try discriminate.
  - now destruct HM as (_ & _ & ->).
  - now destruct HM as (c & _ & _ & _ & ->).
  - apply andb_true_iff in Hfree as [H1 H2].
    destruct HM as (pos1 & s1 & cs1 & HM1 & HM2).
    apply (IH1 H1) in HM1. apply (IH2 H2) in HM2. congruence.
  - apply andb_true_iff in Hfree as [H1 H2].
    destruct HM as [HM | HM]; eauto.
  - now destruct HM as (w & _ & _ & _ & ->).
  - now destruct HM as (_ & _ & _ & ->).
  - now destruct HM as (_ & _ & _ & ->).
  - now destruct HM as (_ & _ & _ & ->).
Qed.

(** A group over one or more characters of a class, followed by a
    pattern without groups: the group holds a run of the class that is
    not empty. *)
Lemma group_then_free (n : nat) (g : bool) (p : ascii -> bool) (r : regex)
    pos s cs pos' s' cs' :
  group_free r = true ->
  Matches (Cat (Grp n (plus g p)) r) pos s cs pos' s' cs' ->
  exists c w, lookup_group n cs' = Some (String c w)
              /\ all_of p (String c w) = true.
Proof.
  intros Hfree (pos1 & s1 & cs1 & Hgrp & Hrest).
  apply (group_free_caps r Hfree) in Hrest. subst cs'.
  exact (group_of_plus _ _ _ _ _ _ _ _ _ Hgrp).
Qed.

Lemma completion_group_digits (text : string) (m : rmatch) :
  search COMPLETION text = Some m ->
  exists c w, group_text m 1 = String c w
              /\ all_of Py.is_digit (String c w) = true.
Proof.
  intros Hs. apply search_from_sound in Hs as (pre & s0 & _ & Hm).
  apply match_here_span in Hm as (w0 & HM & _).
  unfold COMPLETION in HM. cbn [cat fold_right] in HM.
  destruct HM as (? & ? & ? & _ & ? & ? & ? & _ & HM).
  apply group_then_free in HM as (c & w & Hg & Hall); [|reflexivity].
  exists c, w. unfold group_text, group. now rewrite Hg.
Qed.

Lemma assignment_group_digits (text : string) (m : rmatch) :
  search ASSIGNMENT text = Some m ->
  exists c w, group_text m 1 = String c w
              /\ all_of Py.is_digit (String c w) = true.
Proof.
  intros Hs. apply search_from_sound in Hs as (pre & s0 & _ & Hm).
  apply match_here_span in Hm as (w0 & HM & _).
  unfold ASSIGNMENT in HM. cbn [cat fold_right] in HM.
  destruct HM as (? & ? & ? & _ & ? & ? & ? & _ & ? & ? & ? & _
                  & ? & ? & ? & _ & HM).
  apply group_then_free in HM as (c & w & Hg & Hall); [|reflexivity].
  exists c, w. unfold group_text, group. now rewrite Hg.
Qed.

Lemma question_group_digits (pos : nat) (s : string) (m : rmatch) :
  match_here QUESTION pos s = Some m ->
  exists c w, group_text m 1 = String c w
              /\ all_of Py.is_digit (String c w) = true.
Proof.
  intros Hm. apply match_here_span in Hm as (w0 & HM & _).
  unfold QUESTION in HM. cbn [cat fold_right] in HM.
  destruct HM as (? & ? & ? & _ & ? & ? & ? & _ & ? & ? & ? & _
                  & ? & ? & ? & _ & HM).
  apply group_then_free in HM as (c & w & Hg & Hall); [|reflexivity].
  exists c, w. unfold group_text, group. now rewrite Hg.
Qed.

(** X22.  [_extract_base_points] never raises, and the base points it
    reads are not negative; when the number of the completion sentence is
    written with at most 15 digits they are exactly that whole number
    (longer runs of digits are rounded to the nearest float). *)
Theorem base_points_whole (text : string) :
  exists x,
    _extract_base_points text = Ok x
    /\ 0 <= x
    /\ forall m,
         search COMPLETION text = Some m ->
         (String.length (group_text m 1) <= 15)%nat ->
         exists z,
           Py.digits_value 0 (group_text m 1) = Some z
           /\ (0 <= z)%Z /\ x == inject_Z z.
Proof.
  unfold _extract_base_points.
  destruct (search COMPLETION text) as [m|] eqn:Hs.
  - destruct (completion_group_digits _ _ Hs) as (c & w & Hg & Hd).
    rewrite Hg.
    destruct (digits_value_nonneg _ Hd 0%Z ltac:(lia)) as (z & Hz & Hv).
    unfold Py.float_of_digits. rewrite Hv. cbn [option_map].
    exists (Py.round64 (inject_Z z)). split; [reflexivity|]. split.
    + apply round64_nonneg. unfold Qle. simpl. lia.
    + intros m' [= <-] Hlen. rewrite Hg in Hlen |- *.
      exists z. split; [exact Hv|]. split; [exact Hz|].
      apply round64_whole. split; [exact Hz|].
      pose proof (digits_value_bound _ _ _ (Z.le_refl 0) Hv) as Hb.
      assert (Hpow : (10 ^ Z.of_nat (String.length (String c w))
                      <= 10 ^ 15)%Z).
      { apply Z.pow_le_mono_r; lia. }
      assert (H53 : (10 ^ 15 < 2 ^ 53)%Z) by reflexivity.
      lia.
  - exists 0. split; [reflexivity|]. split; [apply Qle_refl|].
    intros m' Hm. discriminate.
Qed.

(** X23.  The assignment id read from a key is [Unknown] or [HW]
    followed by a run of digits that is not empty, whichever of the three
    words the key uses and however it is written. *)
Theorem assignment_id_shape (text : string) :
  _extract_assignment_id text = "Unknown"
  \/ exists c w,
       _extract_assignment_id text = "HW" ++ String c w
       /\ all_of Py.is_digit (String c w) = true.
Proof.
  unfold _extract_assignment_id.
  destruct (search ASSIGNMENT text) as [m|] eqn:Hs; [|now left].
  right. destruct (assignment_group_digits _ _ Hs) as (c & w & -> & Hd).
  eauto.
Qed.

(** Every match [finditer] reports is a match at some offset, inside the
    text. *)
Lemma finditer_from_inside (r : regex) (fuel : nat) :
  forall pos s,
    Forall (fun m => exists p0 s0,
                       match_here r p0 s0 = Some m
                       /\ (m_start m <= m_end m)%nat
                       /\ (m_end m <= pos + String.length s)%nat)
           (finditer_from fuel r pos s).
Proof.
  induction fuel as [|f IH]; intros pos s; simpl; [constructor|].
  destruct (search_from r pos s) as [m|] eqn:Hs; [|constructor].
  destruct (search_from_sound _ _ _ _ Hs) as (pre & s0 & -> & Hm).
  destruct (match_here_span _ _ _ _ Hm) as (w & _ & Hst & -> & Hend).
  rewrite !length_append.
  assert (Hrest : (m_end m + String.length (m_rest m)
                   = pos + (String.length pre
                            + (String.length w + String.length (m_rest m))))%nat)
    by lia.
  constructor.
  - exists (pos + String.length pre)%nat, (w ++ m_rest m). split; [exact Hm|].
    lia.
  - destruct (m_end m =? m_start m)%nat.
    + destruct (m_rest m) as [|c s'] eqn:Hr; [constructor|].
      simpl in Hrest. eapply Forall_impl; [apply (IH (S (m_end m)) s')|].
      intros x (p0 & s1 & Hx & Hle & Hin). exists p0, s1.
      split; [exact Hx|]. split; [exact Hle|].
      cbn [String.length] in *. lia.
    + eapply Forall_impl; [apply (IH (m_end m) (m_rest m))|].
      intros x (p0 & s1 & Hx & Hle & Hin). exists p0, s1.
      split; [exact Hx|]. split; [exact Hle | lia].
Qed.

Lemma int_of_digits_run (c : ascii) (w : string) :
  all_of Py.is_digit (String c w) = true ->
  if (String.length (String c w) <=? 4300)%nat
  then exists z, int_of_digits (String c w) = Some z /\ (0 <= z)%Z
  else int_of_digits (String c w) = None.
Proof.
  intros Hd. unfold int_of_digits.
  destruct (String.length (String c w) <=? 4300)%nat eqn:Hlen.
  - apply Nat.leb_le in Hlen.
    destruct (4300 <? String.length (String c w))%nat eqn:Hlt.
    { apply Nat.ltb_lt in Hlt. lia. }
    destruct (digits_value_nonneg _ Hd 0%Z ltac:(lia)) as (z & Hz & Hv).
    exists z. auto.
  - apply Nat.leb_gt in Hlen.
    destruct (4300 <? String.length (String c w))%nat eqn:Hlt; [reflexivity|].
    apply Nat.ltb_ge in Hlt. lia.
Qed.

Lemma substring_from_start (t : string) :
  forall b c,
    (b <= c)%nat ->
    substring 0 b t ++ substring b (c - b) t = substring 0 c t.
Proof.
  induction t as [|x t IH]; intros b c Hbc.
  - destruct b, c; try lia; reflexivity.
  - destruct b as [|b].
    + rewrite Nat.sub_0_r. reflexivity.
    + destruct c as [|c]; [lia|]. cbn [substring Nat.sub].
      change (String x (substring 0 b t) ++ substring b (c - b) t)
        with (String x (substring 0 b t ++ substring b (c - b) t)).
      rewrite IH by lia. reflexivity.
Qed.

(** Adjacent slices join. *)
Lemma slice_app (t : string) (a b c : nat) :
  (a <= b)%nat -> (b <= c)%nat ->
  slice t a b ++ slice t b c = slice t a c.
Proof.
  intros Hab Hbc. unfold slice.
  revert a b c Hab Hbc. induction t as [|x t IH]; intros a b c Hab Hbc.
  - assert (Hempty : forall k n, substring k n "" = "")
      by (intros [|k] [|n]; reflexivity).
    now rewrite !Hempty.
  - destruct a as [|a].
    + rewrite !Nat.sub_0_r. now apply substring_from_start.
    + destruct b as [|b]; [lia|]. destruct c as [|c]; [lia|].
      cbn [substring Nat.sub]. apply IH; lia.
Qed.

Lemma append_empty (s : string) : s ++ "" = s.
Proof.
  induction s as [|c s IH]; [reflexivity|].
  change (String c s ++ "") with (String c (s ++ "")). now rewrite IH.
Qed.

(** The blocks of a list of matches in document order. *)
Lemma blocks_from_spec (text : string) (ms : list rmatch) :
  Forall (fun m => exists p0 s0,
                     match_here QUESTION p0 s0 = Some m
                     /\ (m_start m <= m_end m)%nat
                     /\ (m_end m <= Py.len text)%nat) ms ->
  StronglySorted before ms ->
  ((exists blocks, blocks_from text ms = Ok blocks)
   <-> forallb (fun m => (String.length (group_text m 1) <=? 4300)%nat) ms
       = true)
  /\ forall blocks,
       blocks_from text ms = Ok blocks ->
       length blocks = length ms
       /\ Forall (fun b => (0 <= fst b)%Z) blocks
       /\ match ms with
          | [] => blocks = []
          | m :: _ =>
              fold_right String.append "" (map snd blocks)
              = slice text (m_start m) (Py.len text)
          end.
Proof.
  intros Hin Hsorted.
  induction ms as [|m rest IH].
  - split.
    + split; [reflexivity | intros _; now exists []].
    + intros blocks [= <-]. repeat split. constructor.
  - inversion Hin as [|? ? (p0 & s0 & Hm & Hle & Hend) Hin']; subst.
    inversion Hsorted as [|? ? Hsorted' Hbefore]; subst.
    destruct (IH Hin' Hsorted') as [Hiff Hspec]. clear IH.
    destruct (question_group_digits _ _ _ Hm) as (c & w & Hg & Hd).
    pose proof (int_of_digits_run c w Hd) as Hint.
    cbn [blocks_from forallb]. rewrite Hg.
    destruct (String.length (String c w) <=? 4300)%nat.
    + destruct Hint as (z & -> & Hz). cbn [andb]. split.
      * rewrite <- Hiff. split.
        -- intros (blocks & Hb).
           destruct (blocks_from text rest) as [bs|e]; [|discriminate].
           now exists bs.
        -- intros (bs & ->). cbn [rbind]. eauto.
      * intros blocks Hb.
        destruct (blocks_from text rest) as [bs|e] eqn:Hbs; [|discriminate].
        cbn [rbind] in Hb. injection Hb as <-.
        destruct (Hspec bs eq_refl) as (Hlen & Hpos & Htile).
        cbn [length map fold_right fst snd].
        split; [now rewrite Hlen|]. split; [now constructor|].
        destruct rest as [|next rest'].
        -- subst bs. cbn. apply append_empty.
        -- rewrite Htile.
           inversion Hbefore as [|? ? Hb1 _]; subst. unfold before in Hb1.
           inversion Hin' as [|? ? (p1 & s1 & _ & Hle1 & Hend1) _]; subst.
           apply slice_app; lia.
    + rewrite Hint. cbn [andb]. split.
      * split; [intros (blocks & Hb); discriminate | discriminate].
      * discriminate.
Qed.

(** X24.  [_split_into_questions] returns blocks unless a question
    number has more than 4300 digits (then [int] raises).  It returns one
    block per question marker, with a number that is not negative; joined,
    the blocks are the text from the first marker to the end: what
    precedes the first marker is dropped, nothing after it is lost. *)
Theorem split_into_questions_tiles (text : string) :
  ((exists blocks, _split_into_questions text = Ok blocks)
   <-> forallb (fun m => (String.length (group_text m 1) <=? 4300)%nat)
               (question_matches text) = true)
  /\ forall blocks,
       _split_into_questions text = Ok blocks ->
       length blocks = length (question_matches text)
       /\ Forall (fun b => (0 <= fst b)%Z) blocks
       /\ match question_matches text with
          | [] => blocks = []
          | m :: _ =>
              fold_right String.append "" (map snd blocks)
              = slice text (m_start m) (Py.len text)
          end.
Proof.
  unfold _split_into_questions. apply blocks_from_spec.
  - unfold question_matches, finditer.
    eapply Forall_impl;
      [apply (finditer_from_inside QUESTION (S (String.length text)) 0 text)|].
    intros m (p0 & s0 & Hm & Hle & Hend). exists p0, s0. auto.
  - unfold question_matches, finditer. apply finditer_from_ordered.
Qed.

End Header.

(** ** The comparator: the branches that need no SymPy *)

Section ComparatorCases.

Import MathComparator.

Context `{Sympy}.

(** X25.  A student's answer that is not blank and equals, after
    normalization, one of the equivalent forms of the key is correct with
    confidence 1.0, whatever the type of the question and the key's own
    answer. *)
Theorem equivalent_form_accepted (student correct_answer form : string)
    (qt : QuestionType) (forms : list string) :
  In form forms ->
  _normalize (Some student) = _normalize (Some form) ->
  _normalize (Some student) <> "" ->
  compare (Some student) correct_answer qt forms = (true, 1).
Proof.
  intros Hin Hsame Hne. unfold compare.
  apply truthy_nonempty in Hne. rewrite Hne. cbn [negb].
  destruct (String.eqb _ _); [reflexivity|].
  assert (Hfound : in_list (_normalize (Some student))
                     (map (fun f => _normalize (Some f)) forms) = true).
  { unfold in_list. apply existsb_exists.
    exists (_normalize (Some form)). split.
    - apply in_map_iff. eauto.
    - apply String.eqb_eq. exact Hsame. }
  rewrite Hfound. destruct forms; [destruct Hin | reflexivity].
Qed.

(** X26.  Without equivalent forms, a true/false answer is correct
    exactly when it is not blank and either equals the key after
    normalization or both are among the recognized words for the same
    truth value. *)
Theorem true_false_verdict (student correct_answer : string) :
  fst (compare (Some student) correct_answer TRUE_FALSE []) = true
  <-> _normalize (Some student) <> ""
      /\ (_normalize (Some student) = _normalize (Some correct_answer)
          \/ exists b,
               to_bool (_normalize (Some student)) = Some b
               /\ to_bool (_normalize (Some correct_answer)) = Some b).
Proof.
  unfold compare.
  set (s := _normalize (Some student)).
  set (k := _normalize (Some correct_answer)).
  destruct (Py.truthy s) eqn:Hs; cbn [negb].
  - assert (Hne : s <> "") by now apply truthy_nonempty.
    destruct (String.eqb s k) eqn:Hsk.
    + apply String.eqb_eq in Hsk. cbn [fst]. split; auto.
    + apply String.eqb_neq in Hsk. cbn [andb]. unfold _compare_boolean.
      destruct (to_bool s) as [x|], (to_bool k) as [y|]; cbn [fst]; split;
        try discriminate;
        try (intros [_ [Heq | (b & Hx & Hy)]];
             [contradiction | discriminate]).
      * intros Hxy. apply Bool.eqb_prop in Hxy. subst y.
        split; [exact Hne|]. right. eauto.
      * intros [_ [Heq | (b & Hx & Hy)]]; [contradiction|].
        injection Hx as ->. injection Hy as ->. apply Bool.eqb_reflx.
  - cbn [fst]. split; [discriminate|]. intros [Hne _]. exfalso. apply Hne.
    destruct s; [reflexivity | discriminate].
Qed.

(** X27.  Without equivalent forms, a multiple-choice answer is correct
    exactly when it is not blank and starts, after normalization, with
    the character the key starts with: what follows the first character
    is not read. *)
Theorem multiple_choice_verdict (student correct_answer : string) :
  fst (compare (Some student) correct_answer MULTIPLE_CHOICE []) = true
  <-> _normalize (Some student) <> ""
      /\ first_letter (_normalize (Some student))
         = first_letter (_normalize (Some correct_answer)).
Proof.
  unfold compare.
  set (s := _normalize (Some student)).
  set (k := _normalize (Some correct_answer)).
  destruct (Py.truthy s) eqn:Hs; cbn [negb].
  - assert (Hne : s <> "") by now apply truthy_nonempty.
    destruct (String.eqb s k) eqn:Hsk.
    + apply String.eqb_eq in Hsk. cbn [fst]. split; [|reflexivity].
      intros _. split; [exact Hne | now rewrite Hsk].
    + cbn [andb]. unfold _compare_multiple_choice. cbn [fst].
      rewrite String.eqb_eq. tauto.
  - cbn [fst]. split; [discriminate|]. intros [Hne _]. exfalso. apply Hne.
    destruct s; [reflexivity | discriminate].
Qed.

End ComparatorCases.

(** ** A grade as a percentage *)

Section Percentages.

Import GradingEngine Results.

Context `{Sympy}.

(** X28.  Under a rule that is not a per-item penalty, a grade
    [_grade_question] returns earns nothing or all of the sub-question's
    points, and its percentage is 0 or 100. *)
Theorem question_percentage_all_or_nothing (sq : SubQuestion)
    (a : option StudentAnswer) (rubric : Rubric) (g : QuestionGrade) :
  outcome (_grade_question sq a rubric) = Ok g ->
  rule_type (grading_rule sq) <> PER_ITEM_PENALTY ->
  (points_earned g = 0 \/ points_earned g = points_possible g)
  /\ (question_percentage g == 0 \/ question_percentage g == 100).
Proof.
  intros Hg Hrule.
  assert (Hzero : forall p, (if Qeq_bool p 0 then 0 else 0 / p * 100) == 0).
  { intros p. destruct (Qeq_bool p 0); reflexivity. }
  assert (Hfull : forall p, (if Qeq_bool p 0 then 0 else p / p * 100) == 0
                            \/ (if Qeq_bool p 0 then 0 else p / p * 100)
                               == 100).
  { intros p. destruct (Qeq_bool p 0) eqn:Hp; [left; reflexivity|].
    right. apply Qeq_bool_neq in Hp. field. exact Hp. }
  apply grade_question_cases in Hg
    as [(_ & He & Hp & _) | (ans & p & _ & _ & Hg)].
  - unfold question_percentage. rewrite He. split; [now left|].
    left. apply Hzero.
  - cbv zeta in Hg. subst g. unfold question_percentage.
    cbn [points_earned points_possible].
    assert (Hpoints : forall c,
              _apply_grading_rule c (grading_rule sq) (sq_points sq)
              = if c then sq_points sq else 0).
    { intros c. unfold _apply_grading_rule.
      destruct (rule_type (grading_rule sq)); congruence. }
    rewrite Hpoints.
    destruct (fst (MathComparator.compare _ _ _ _)).
    + split; [now right | apply Hfull].
    + split; [now left | left; apply Hzero].
Qed.

End Percentages.

(** ** The properties above on sample data *)

Section FurtherExamples.

Import MathComparator SubmissionParser SubmissionFiles Submissions Results
  GradingEngine Batch RubricParser RubricHeader Expected MiniSympy.

Lemma verdict_symmetric_witness :
  fst (compare (Some "True") "yes" TRUE_FALSE [])
  = fst (compare (Some "yes") "True" TRUE_FALSE []).
Proof.
  apply (verdict_symmetric "True" "yes" TRUE_FALSE); discriminate.
Defined.

Lemma confidence_of_nonempty_at_least_witness :
  Py.float_lit 0.3 <= _calculate_confidence "x?" <= 1
  /\ _calculate_confidence "" = 0.
Proof.
  apply (confidence_of_nonempty_at_least "x?"). discriminate.
Defined.

Lemma extracted_answers_well_formed_witness :
  let a := Examples.answer "1a" "True" (Some "True") 1 in
  0 <= confidence a <= 1
  /\ parsed_value a = Some (_clean_answer (raw_text a))
  /\ Py.count_char newline (raw_text a) = 0%nat
  /\ Py.strip (raw_text a) = raw_text a
  /\ (raw_text a = "" -> confidence a = 0)
  /\ (raw_text a <> "" -> Py.float_lit 0.3 <= confidence a).
Proof.
  apply (extracted_answers_well_formed "1a) True" ["1a"; "2a"]).
  vm_compute. left. reflexivity.
Defined.

Lemma student_id_shape_witness :
  _extract_student_id "jane_doe_12345" <> ""
  /\ ReSem.all_of is_word (_extract_student_id "jane_doe_12345") = true.
Proof.
  destruct (student_id_shape "jane_doe_12345") as [[Hsame | Hword] _].
  - vm_compute in Hsame. discriminate.
  - exact Hword.
Defined.

Lemma parse_outcome_witness :
  (exists sub,
     SubmissionFiles.parse Samples.student_doc Examples.key None = Ok sub
     /\ student_id sub = "001")
  /\ SubmissionFiles.parse Samples.missing_doc Examples.key None = Raise OtherException.
Proof.
  pose proof (parse_outcome Samples.student_doc Examples.key) as Hdoc.
  pose proof (parse_outcome Samples.missing_doc Examples.key) as Hmissing.
  cbv zeta in Hdoc, Hmissing.
  destruct Hdoc as (Hiff & _ & _). destruct Hmissing as (_ & Hnone & _).
  split.
  - eexists. split.
    + apply Hiff. eexists. split; [reflexivity|].
      split; [reflexivity | reflexivity].
    + reflexivity.
  - apply Hnone. reflexivity.
Defined.

Lemma parse_batch_isolation_witness :
  parse_batch [Samples.student_doc; Samples.missing_doc; Samples.partial_doc]
    Examples.key
  = parse_batch [Samples.student_doc; Samples.partial_doc] Examples.key.
Proof.
  apply (proj1 (parse_batch_isolation [Samples.student_doc]
                  [Samples.partial_doc] Samples.missing_doc Examples.key)
           OtherException).
  reflexivity.
Defined.

Lemma parsed_submission_is_graded_witness :
  exists sub r,
    SubmissionFiles.parse Samples.student_doc Examples.key None = Ok sub
    /\ outcome (grade sub Examples.key) = Ok r
    /\ map qg_question_id (question_grades r) = ["1a"; "2a"]
    /\ gr_student_id r = "001".
Proof.
  destruct (SubmissionFiles.parse Samples.student_doc Examples.key None) as [sub|e] eqn:Hp;
    [|vm_compute in Hp; discriminate].
  destruct (parsed_submission_is_graded _ _ _ _ Hp) as (r & Hr & Hids & Hsid).
  exists sub, r. split; [reflexivity|]. split; [exact Hr|].
  split; [exact Hids|].
  rewrite Hsid. vm_compute in Hp. injection Hp as <-. reflexivity.
Defined.

Lemma grade_batch_all_or_nothing_witness :
  outcome (grade_batch [Examples.good; Examples.unparsed; Examples.doubtful]
             Examples.key)
  = Raise ValidationError.
Proof.
  apply (proj2 (grade_batch_all_or_nothing
                  [Examples.good; Examples.unparsed; Examples.doubtful]
                  Examples.key)
           [Examples.good] Examples.unparsed [Examples.doubtful]
           ValidationError).
  - reflexivity.
  - constructor; [|constructor]. eexists. reflexivity.
  - vm_compute. reflexivity.
Defined.

Lemma question_grade_invariants_witness :
  exists g,
    outcome (_grade_question (Examples.sub_question "1a" "True" TRUE_FALSE)
               (get_answer Examples.good "1a") Examples.key) = Ok g
    /\ is_correct g = true /\ grading_notes g = None
    /\ points_earned g = 5.
Proof.
  destruct (outcome (_grade_question
                       (Examples.sub_question "1a" "True" TRUE_FALSE)
                       (get_answer Examples.good "1a") Examples.key))
    as [g|e] eqn:Hg; [|vm_compute in Hg; discriminate].
  destruct (question_grade_invariants _ _ _ _ Hg) as (_ & _ & Hc & _).
  assert (Hcorrect : is_correct g = true).
  { vm_compute in Hg. injection Hg as <-. reflexivity. }
  destruct (Hc Hcorrect) as (Hn & _ & Hp).
  exists g. split; [reflexivity|]. split; [exact Hcorrect|].
  split; [exact Hn|]. rewrite Hp. reflexivity.
Defined.

Lemma parsed_rule_never_negative_witness :
  exists rule,
    _extract_grading_rule Examples.penalty_note = Ok rule
    /\ _apply_grading_rule false rule 5 = 0
    /\ 0 <= _apply_grading_rule true rule 5.
Proof.
  destruct (parsed_rule_never_negative Examples.penalty_note)
    as (rule & Hrule & Hpoints).
  assert (Hfive : 0 <= 5) by discriminate.
  destruct (Hpoints false 5 Hfive) as [_ Hpenalty].
  destruct (Hpoints true 5 Hfive) as [Hpos _].
  assert (Hkind : rule_type rule = PER_ITEM_PENALTY
                  /\ minimum_score rule = 0).
  { vm_compute in Hrule. injection Hrule as <-. split; reflexivity. }
  destruct Hkind as [Hkind Hmin]. destruct (Hpenalty Hkind) as [Hwrong _].
  exists rule. split; [exact Hrule|].
  split; [now rewrite Hwrong, Hmin | exact Hpos].
Defined.

Lemma overall_feedback_praise_witness :
  _generate_overall_feedback [Samples.right_grade]
  = "Excellent work! All answers are correct.".
Proof.
  apply (proj2 (overall_feedback_praise [Samples.right_grade])). reflexivity.
Defined.

Lemma grade_comparator_log_witness :
  calls (grade Examples.doubtful Examples.key)
  = [mkCall (Some "1/4") "0.25" NUMERIC []].
Proof.
  destruct (grade_comparator_log Examples.doubtful Examples.key)
    as [_ Hall].
  destruct (outcome (grade Examples.doubtful Examples.key)) as [r|e] eqn:Hr;
    [|vm_compute in Hr; discriminate].
  rewrite (Hall r eq_refl). vm_compute. reflexivity.
Defined.

Lemma grade_reads_first_answers_witness :
  grade Examples.good Examples.key = grade Samples.with_extras Examples.key.
Proof.
  apply (grade_reads_first_answers Examples.good Samples.with_extras
           Examples.key).
  - reflexivity.
  - reflexivity.
  - intros q [<- | [<- | []]]; reflexivity.
Defined.

Lemma passed_unless_F_witness :
  passed Samples.one_right 60 = true /\ letter_grade Samples.one_right = "B".
Proof.
  split; [|reflexivity].
  apply (proj2 (passed_unless_F Samples.one_right)).
  intros Hf. vm_compute in Hf. discriminate Hf.
Defined.

Lemma accuracy_counts_witness : accuracy Samples.one_right == 100.
Proof.
  destruct (accuracy_counts Samples.one_right) as (_ & _ & Hfull).
  apply Hfull. split; [discriminate | reflexivity].
Defined.

Lemma parsed_submission_answers_witness :
  exists sub,
    SubmissionFiles.parse Samples.partial_doc Examples.key None = Ok sub
    /\ answer_count sub = 2%nat
    /\ has_answer sub "2a" = true
    /\ has_answer sub "3a" = false.
Proof.
  destruct (SubmissionFiles.parse Samples.partial_doc Examples.key None) as [sub|e] eqn:Hp;
    [|vm_compute in Hp; discriminate].
  destruct (parsed_submission_answers _ _ _ _ Hp) as (Hcount & Hhas & _).
  exists sub. split; [reflexivity|]. split; [exact Hcount|]. split.
  - apply Hhas. right. left. reflexivity.
  - destruct (has_answer sub "3a") eqn:H3; [|reflexivity].
    apply Hhas in H3. destruct H3 as [H3 | [H3 | []]]; discriminate.
Defined.

Lemma base_points_whole_witness :
  exists x, _extract_base_points Samples.key_text = Ok x /\ x == 18.
Proof.
  destruct (base_points_whole Samples.key_text) as (x & Hx & _ & Hexact).
  destruct (Re.search COMPLETION Samples.key_text) as [m|] eqn:Hs;
    [|vm_compute in Hs; discriminate].
  assert (Hg : Re.group_text m 1 = "18").
  { vm_compute in Hs. injection Hs as <-. reflexivity. }
  destruct (Hexact m eq_refl) as (z & Hv & _ & Hz).
  { rewrite Hg. simpl. lia. }
  exists x. split; [exact Hx|]. rewrite Hz. rewrite Hg in Hv.
  vm_compute in Hv. injection Hv as <-. reflexivity.
Defined.

Lemma split_into_questions_tiles_witness :
  exists b1 b2,
    _split_into_questions Samples.key_text = Ok [b1; b2]
    /\ (snd b1 ++ snd b2 ++ "")
       = slice Samples.key_text 58 (Py.len Samples.key_text).
Proof.
  destruct (split_into_questions_tiles Samples.key_text) as [Hiff Hblocks].
  destruct (proj2 Hiff) as (blocks & Hb); [vm_compute; reflexivity|].
  destruct (Hblocks blocks Hb) as (Hlen & _ & Htile).
  assert (Hms : exists m1 m2,
            question_matches Samples.key_text = [m1; m2]
            /\ Re.m_start m1 = 58%nat).
  { eexists _, _. split; vm_compute; reflexivity. }
  destruct Hms as (m1 & m2 & Hms & Hstart).
  rewrite Hms in Hlen, Htile. rewrite Hstart in Htile.
  destruct blocks as [|b1 [|b2 [|]]]; try discriminate.
  exists b1, b2. split; [exact Hb | exact Htile].
Defined.

Lemma equivalent_form_accepted_witness :
  compare (Some " One  Quarter ") "0.25" NUMERIC ["1/4"; "one quarter"]
  = (true, 1).
Proof.
  apply (equivalent_form_accepted " One  Quarter " "0.25" "one quarter"
           NUMERIC ["1/4"; "one quarter"]).
  - right. left. reflexivity.
  - reflexivity.
  - discriminate.
Defined.

Lemma true_false_verdict_witness :
  fst (compare (Some "Yes") "True" TRUE_FALSE []) = true.
Proof.
  apply (proj2 (true_false_verdict "Yes" "True")).
  split; [discriminate|]. right. exists true. split; reflexivity.
Defined.

Lemma multiple_choice_verdict_witness :
  fst (compare (Some "b) the second") "B" MULTIPLE_CHOICE []) = true.
Proof.
  apply (proj2 (multiple_choice_verdict "b) the second" "B")).
  split; [discriminate | reflexivity].
Defined.

Lemma question_percentage_all_or_nothing_witness :
  exists g,
    outcome (_grade_question (Examples.sub_question "2a" "0.25" NUMERIC)
               (get_answer Examples.good "2a") Examples.key) = Ok g
    /\ question_percentage g == 100.
Proof.
  destruct (outcome (_grade_question
                       (Examples.sub_question "2a" "0.25" NUMERIC)
                       (get_answer Examples.good "2a") Examples.key))
    as [g|e] eqn:Hg; [|vm_compute in Hg; discriminate].
  destruct (question_percentage_all_or_nothing _ _ _ _ Hg) as [_ Hpct].
  { discriminate. }
  exists g. split; [reflexivity|].
  destruct Hpct as [Hzero | Hfull]; [|exact Hfull].
  vm_compute in Hg. injection Hg as <-. vm_compute in Hzero.
  discriminate Hzero.
Defined.

End FurtherExamples.
